(** * Streamlit_creator: the wizard's JSON repair, packaging and phase logic

    A shallow embedding of the parts of [recog.py], [recog3.py], [recog4.py]
    and [recog5.py] that carry behaviour of their own:

    - the response normalizer ([clean_json_text], [parse_gemini_json]),
      together with the Python library functions it is built from
      ([str.strip], [str.replace], [re.sub], [json.loads]);
    - the project packager ([zip_project]), with what [zipfile] makes of
      the names and texts it is given, and the assembly of the file set;
    - one script run of the wizard (recog4 / recog5) over the session state;
    - the single-action recognizers (recog, recog3).

    Python [str] values are lists of Unicode code points. *)

From Stdlib Require Import List NArith ZArith Bool Lia String Ascii.
Import ListNotations.

Set Implicit Arguments.
Set Warnings "-register-all".

(* ================================================================== *)
(** * Python strings *)
(* ================================================================== *)

Module PyStr.

Local Open Scope N_scope.

(** A code point, and a [str]. *)
Definition char := N.
Definition pystr := list char.

(** ASCII literals of the development, [txt "abc"]. *)
Definition txt (s : string) : pystr :=
  List.map N_of_ascii (list_ascii_of_string s).

Definition c_tab : char := 9.
Definition c_nl : char := 10.
Definition c_cr : char := 13.
Definition c_space : char := 32.
Definition c_dquote : char := 34.
Definition c_comma : char := 44.
Definition c_backslash : char := 92.
Definition c_backtick : char := 96.

(** [quoted "a'b"] is [txt] with every apostrophe read as a double quote;
    it only serves to write JSON texts legibly in examples. *)
Definition quoted (s : string) : pystr :=
  List.map (fun c => if c =? 39 then c_dquote else c) (txt s).

Definition str_eqb (a b : pystr) : bool :=
  if list_eq_dec N.eq_dec a b then true else false.

(** [str.isspace] on one code point, which is also what [\s] matches in a
    [str] pattern: the code points CPython lists in [_PyUnicode_IsWhitespace]. *)
Definition py_isspace (c : char) : bool :=
  ((9 <=? c) && (c <=? 13)) || ((28 <=? c) && (c <=? 32))
  || (c =? 133) || (c =? 160) || (c =? 5760)
  || ((8192 <=? c) && (c <=? 8202))
  || (c =? 8232) || (c =? 8233) || (c =? 8239) || (c =? 8287) || (c =? 12288).

(** [s.lstrip(...)] / [s.rstrip(...)] / [s.strip(...)] for the set of code
    points accepted by [p]. *)
Fixpoint lstrip_by (p : char -> bool) (s : pystr) : pystr :=
  match s with
  | [] => []
  | c :: r => if p c then lstrip_by p r else s
  end.

Definition rstrip_by (p : char -> bool) (s : pystr) : pystr :=
  rev (lstrip_by p (rev s)).

Definition strip_by (p : char -> bool) (s : pystr) : pystr :=
  rstrip_by p (lstrip_by p s).

(** [s.strip()] *)
Definition py_strip (s : pystr) : pystr := strip_by py_isspace s.

(** [s.startswith(p)] *)
Fixpoint startswith (p s : pystr) : bool :=
  match p, s with
  | [], _ => true
  | a :: p', b :: s' => (a =? b) && startswith p' s'
  | _ :: _, [] => false
  end.

(** [p in s] *)
Fixpoint occurs (p s : pystr) : bool :=
  match s with
  | [] => match p with [] => true | _ :: _ => false end
  | _ :: r => startswith p s || occurs p r
  end.

(** [s.replace(old, new)] for a non-empty [old]: occurrences are replaced
    left to right without overlap.  [skip] counts the code points of the
    occurrence just replaced that are still to be dropped. *)
Fixpoint replace_scan (old new : pystr) (skip : nat) (s : pystr) : pystr :=
  match s with
  | [] => []
  | c :: r =>
      match skip with
      | S k => replace_scan old new k r
      | O => if startswith old s
             then new ++ replace_scan old new (pred (List.length old)) r
             else c :: replace_scan old new 0 r
      end
  end.

Definition py_replace (old new s : pystr) : pystr := replace_scan old new 0 s.

(** The simple lower-case mapping restricted to what the callers compare
    against: [lower_is c l] is [c.lower() == l] for an ASCII lower-case
    letter [l] other than [i] and [k] (no other code point lower-cases to
    such a letter, and only U+0130 lower-cases to more than one code point,
    the first being [i]). *)
Definition lower_is (c l : char) : bool := (c =? l) || (c =? l - 32).

(** [s.lower().startswith(p)] for [p] made of such letters. *)
Fixpoint lower_startswith (p s : pystr) : bool :=
  match p, s with
  | [], _ => true
  | l :: p', c :: s' => lower_is c l && lower_startswith p' s'
  | _ :: _, [] => false
  end.

End PyStr.

(* ================================================================== *)
(** * Regular-expression substitution *)
(* ================================================================== *)

Module Re.
Import PyStr.
Local Open Scope N_scope.

(** A compiled pattern with its replacement template: at a position, given
    the code point before it ([None] at the start of the text) and the text
    from it, the expansion of the template and the length of the match.
    The patterns used here never match the empty string. *)
Definition matcher := option char -> pystr -> option (pystr * nat).

(** [re.sub]: leftmost matches, left to right, without overlap; the search
    resumes where the previous match ended.  [skip] counts the code points
    of the current match that are still to be dropped. *)
Fixpoint sub_scan (m : matcher) (skip : nat) (prev : option char)
    (s : pystr) : pystr :=
  match s with
  | [] => []
  | c :: r =>
      match skip with
      | S k => sub_scan m k (Some c) r
      | O =>
          match m prev s with
          | Some (repl, n) => repl ++ sub_scan m (pred n) (Some c) r
          | None => c :: sub_scan m 0 (Some c) r
          end
      end
  end.

Definition re_sub (m : matcher) (s : pystr) : pystr := sub_scan m 0 None s.

(** [re.search(...) is not None], from the position after [prev]. *)
Fixpoint search_from (m : matcher) (prev : option char) (s : pystr) : bool :=
  match s with
  | [] => false
  | c :: r =>
      match m prev s with
      | Some _ => true
      | None => search_from m (Some c) r
      end
  end.

Definition re_search (m : matcher) (s : pystr) : bool := search_from m None s.

(** [^] under [re.MULTILINE]: at the start of the text or right after a
    newline. *)
Definition at_bol (prev : option char) : bool :=
  match prev with
  | None => true
  | Some c => c =? c_nl
  end.

(** [$] under [re.MULTILINE]: at the end of the text or right before a
    newline. *)
Definition at_eol (s : pystr) : bool :=
  match s with
  | [] => true
  | c :: _ => c =? c_nl
  end.

(** A literal letter under [re.IGNORECASE] in a [str] pattern: both cases,
    and for [s] also U+017F (LATIN SMALL LETTER LONG S). *)
Definition ci (l c : char) : bool :=
  (c =? l) || (c =? l - 32) || ((l =? 115) && (c =? 383)).

(** [(?:json)?] under [re.IGNORECASE]: the length it matches, greedily. *)
Definition opt_json_len (s : pystr) : nat :=
  match s with
  | j :: s0 :: o :: n :: _ =>
      if ci 106 j && ci 115 s0 && ci 111 o && ci 110 n then 4%nat else 0%nat
  | _ => 0%nat
  end.

(** [r"^```(?:json)?"] with [re.IGNORECASE | re.MULTILINE], replaced by
    the empty string. *)
Definition fence_open : matcher := fun prev s =>
  if at_bol prev then
    match s with
    | a :: b :: c :: r =>
        if (a =? c_backtick) && (b =? c_backtick) && (c =? c_backtick)
        then Some ([], (3 + opt_json_len r)%nat)
        else None
    | _ => None
    end
  else None.

(** [r"```$"] with [re.MULTILINE], replaced by the empty string. *)
Definition fence_close : matcher := fun _ s =>
  match s with
  | a :: b :: c :: r =>
      if (a =? c_backtick) && (b =? c_backtick) && (c =? c_backtick)
         && at_eol r
      then Some ([], 3%nat)
      else None
  | _ => None
  end.

Definition is_closer (c : char) : bool := (c =? 93) || (c =? 125).

(** [\s*] then [([\]}])]: the number of white-space code points and the
    captured closing bracket.  A closing bracket is not white space, so
    the greedy [\s*] never has to give anything back. *)
Fixpoint spaces_then_closer (s : pystr) : option (nat * char) :=
  match s with
  | [] => None
  | c :: r =>
      if py_isspace c then
        match spaces_then_closer r with
        | Some (n, k) => Some (S n, k)
        | None => None
        end
      else if is_closer c then Some (0%nat, c)
      else None
  end.

(** [r",\s*([\]}])"] replaced by [r"\1"]. *)
Definition trailing_comma : matcher := fun _ s =>
  match s with
  | c :: r =>
      if c =? c_comma then
        match spaces_then_closer r with
        | Some (n, k) => Some ([k], (n + 2)%nat)
        | None => None
        end
      else None
  | [] => None
  end.

End Re.

(* ================================================================== *)
(** * Python dictionaries with [str] keys *)
(* ================================================================== *)

Module PyDict.
Import PyStr.

(** A [dict] keeps its keys in insertion order; assigning to a key that is
    present replaces the value in place. *)
Definition dict (V : Type) := list (pystr * V).

(** [d[k] = v] *)
Fixpoint dict_set {V : Type} (k : pystr) (v : V) (d : dict V) : dict V :=
  match d with
  | [] => [(k, v)]
  | (k', v') :: r =>
      if str_eqb k' k then (k', v) :: r else (k', v') :: dict_set k v r
  end.

(** [d.get(k)] *)
Fixpoint dict_get {V : Type} (k : pystr) (d : dict V) : option V :=
  match d with
  | [] => None
  | (k', v') :: r => if str_eqb k' k then Some v' else dict_get k r
  end.

(** [dict(pairs)], also the effect of assigning the pairs one by one. *)
Definition dict_update {V : Type} (d : dict V) (pairs : list (pystr * V))
  : dict V :=
  fold_left (fun acc kv => dict_set (fst kv) (snd kv) acc) pairs d.

Definition dict_of_pairs {V : Type} (pairs : list (pystr * V)) : dict V :=
  dict_update [] pairs.

Definition keys {V : Type} (d : dict V) : list pystr := List.map fst d.

(** The value that the last of the assignments [pairs] naming [k] gives
    to it. *)
Fixpoint last_assigned {V : Type} (k : pystr) (pairs : list (pystr * V))
  : option V :=
  match pairs with
  | [] => None
  | (k', v) :: r =>
      match last_assigned k r with
      | Some v' => Some v'
      | None => if str_eqb k' k then Some v else None
      end
  end.

End PyDict.

(* ================================================================== *)
(** * [json.loads] *)
(* ================================================================== *)

Module Json.
Import PyStr PyDict.

(** The values [json.loads] builds.  A number with a fraction or an
    exponent becomes the [float] nearest to [m * 10^e], kept here as the
    pair [m], [e]: equal pairs are equal floats.  The interpreter's limits
    (recursion depth, digits of an [int]) are not part of the model. *)
Inductive json : Type :=
| JNull
| JBool (b : bool)
| JInt (z : Z)
| JFloat (m e : Z)
| JNaN
| JInf (negative : bool)
| JStr (s : pystr)
| JList (l : list json)
| JDict (d : list (pystr * json)).

Local Open Scope N_scope.

(** [WHITESPACE = re.compile(r'[ \t\n\r]*')] *)
Definition is_ws (c : char) : bool :=
  (c =? c_space) || (c =? c_tab) || (c =? c_nl) || (c =? c_cr).

Definition skip_ws (s : pystr) : pystr := lstrip_by is_ws s.

Definition is_digit (c : char) : bool := (48 <=? c) && (c <=? 57).

Definition hex_val (c : char) : option N :=
  if is_digit c then Some (c - 48)
  else if (97 <=? c) && (c <=? 102) then Some (c - 87)
  else if (65 <=? c) && (c <=? 70) then Some (c - 55)
  else None.

(** The four hexadecimal digits of a [\uXXXX] escape. *)
Definition hex4 (a b c d : char) : option N :=
  match hex_val a, hex_val b, hex_val c, hex_val d with
  | Some x, Some y, Some z, Some w => Some (((x * 16 + y) * 16 + z) * 16 + w)
  | _, _, _, _ => None
  end.

(** [BACKSLASH]: the one-letter escapes. *)
Definition backslash_escape (esc : char) : option char :=
  if esc =? c_dquote then Some c_dquote
  else if esc =? c_backslash then Some c_backslash
  else if esc =? 47 then Some 47
  else if esc =? 98 then Some 8
  else if esc =? 102 then Some 12
  else if esc =? 110 then Some 10
  else if esc =? 114 then Some 13
  else if esc =? 116 then Some 9
  else None.

Definition is_high_surrogate (u : N) : bool := (55296 <=? u) && (u <=? 56319).
Definition is_low_surrogate (u : N) : bool := (56320 <=? u) && (u <=? 57343).
Definition join_surrogates (u u2 : N) : N :=
  65536 + ((u - 55296) * 1024 + (u2 - 56320)).

(** A decoded character of a string literal, with the mark of a
    [\uXXXX] escape. *)
Definition unit_ := (char * bool)%type.

Definition cons_unit (u : unit_) (k : option (list unit_ * pystr))
  : option (list unit_ * pystr) :=
  match k with
  | Some (body, rest) => Some (u :: body, rest)
  | None => None
  end.

(** The loop of [scanstring(s, end, strict=True)], from the code point
    after the opening quote: the characters of the literal, one per plain
    code point or escape, and the text after the closing quote. *)
Fixpoint scan_units (s : pystr) : option (list unit_ * pystr) :=
  match s with
  | [] => None
  | c :: r =>
      if c =? c_dquote then Some ([], r)
      else if c =? c_backslash then
        match r with
        | [] => None
        | esc :: r1 =>
            if esc =? 117 then
              match r1 with
              | a :: b :: c' :: d :: r2 =>
                  match hex4 a b c' d with
                  | Some uni => cons_unit (uni, true) (scan_units r2)
                  | None => None
                  end
              | _ => None
              end
            else
              match backslash_escape esc with
              | Some ch => cons_unit (ch, false) (scan_units r1)
              | None => None
              end
        end
      else if c <=? 31 then None
      else cons_unit (c, false) (scan_units r)
  end.

(** The surrogate pairs: [scanstring] joins the high surrogate of a
    [\uXXXX] escape with the low surrogate of a [\uXXXX] escape that
    follows it at once.  The escape it looks at for that is decoded, or
    rejected, exactly as when the loop reaches it on its own, so that the
    pairs can be joined once the literal is scanned. *)
Fixpoint join_units (l : list unit_) : pystr :=
  match l with
  | [] => []
  | (c, esc) :: tl =>
      match tl with
      | (c2, true) :: tl2 =>
          if esc && is_high_surrogate c && is_low_surrogate c2
          then join_surrogates c c2 :: join_units tl2
          else c :: join_units tl
      | _ => c :: join_units tl
      end
  end.

(** [scanstring]: the decoded string and the text after the closing
    quote. *)
Definition scanstring (s : pystr) : option (pystr * pystr) :=
  match scan_units s with
  | Some (body, rest) => Some (join_units body, rest)
  | None => None
  end.

(** [\d*]: the digits at the front and the text after them. *)
Fixpoint span_digits (s : pystr) : pystr * pystr :=
  match s with
  | [] => ([], [])
  | c :: r =>
      if is_digit c
      then let (ds, r') := span_digits r in (c :: ds, r')
      else ([], s)
  end.

Definition digits_val (ds : pystr) : Z :=
  fold_left (fun acc c => (acc * 10 + Z.of_N (c - 48))%Z) ds 0%Z.

(** [(\.\d+)?] *)
Definition match_frac (s : pystr) : pystr * pystr :=
  match s with
  | c :: r =>
      if c =? 46 then
        match span_digits r with
        | ([], _) => ([], s)
        | (fs, r') => (fs, r')
        end
      else ([], s)
  | [] => ([], s)
  end.

(** [([eE][-+]?\d+)?]: the exponent, when there is one. *)
Definition match_exp (s : pystr) : option Z * pystr :=
  match s with
  | c :: r =>
      if (c =? 101) || (c =? 69) then
        let (neg, r1) :=
          match r with
          | sg :: r' =>
              if sg =? 45 then (true, r')
              else if sg =? 43 then (false, r')
              else (false, r)
          | [] => (false, r)
          end in
        match span_digits r1 with
        | ([], _) => (None, s)
        | (es, r2) =>
            (Some (if neg then - digits_val es else digits_val es)%Z, r2)
        end
      else (None, s)
  | [] => (None, s)
  end.

(** The optional minus sign. *)
Definition match_sign (s : pystr) : bool * pystr :=
  match s with
  | c :: r => if c =? 45 then (true, r) else (false, s)
  | [] => (false, s)
  end.

(** The integer part: [0], or a non-zero digit followed by digits. *)
Definition match_int (s : pystr) : option (pystr * pystr) :=
  match s with
  | c :: r =>
      if is_digit c then
        if c =? 48 then Some ([c], r) else Some (span_digits s)
      else None
  | [] => None
  end.

(** [int(integer)] when there is neither fraction nor exponent, and
    [float(integer + frac + exp)] otherwise. *)
Definition number_value (neg : bool) (ds fs : pystr) (ex : option Z) : json :=
  let signed (z : Z) : Z := if neg then (- z)%Z else z in
  match fs, ex with
  | [], None => JInt (signed (digits_val ds))
  | _, _ =>
      JFloat (signed (digits_val (ds ++ fs)))
             (match ex with Some e => e | None => 0 end
              - Z.of_nat (List.length fs))%Z
  end.

(** [NUMBER_RE]: an optional minus sign, then [0] or a non-zero digit
    followed by digits, then the optional fraction and exponent; and the
    conversion of what it matched. *)
Definition match_number (s : pystr) : option (json * pystr) :=
  let (neg, s1) := match_sign s in
  match match_int s1 with
  | None => None
  | Some (ds, r1) =>
      let (fs, r2) := match_frac r1 in
      let (ex, r3) := match_exp r2 in
      Some (number_value neg ds fs ex, r3)
  end.

(** [s[idx:idx + len(w)] == w], and the text after [w]. *)
Definition keyword (w : string) (s : pystr) : option pystr :=
  if startswith (txt w) s then Some (skipn (List.length (txt w)) s) else None.

Section Scanner.

(** [trailing_commas = false] is [json.loads].  With [true] a comma is also
    accepted between the last element or member and the closing bracket:
    the texts whose only malformation is such commas. *)
Variable trailing_commas : bool.

(** The loop of [JSONArray], entered where an element is expected. *)
Fixpoint array_items (scan : pystr -> option (json * pystr)) (fuel : nat)
    (values : list json) (s : pystr) : option (json * pystr) :=
  match fuel with
  | O => None
  | S fuel' =>
      match scan s with
      | None => None
      | Some (value, r) =>
          let values := values ++ [value] in
          match skip_ws r with
          | c :: r1 =>
              if c =? 93 then Some (JList values, r1)
              else if c =? c_comma then
                match skip_ws r1 with
                | c2 :: r2 =>
                    if trailing_commas && (c2 =? 93)
                    then Some (JList values, r2)
                    else array_items scan fuel' values (c2 :: r2)
                | [] => None
                end
              else None
          | [] => None
          end
      end
  end.

(** [JSONArray], from the code point after the opening bracket. *)
Definition JSONArray (scan : pystr -> option (json * pystr)) (fuel : nat)
    (s : pystr) : option (json * pystr) :=
  match skip_ws s with
  | c :: r => if c =? 93 then Some (JList [], r)
              else array_items scan fuel [] (c :: r)
  | [] => None
  end.

(** The loop of [JSONObject], entered after the opening quote of a key. *)
Fixpoint object_items (scan : pystr -> option (json * pystr)) (fuel : nat)
    (pairs : list (pystr * json)) (s : pystr) : option (json * pystr) :=
  match fuel with
  | O => None
  | S fuel' =>
      match scanstring s with
      | None => None
      | Some (key, r) =>
          match skip_ws r with
          | c :: r1 =>
              if c =? 58 then
                match scan (skip_ws r1) with
                | None => None
                | Some (value, r2) =>
                    let pairs := pairs ++ [(key, value)] in
                    match skip_ws r2 with
                    | c2 :: r3 =>
                        if c2 =? 125 then Some (JDict (dict_of_pairs pairs), r3)
                        else if c2 =? c_comma then
                          match skip_ws r3 with
                          | c3 :: r4 =>
                              if c3 =? c_dquote
                              then object_items scan fuel' pairs r4
                              else if trailing_commas && (c3 =? 125)
                              then Some (JDict (dict_of_pairs pairs), r4)
                              else None
                          | [] => None
                          end
                        else None
                    | [] => None
                    end
                end
              else None
          | [] => None
          end
      end
  end.

(** [JSONObject], from the code point after the opening brace. *)
Definition JSONObject (scan : pystr -> option (json * pystr)) (fuel : nat)
    (s : pystr) : option (json * pystr) :=
  match skip_ws s with
  | c :: r =>
      if c =? 125 then Some (JDict [], r)
      else if c =? c_dquote then object_items scan fuel [] r
      else None
  | [] => None
  end.

(** [scan_once]: the value starting at the front of [s] and the text
    after it.  [fuel] bounds the nesting depth and the length of each
    array and object; the length of the text plus one is always enough. *)
Fixpoint scan_once (fuel : nat) (s : pystr) : option (json * pystr) :=
  match fuel with
  | O => None
  | S fuel' =>
      match s with
      | [] => None
      | c :: r =>
          if c =? c_dquote then
            match scanstring r with
            | Some (body, r') => Some (JStr body, r')
            | None => None
            end
          else if c =? 123 then JSONObject (scan_once fuel') fuel' r
          else if c =? 91 then JSONArray (scan_once fuel') fuel' r
          else
            match keyword "null" s with
            | Some r' => Some (JNull, r')
            | None =>
            match keyword "true" s with
            | Some r' => Some (JBool true, r')
            | None =>
            match keyword "false" s with
            | Some r' => Some (JBool false, r')
            | None =>
            match match_number s with
            | Some res => Some res
            | None =>
            match keyword "NaN" s with
            | Some r' => Some (JNaN, r')
            | None =>
            match keyword "Infinity" s with
            | Some r' => Some (JInf false, r')
            | None =>
            match keyword "-Infinity" s with
            | Some r' => Some (JInf true, r')
            | None => None
            end end end end end end end
      end
  end.

(** [JSONDecoder.decode]: one value between optional white space, and
    nothing after it.  [None] stands for [json.JSONDecodeError]. *)
Definition decode (s : pystr) : option json :=
  match scan_once (S (List.length s)) (skip_ws s) with
  | Some (v, r) =>
      match skip_ws r with
      | [] => Some v
      | _ :: _ => None
      end
  | None => None
  end.

End Scanner.

(** [json.loads(s)] *)
Definition json_loads (s : pystr) : option json := decode false s.

(** Acceptance of a text that is valid JSON up to commas placed before a
    closing bracket or brace. *)
Definition loads_trailing_commas (s : pystr) : option json := decode true s.

(** [bool(v)] *)
Definition truthy (v : json) : bool :=
  match v with
  | JNull => false
  | JBool b => b
  | JInt z => negb (z =? 0)%Z
  | JFloat m e =>
      (* the nearest double is zero when |m| * 10^e <= 2^-1075 *)
      negb ((m =? 0)%Z
            || ((e <? 0)%Z && (Z.abs m * 2 ^ 1075 <=? 10 ^ (- e))%Z))
  | JNaN => true
  | JInf _ => true
  | JStr s => match s with [] => false | _ => true end
  | JList l => match l with [] => false | _ => true end
  | JDict d => match d with [] => false | _ => true end
  end.

End Json.

(* ================================================================== *)
(** * The response normalizer (recog4.py, recog5.py) *)
(* ================================================================== *)

Module Normalizer.
Import PyStr Re Json.

(** [clean_json_text] *)
Definition clean_json_text (raw : pystr) : pystr :=
  match raw with
  | [] => raw
  | _ :: _ =>
      let raw := py_strip raw in
      let raw := re_sub fence_open raw in
      let raw := re_sub fence_close (py_strip raw) in
      let raw :=
        if lower_startswith (txt "json") raw
        then lstrip_by (fun c => (c =? c_nl) || (c =? c_cr) || (c =? c_space))%N
               (skipn 4 raw)
        else raw in
      let raw := py_replace [c_backslash; c_dquote] [c_dquote] raw in
      let raw := re_sub trailing_comma raw in
      py_strip raw
  end.

(** A text wrapped in a fenced code block tagged [json]. *)
Definition fenced (content : pystr) : pystr :=
  txt "```json" ++ [c_nl] ++ content ++ [c_nl] ++ txt "```".

(** What [parse_gemini_json] raises. *)
Inductive parse_error : Type :=
| EmptyResponse                       (* ValueError("Empty Gemini response") *)
| JSONDecodeError (doc : pystr).      (* raised by the second [json.loads] *)

(** [parse_gemini_json] *)
Definition parse_gemini_json (raw_text : pystr) : json + parse_error :=
  let raw_text := py_strip raw_text in
  match raw_text with
  | [] => inr EmptyResponse
  | _ :: _ =>
      match json_loads raw_text with
      | Some v => inl v
      | None =>
          let cleaned := clean_json_text raw_text in
          match json_loads cleaned with
          | Some v => inl v
          | None => inr (JSONDecodeError cleaned)
          end
      end
  end.

End Normalizer.

(* ================================================================== *)
(** * The project packager (recog4.py, recog5.py) *)
(* ================================================================== *)

Module Packager.
Import PyStr PyDict.

Definition bytes := list Byte.byte.

(** A value of the file set: generated text ([str]) or the bytes of an
    upload. *)
Inductive content : Type :=
| Text (s : pystr)
| Bytes (b : bytes).

(** The members of a zip archive, in the order they were written.  Text
    is stored UTF-8 encoded, which the model keeps as the text itself. *)
Definition archive := list (pystr * content).

(** [ZipFile.writestr(name, data)] for a name and a text that zipfile
    stores as they are: one member is appended.  What zipfile does with
    the other names and texts is in [Zipfile] below. *)
Definition writestr (zf : archive) (name : pystr) (data : content) : archive :=
  zf ++ [(name, data)].

(** The files of the working directory that hold an archive. *)
Definition filesystem := pystr -> option archive.

Definition no_files : filesystem := fun _ => None.

(** [zipfile.ZipFile(path, "w")] followed by the writes and the close:
    whatever was at [path] is replaced. *)
Definition write_zip (fs : filesystem) (path : pystr) (zf : archive)
  : filesystem :=
  fun p => if str_eqb p path then Some zf else fs p.

Definition zip_path : pystr := txt "generated_project.zip".

(** [zip_project] on a mapping whose every write goes through: both
    branches of the [isinstance] test make the same call. *)
Definition zip_project (fs : filesystem) (files_dict : dict content)
  : filesystem * pystr :=
  let path := zip_path in
  let zf :=
    fold_left
      (fun zf entry =>
         match entry with
         | (name, Text s) => writestr zf name (Text s)
         | (name, Bytes b) => writestr zf name (Bytes b)
         end)
      files_dict [] in
  (write_zip fs path zf, path).

End Packager.

(* ================================================================== *)
(** * What [zipfile] stores (CPython 3.11, Lib/zipfile.py) *)
(* ================================================================== *)

Module Zipfile.
Import PyStr PyDict Packager.
Local Open Scope N_scope.

(** [os.sep] *)
Inductive platform : Type := Posix | Windows.

Definition os_sep (os : platform) : char :=
  match os with
  | Posix => 47
  | Windows => c_backslash
  end.

(** A code point that UTF-8 does not encode. *)
Definition surrogate (c : char) : bool := (55296 <=? c) && (c <=? 57343).

(** [s.encode("utf-8")] returns; it raises [UnicodeEncodeError] on a
    surrogate.  An ASCII name is encoded as ASCII, with the same bytes. *)
Definition encodes (s : pystr) : bool :=
  forallb (fun c => negb (surrogate c)) s.

(** [len(s.encode("utf-8"))] *)
Definition utf8_length (s : pystr) : N :=
  fold_right
    (fun c n =>
       (if c <? 128 then 1 else if c <? 2048 then 2
        else if c <? 65536 then 3 else 4) + n)
    0 s.

(** [ZipInfo.__init__]: the name ends before its first null byte, and
    every [os.sep] in it becomes a slash. *)
Fixpoint until_nul (name : pystr) : pystr :=
  match name with
  | [] => []
  | c :: r => if c =? 0 then [] else c :: until_nul r
  end.

Definition slashes (os : platform) (name : pystr) : pystr :=
  List.map (fun c => if c =? os_sep os then 47 else c) name.

Definition ZipInfo_filename (os : platform) (name : pystr) : pystr :=
  slashes os (until_nul name).

(** [ZipFile.writestr(name, data)]; [None] stands for its exceptions, after
    which the archive has no new member.  A [str] is encoded first
    ([UnicodeEncodeError]); [zinfo.filename[-1]] raises [IndexError] on an
    empty name; [FileHeader] encodes the name ([UnicodeEncodeError]) and
    packs the length of the result as an unsigned short ([struct.error]
    from 65536 on).  A name that is already in the archive is written
    again, with a warning.  The time of the write is taken to be one that
    zip can store (1980 or later). *)
Definition writestr (os : platform) (zf : archive) (name : pystr)
    (data : content) : option archive :=
  if match data with Text s => encodes s | Bytes _ => true end then
    match ZipInfo_filename os name with
    | [] => None
    | filename =>
        if encodes filename && (utf8_length filename <=? 65535)
        then Some (zf ++ [(filename, data)])
        else None
    end
  else None.

(** The loop of [zip_project]: the archive when the loop ends, and whether
    it ended without an exception. *)
Fixpoint write_items (os : platform) (zf : archive)
    (items : list (pystr * content)) : archive * bool :=
  match items with
  | [] => (zf, true)
  | (name, content) :: rest =>
      match
        match content with
        | Text s => writestr os zf name (Text s)
        | Bytes b => writestr os zf name (Bytes b)
        end
      with
      | Some zf' => write_items os zf' rest
      | None => (zf, false)
      end
  end.

(** [zip_project] over any mapping: the [with] block closes the archive
    also when a write raises, so that [path] then holds the members
    written before; the result is [None] when the exception leaves the
    function. *)
Definition zip_project (os : platform) (fs : filesystem)
    (files_dict : dict content) : filesystem * option pystr :=
  let path := zip_path in
  let (zf, returned) := write_items os [] files_dict in
  (write_zip fs path zf, if returned then Some path else None).

(** The names and the entries that zipfile stores as they are. *)
Definition stored_as_given (os : platform) (name : pystr) : bool :=
  match name with
  | [] => false
  | _ :: _ =>
      forallb (fun c => negb (c =? 0) && negb (surrogate c)
                        && (negb (c =? os_sep os) || (c =? 47))) name
      && (utf8_length name <=? 65535)
  end.

Definition storable (os : platform) (entry : pystr * content) : bool :=
  stored_as_given os (fst entry)
  && match snd entry with
     | Text s => encodes s
     | Bytes _ => true
     end.

End Zipfile.

(* ================================================================== *)
(** * One run of the wizard script (recog4.py, recog5.py) *)
(* ================================================================== *)

Module Wizard.
Import PyStr PyDict Json Normalizer Packager.

(** recog5.py is recog4.py with a line-range input, without the inner
    handlers of a failed parse and without the check for empty code.  The
    script is modelled once, with the edition as a parameter where the two
    differ. *)
Inductive edition : Type := Recog4 | Recog5.

Inductive phase : Type := collect | planning | designing | finalize | generate.

(** An entry of [st.session_state.uploaded_files]. *)
Record stored_file : Type := {
  sf_name : pystr;
  sf_type : pystr;
  sf_bytes : bytes
}.

(** An [UploadedFile] handed over by [st.file_uploader]. *)
Record UploadedFile : Type := {
  name : pystr;
  type : pystr;
  read : bytes
}.

(** [st.session_state] once [init_state] has run.  [planning_answers] and
    [design_answers] only feed the prompt texts; they are left out, as
    are the prompt texts.  A response that is [None] is [JNull]. *)
Record session : Type := {
  the_phase : phase;
  user_text : pystr;
  line_range : pystr;
  uploaded_files : list stored_file;
  planning_response : json;
  design_response : json;
  generated_code : option pystr;
  project_files : dict content
}.

(** The [defaults] of [init_state]: the state of a new session, and the
    state after every key was deleted and [init_state] called again. *)
Definition defaults : session := {|
  the_phase := collect;
  user_text := [];
  line_range := [];
  uploaded_files := [];
  planning_response := JNull;
  design_response := JNull;
  generated_code := None;
  project_files := []
|}.

Record world : Type := {
  sess : session;
  disk : filesystem
}.

Inductive button : Type :=
| StartPlanning | ResetProject
| ConfirmPlanning | RetryPlanning
| ConfirmDesign | RetryDesign
| GenerateProject | StartNewProject.

Definition button_eqb (a b : button) : bool :=
  match a, b with
  | StartPlanning, StartPlanning | ResetProject, ResetProject
  | ConfirmPlanning, ConfirmPlanning | RetryPlanning, RetryPlanning
  | ConfirmDesign, ConfirmDesign | RetryDesign, RetryDesign
  | GenerateProject, GenerateProject | StartNewProject, StartNewProject => true
  | _, _ => false
  end.

(** What [client.models.generate_content] does when it is called: it
    raises, or returns a response whose [text] is a string or [None]. *)
Inductive gateway_reply : Type :=
| ReplyRaises
| ReplyText (text : option pystr).

(** The user's side of one run: the widget values, the button whose click
    started the run (a button reports the click in that run only), and
    the reply the gateway gives if it is asked. *)
Record input : Type := {
  in_api_key : pystr;
  in_user_text : pystr;
  in_line_range : pystr;
  in_uploaded : list UploadedFile;
  in_clicked : option button;
  in_reply : gateway_reply
}.

(** The exceptions the outer [except Exception] handlers catch. *)
Inductive caught : Type :=
| GatewayException
| TextIsNone                        (* AttributeError on [None.strip()] *)
| ParseException (e : parse_error).

Inductive message : Type :=
| MissingApiKey
| FilesUploaded (files : list (pystr * pystr))
| CurrentPhase (p : phase)
| EmptyGatewayResponse
| InvalidJsonAfterRepair
| GatewayError (p : phase) (e : caught)
| CodeGenerated.

(** What a run shows and does, in order. *)
Inductive event : Type :=
| StWarning (m : message)
| StInfo (m : message)
| StMarkdown (m : message)
| StSuccess (m : message)
| StError (m : message)
| StCode (text : pystr)
| StButton (b : button)
| StDownload (file_name : pystr)
| GenerateContent (prompt_of : phase).

(** How a run ends: at the end of the script, in [st.rerun()], in
    [st.stop()], or in an exception nobody catches. *)
Inductive control : Type := Finished | Rerun | Stopped | Raised.

Record outcome : Type := {
  after : world;
  shown : list event;
  ctl : control
}.

Definition clicked (i : input) (b : button) : bool :=
  match in_clicked i with
  | Some b' => button_eqb b' b
  | None => false
  end.

Definition set_phase (s : session) (p : phase) : session :=
  {| the_phase := p; user_text := user_text s; line_range := line_range s;
     uploaded_files := uploaded_files s;
     planning_response := planning_response s;
     design_response := design_response s;
     generated_code := generated_code s; project_files := project_files s |}.

Definition set_inputs (ed : edition) (s : session) (i : input) : session :=
  {| the_phase := the_phase s; user_text := in_user_text i;
     line_range := match ed with
                   | Recog5 => in_line_range i
                   | Recog4 => line_range s
                   end;
     uploaded_files := uploaded_files s;
     planning_response := planning_response s;
     design_response := design_response s;
     generated_code := generated_code s; project_files := project_files s |}.

Definition set_uploaded_files (s : session) (l : list stored_file) : session :=
  {| the_phase := the_phase s; user_text := user_text s;
     line_range := line_range s; uploaded_files := l;
     planning_response := planning_response s;
     design_response := design_response s;
     generated_code := generated_code s; project_files := project_files s |}.

Definition set_planning_response (s : session) (v : json) : session :=
  {| the_phase := the_phase s; user_text := user_text s;
     line_range := line_range s; uploaded_files := uploaded_files s;
     planning_response := v; design_response := design_response s;
     generated_code := generated_code s; project_files := project_files s |}.

Definition set_design_response (s : session) (v : json) : session :=
  {| the_phase := the_phase s; user_text := user_text s;
     line_range := line_range s; uploaded_files := uploaded_files s;
     planning_response := planning_response s; design_response := v;
     generated_code := generated_code s; project_files := project_files s |}.

Definition set_generated (s : session) (code : pystr) (files : dict content)
  : session :=
  {| the_phase := the_phase s; user_text := user_text s;
     line_range := line_range s; uploaded_files := uploaded_files s;
     planning_response := planning_response s;
     design_response := design_response s;
     generated_code := Some code; project_files := files |}.

(** The list comprehension over the uploader's files. *)
Definition describe (f : UploadedFile) : stored_file :=
  {| sf_name := name f; sf_type := type f; sf_bytes := read f |}.

(** [if uploaded: st.session_state.uploaded_files = [...]] *)
Definition store_uploads (s : session) (uploaded : list UploadedFile)
  : session :=
  match uploaded with
  | [] => s
  | _ :: _ => set_uploaded_files s (List.map describe uploaded)
  end.

(** The left column: the inputs, the list of stored files, and the start
    or reset button.  The boolean tells whether the column ended in
    [st.rerun()]. *)
Definition left_column (ed : edition) (s : session) (i : input)
  : session * list event * bool :=
  let s := set_inputs ed s i in
  let s := store_uploads s (in_uploaded i) in
  let listing :=
    match uploaded_files s with
    | [] => []
    | fs => [StMarkdown (FilesUploaded
               (List.map (fun f => (sf_name f, sf_type f)) fs))]
    end in
  match the_phase s with
  | collect =>
      if clicked i StartPlanning
      then (set_phase s planning, listing ++ [StButton StartPlanning], true)
      else (s, listing ++ [StButton StartPlanning], false)
  | _ =>
      if clicked i ResetProject
      then (defaults, listing ++ [StButton ResetProject], true)
      else (s, listing ++ [StButton ResetProject], false)
  end.

(** [data.get(...)] needs a [dict]. *)
Definition has_get (v : json) : bool :=
  match v with
  | JDict _ => true
  | _ => false
  end.

Definition has_key (k : string) (d : list (pystr * json)) : bool :=
  match dict_get (txt k) d with
  | Some _ => true
  | None => false
  end.

(** The loop over [data.get("questions", [])] reads [q['id']],
    [q['question']] and [q.get("options", [])] of every question; it
    raises on a question that is not a [dict] with these two keys and on a
    value that cannot be iterated.  Iterating a [str] or a [dict] yields
    strings, on which [q['id']] raises.  Checks made inside Streamlit's
    widgets are outside the model. *)
Definition questions_render (data : list (pystr * json)) : bool :=
  match dict_get (txt "questions") data with
  | None => true
  | Some (JList qs) =>
      forallb (fun q => match q with
                        | JDict d => has_key "id" d && has_key "question" d
                        | _ => false
                        end) qs
  | Some (JStr []) => true
  | Some (JDict []) => true
  | Some _ => false
  end.

(** The summary and the questions of a cached response are rendered
    without an exception. *)
Definition renders (data : json) : bool :=
  match data with
  | JDict d => questions_render d
  | _ => false
  end.

Definition readme (ed : edition) : pystr :=
  txt "# Auto-generated Streamlit Project" ++ [c_nl] ++
  match ed with
  | Recog4 => txt "Created via Gemini Project Maker."
  | Recog5 => txt "Created via Gemini Project Maker (Advanced Edition)."
  end.

(** The file set built after the code was generated: the two fixed
    entries, then one assignment per stored upload. *)
Definition assemble_files (ed : edition) (code : pystr)
    (uploaded : list stored_file) : dict content :=
  let files := [ (txt "generated_app.py", Text code);
                 (txt "README.md", Text (readme ed)) ] in
  fold_left (fun files f => dict_set (sf_name f) (Bytes (sf_bytes f)) files)
    uploaded files.

(** The assignments that build the file set, in the order they are made. *)
Definition insertions (ed : edition) (code : pystr)
    (uploaded : list stored_file) : list (pystr * content) :=
  [ (txt "generated_app.py", Text code); (txt "README.md", Text (readme ed)) ]
  ++ List.map (fun f => (sf_name f, Bytes (sf_bytes f))) uploaded.

(** The position of a phase in the wizard, and the button that leaves
    it for the next one. *)
Definition rank (p : phase) : nat :=
  match p with
  | collect => 0
  | planning => 1
  | designing => 2
  | finalize => 3
  | generate => 4
  end.

Definition advance_button (p : phase) : option button :=
  match p with
  | collect => Some StartPlanning
  | planning => Some ConfirmPlanning
  | designing => Some ConfirmDesign
  | finalize => Some GenerateProject
  | generate => None
  end.

(** The two fixed entries head the file set. *)
Definition has_fixed_entries (files : dict content) : Prop :=
  exists rest,
    keys files = txt "generated_app.py" :: txt "README.md" :: rest.

(** The retry button of recog4.py for a phase that asks for JSON. *)
Definition retry_button (p : phase) : button :=
  match p with
  | designing => RetryDesign
  | _ => RetryPlanning
  end.

(** The session is in phase [p], planning or designing, and the phase has
    no cached response yet, so that a run asks the gateway. *)
Definition awaits_response (p : phase) (s : session) : Prop :=
  the_phase s = p /\
  match p with
  | planning => truthy (planning_response s) = false
  | designing => truthy (design_response s) = false
                 /\ has_get (planning_response s) = true
  | _ => False
  end.

Definition out (s : session) (fs : filesystem) (ev : list event) (c : control)
  : outcome :=
  {| after := {| sess := s; disk := fs |}; shown := ev; ctl := c |}.

(** What the [try] block of a phase obtains from the gateway: the
    stripped text, or the exception raised on the way. *)
Definition stripped_reply (i : input) : pystr + caught :=
  match in_reply i with
  | ReplyRaises => inr GatewayException
  | ReplyText None => inr TextIsNone
  | ReplyText (Some t) => inl (py_strip t)
  end.

(** The request of the planning or designing phase and the handling of
    its reply.  [store] caches the parsed response, [clear] is the
    assignment behind the retry button. *)
Definition request_json (ed : edition) (p : phase) (retry : button)
    (store : session -> json -> session) (s : session) (fs : filesystem)
    (i : input) : outcome :=
  let asked := [GenerateContent p] in
  match stripped_reply i with
  | inr e => out s fs (asked ++ [StError (GatewayError p e)]) Stopped
  | inl raw_text =>
      match ed with
      | Recog5 =>
          match parse_gemini_json raw_text with
          | inl parsed => out (store s parsed) fs asked Rerun
          | inr e =>
              out s fs (asked ++ [StError (GatewayError p (ParseException e))])
                Stopped
          end
      | Recog4 =>
          match raw_text with
          | [] => out s fs (asked ++ [StError EmptyGatewayResponse]) Stopped
          | _ :: _ =>
              match parse_gemini_json raw_text with
              | inl parsed => out (store s parsed) fs asked Rerun
              | inr _ =>
                  let ev := asked ++ [StError InvalidJsonAfterRepair;
                                      StCode raw_text; StButton retry] in
                  if clicked i retry
                  then out (store s JNull) fs ev Rerun
                  else out s fs ev Stopped
              end
          end
      end
  end.

(** The branch of a cached planning or design response: its rendering and
    the confirm button. *)
Definition confirm_response (data : json) (confirm : button) (next : phase)
    (s : session) (fs : filesystem) (i : input) : outcome :=
  if renders data then
    if clicked i confirm
    then out (set_phase s next) fs [StButton confirm] Rerun
    else out s fs [StButton confirm] Finished
  else out s fs [] Raised.

Definition planning_phase (ed : edition) (s : session) (fs : filesystem)
    (i : input) : outcome :=
  if negb (truthy (planning_response s))
  then request_json ed planning RetryPlanning set_planning_response s fs i
  else confirm_response (planning_response s) ConfirmPlanning designing s fs i.

(** The design prompt reads [planning_response.get('plan_text', '')]
    before the [try]. *)
Definition designing_phase (ed : edition) (s : session) (fs : filesystem)
    (i : input) : outcome :=
  if negb (truthy (design_response s)) then
    if has_get (planning_response s)
    then request_json ed designing RetryDesign set_design_response s fs i
    else out s fs [] Raised
  else confirm_response (design_response s) ConfirmDesign finalize s fs i.

Definition finalize_phase (s : session) (fs : filesystem) (i : input)
  : outcome :=
  if has_get (planning_response s) && has_get (design_response s) then
    if clicked i GenerateProject
    then out (set_phase s generate) fs [StButton GenerateProject] Rerun
    else out s fs [StButton GenerateProject] Finished
  else out s fs [] Raised.

Definition code_missing (s : session) : bool :=
  match generated_code s with
  | None => true
  | Some [] => true
  | Some (_ :: _) => false
  end.

(** The generate phase.  The file set is taken to be one that zipfile
    stores as it is ([Zipfile.storable]), so that [zip_project] returns. *)
Definition generate_phase (ed : edition) (s : session) (fs : filesystem)
    (i : input) : outcome :=
  if code_missing s then
    let asked := [GenerateContent generate] in
    match stripped_reply i with
    | inr e => out s fs (asked ++ [StError (GatewayError generate e)]) Stopped
    | inl code =>
        match ed, code with
        | Recog4, [] =>
            out s fs (asked ++ [StError EmptyGatewayResponse]) Stopped
        | _, _ =>
            let files := assemble_files ed code (uploaded_files s) in
            out (set_generated s code files) fs asked Rerun
        end
    end
  else
    let code := match generated_code s with Some c => c | None => [] end in
    let (fs, zip_path) := zip_project fs (project_files s) in
    let ev := [StSuccess CodeGenerated; StDownload (txt "generated_app.py");
               StCode code; StDownload zip_path; StButton StartNewProject] in
    if clicked i StartNewProject
    then out defaults fs ev Rerun
    else out s fs ev Finished.

(** The right column. *)
Definition right_column (ed : edition) (s : session) (fs : filesystem)
    (i : input) : outcome :=
  let o :=
    match the_phase s with
    | collect => out s fs [] Finished
    | planning => planning_phase ed s fs i
    | designing => designing_phase ed s fs i
    | finalize => finalize_phase s fs i
    | generate => generate_phase ed s fs i
    end in
  {| after := after o; shown := StInfo (CurrentPhase (the_phase s)) :: shown o;
     ctl := ctl o |}.

(** One run of the script, from [init_state()] to the footer. *)
Definition run (ed : edition) (w : world) (i : input) : outcome :=
  match in_api_key i with
  | [] => out (sess w) (disk w) [StWarning MissingApiKey] Stopped
  | _ :: _ =>
      match left_column ed (sess w) i with
      | (s, ev, true) => out s (disk w) ev Rerun
      | (s, ev, false) =>
          let o := right_column ed s (disk w) i in
          {| after := after o; shown := ev ++ shown o; ctl := ctl o |}
      end
  end.

End Wizard.

(* ================================================================== *)
(** * The single-action recognizers (recog.py, recog3.py) *)
(* ================================================================== *)

Module Recognizer.
Import PyStr Packager.

(** An element of the [contents] of a gateway request: the prompt text,
    or [types.Part.from_bytes(data=..., mime_type=...)]. *)
Inductive part : Type :=
| TextPart (text : pystr)
| BytesPart (data : bytes) (mime_type : pystr).

(** [requests.get(url).content], or the exception on the way. *)
Inductive fetched : Type :=
| FetchRaises
| Content (data : bytes).

(** [client.models.generate_content(...)]: an exception, or a response
    with its [text]. *)
Inductive reply : Type :=
| Raises
| Response (text : option pystr).

Inductive message : Type :=
| MissingApiKey
| MissingImage              (* "Please upload or provide an image URL first." *)
| TextOnlyMode              (* "Text-only question mode ..." *)
| ProcessingPdf
| UrlFailed
| GatewayFailed.

Inductive event : Type :=
| StWarning (m : message)
| StInfo (m : message)
| StError (m : message)
| StImage (caption : pystr)
| StPage (number : nat)           (* the image captioned "PDF Page <number>" *)
| StWrite (text : option pystr)
| GenerateContent (contents : list part).

Inductive control : Type := Finished | Stopped | Raised.

(** The gateway requests among the events of a run. *)
Fixpoint requests (ev : list event) : list (list part) :=
  match ev with
  | [] => []
  | GenerateContent c :: r => c :: requests r
  | _ :: r => requests r
  end.

Definition jpeg : pystr := txt "image/jpeg".

(** The request and what is shown of its answer. *)
Definition ask (contents : list part) (answer : reply) (shown_first : list event)
  : list event :=
  GenerateContent contents ::
  match answer with
  | Raises => [StError GatewayFailed]
  | Response t => shown_first ++ [StWrite t]
  end.

(** ** recog.py *)

Record input : Type := {
  api_key : pystr;
  uploaded_img : option bytes;      (* [uploaded_img.read()] when a file is there *)
  url_input : pystr;
  url_fetch : fetched;
  prompt : pystr;
  button : bool;                    (* "Generate Answer" was clicked *)
  answer : reply
}.

(** [genai.Client(api_key=api_key)] (line 17), where [genai] is the module
    [google.generativeai] (line 2): that module has no attribute [Client],
    and the lookup raises [AttributeError] ([None]) whatever the key. *)
Definition genai_Client (api_key : pystr) : option unit := None.

(** The script.  The exception of line 17 is caught nowhere: a run with an
    API key ends there, before the uploader, the URL field and the button
    are drawn. *)
Definition run (i : input) : list event * control :=
  match api_key i with
  | [] => ([StWarning MissingApiKey], Stopped)
  | _ :: _ =>
      match genai_Client (api_key i) with
      | None => ([], Raised)
      | Some _ =>
          let (image_bytes, ev) :=
            match uploaded_img i with
            | Some b => (Some b, [])
            | None =>
                match url_input i with
                | [] => (None, [])
                | _ :: _ =>
                    match url_fetch i with
                    | Content b => (Some b, [])
                    | FetchRaises => (None, [StError UrlFailed])
                    end
                end
            end in
          if button i then
            match image_bytes with
            | None | Some [] => (ev ++ [StWarning MissingImage], Finished)
            | Some data =>
                (ev ++ ask [TextPart (prompt i); BytesPart data jpeg]
                         (answer i) [StImage (txt "Uploaded Image")],
                 Finished)
            end
          else (ev, Finished)
      end
  end.

(** ** recog3.py *)

(** A file held by the uploader: its declared type and what [read()]
    returns. *)
Record upload : Type := {
  up_type : pystr;
  up_read : bytes
}.

Record input3 : Type := {
  api_key3 : pystr;
  uploaded_file : option upload;
  url_input3 : pystr;
  url_fetch3 : fetched;
  prompt3 : pystr;
  button3 : bool;                   (* "Analyze with Gemini" was clicked *)
  answer3 : reply
}.

(** What the attachments of a click come to: the events shown, the
    contents of the request and [file_attached]; or an exception that
    nothing catches, after the events shown before it. *)
Inductive attachments : Type :=
| Attached (shown : list event) (content_parts : list part)
    (file_attached : bool)
| Uncaught (shown : list event).

Section Recog3.

(** The page images of pdf2image and their JPEG encoding by Pillow. *)
Variable image : Type.
(** [convert_from_bytes(pdf_bytes)]: the pages in order, or an exception. *)
Variable convert_from_bytes : bytes -> option (list image).
(** [image_to_bytes(pil_image)] *)
Variable image_to_bytes : image -> bytes.
(** [st.image] on the bytes of a file: whether they are an image that it
    can decode and show; it raises on the others. *)
Variable displays : bytes -> bool.

(** [pdf_to_images] *)
Definition pdf_to_images (pdf_bytes : bytes) : option (list image) :=
  convert_from_bytes pdf_bytes.

(** The loop over [enumerate(pages)]: one caption and one part per page. *)
Fixpoint page_parts (i : nat) (pages : list image) : list event * list part :=
  match pages with
  | [] => ([], [])
  | page :: rest =>
      let (ev, parts) := page_parts (S i) rest in
      (StPage (i + 1) :: ev,
       BytesPart (image_to_bytes page) jpeg :: parts)
  end.

Definition is_image_type (t : pystr) : bool :=
  str_eqb t (txt "image/jpeg") || str_eqb t (txt "image/png").

(** Lines 68 to 99.  The [st.image] of an uploaded image (line 75) is in
    no [try]; that of the URL branch (line 95) is, and its exception is
    reported like a failed download. *)
Definition attach (i : input3) : attachments :=
  let content_parts := [TextPart (prompt3 i)] in
  match uploaded_file i with
  | Some f =>
      if is_image_type (up_type f) then
        if displays (up_read f) then
          Attached [StImage (txt "Uploaded Image")]
            (content_parts ++ [BytesPart (up_read f) (up_type f)]) true
        else Uncaught []
      else if str_eqb (up_type f) (txt "application/pdf") then
        match pdf_to_images (up_read f) with
        | None => Uncaught [StInfo ProcessingPdf]
        | Some pages =>
            let (ev, parts) := page_parts 0 pages in
            Attached (StInfo ProcessingPdf :: ev) (content_parts ++ parts) true
        end
      else Attached [] content_parts true
  | None =>
      match url_input3 i with
      | [] => Attached [] content_parts false
      | _ :: _ =>
          match url_fetch3 i with
          | Content b =>
              if displays b then
                Attached [StImage (txt "Image from URL")]
                  (content_parts ++ [BytesPart b jpeg]) true
              else Attached [StError UrlFailed] content_parts true
          | FetchRaises => Attached [StError UrlFailed] content_parts true
          end
      end
  end.

Definition run3 (i : input3) : list event * control :=
  match api_key3 i with
  | [] => ([StWarning MissingApiKey], Stopped)
  | _ :: _ =>
      if button3 i then
        match attach i with
        | Uncaught ev => (ev, Raised)
        | Attached ev content_parts file_attached =>
            (ev ++ (if file_attached then [] else [StInfo TextOnlyMode])
                ++ ask content_parts (answer3 i) [], Finished)
        end
      else ([], Finished)
  end.

End Recog3.

End Recognizer.


(* ================================================================== *)
(** * The shape of the texts the scanner accepts *)
(* ================================================================== *)

Module Shape.
Import PyStr Json.
Local Open Scope N_scope.

(** No backtick starts the text or follows a newline, and none ends the
    text or precedes a newline; [prev] is the code point before the
    text.  Such a text has no line that starts or ends with a fence. *)
Fixpoint ticks_inside (prev : char) (s : pystr) : bool :=
  match s with
  | [] => negb (prev =? c_backtick)
  | c :: r =>
      negb ((prev =? c_nl) && (c =? c_backtick))
      && negb ((prev =? c_backtick) && (c =? c_nl))
      && ticks_inside c r
  end.

Definition fence_free (s : pystr) : Prop := ticks_inside c_nl s = true.

(** The text ends with a code point that is not white space. *)
Definition ends_solid (x : pystr) : Prop :=
  exists x' d, x = x' ++ [d] /\ py_isspace d = false.

(** The text of one value, as the scanner consumes it. *)
Definition chunk (x : pystr) : Prop := fence_free x /\ ends_solid x.

(** The next code point, if there is one, satisfies [q]. *)
Definition next_ok (q : char -> bool) (r : pystr) : bool :=
  match r with
  | [] => true
  | c :: _ => q c
  end.

(** What may follow a number without being read as part of it. *)
Definition delim (r : pystr) : bool :=
  next_ok (fun c => negb (is_digit c) && negb (c =? 46) && negb (c =? 101)
                    && negb (c =? 69)) r.

(** The code points of a number. *)
Definition numchar (c : char) : bool :=
  is_digit c || (c =? 45) || (c =? 43) || (c =? 46) || (c =? 101) || (c =? 69).

(** The code points that neither end a literal nor start an escape. *)
Definition verbatim (c : char) : bool :=
  negb (c =? c_dquote) && negb (c =? c_backslash).

(** The code points a value can start with. *)
Definition value_first (c : char) : bool :=
  (c =? c_dquote) || (c =? 123) || (c =? 91) || (c =? 110) || (c =? 116)
  || (c =? 102) || (c =? 45) || is_digit c || (c =? 78) || (c =? 73).

(** A value that [scan] accepts is read in the same way by [scans k],
    whatever delimiter follows its text, as soon as [k] exceeds the length
    of that text. *)
Definition local_scan (scan : pystr -> option (json * pystr))
    (scans : nat -> pystr -> option (json * pystr)) : Prop :=
  forall s v r,
    scan s = Some (v, r) ->
    exists x,
      s = x ++ r /\ chunk x
      /\ forall k r', delim r' = true -> (List.length x < k)%nat ->
                      scans k (x ++ r') = Some (v, r').

End Shape.

(* ================================================================== *)
(** * Texts the normalizer is given, and what it may do to them *)
(* ================================================================== *)

Module Edits.
Import PyStr Re.
Local Open Scope N_scope.

(** [subseq x s]: [x] is [s] with some of its code points deleted. *)
Inductive subseq : pystr -> pystr -> Prop :=
| subseq_nil : subseq [] []
| subseq_keep (c : char) (x s : pystr) : subseq x s -> subseq (c :: x) (c :: s)
| subseq_drop (c : char) (x s : pystr) : subseq x s -> subseq x (c :: s).

(** A text between an opening fence with the tag [tag] and a closing
    fence, each on a line of its own. *)
Definition fenced_as (tag content : pystr) : pystr :=
  txt "```" ++ tag ++ [c_nl] ++ content ++ [c_nl] ++ txt "```".

(** The tags that [(?:json)?] matches under [re.IGNORECASE]: the four
    letters in either case, U+017F counting as an [s]. *)
Definition json_tag (tag : pystr) : bool :=
  match tag with
  | [j; s; o; n] => ci 106 j && ci 115 s && ci 111 o && ci 110 n
  | _ => false
  end.

End Edits.

(* ================================================================== *)
(** * Runs of the wizard, one after the other *)
(* ================================================================== *)

Module WizardRuns.
Import PyStr PyDict Json Normalizer Packager Wizard.

(** The gateway requests among the events of a run, each with the phase
    whose prompt was sent. *)
Fixpoint gateway_requests (ev : list event) : list phase :=
  match ev with
  | [] => []
  | GenerateContent p :: r => p :: gateway_requests r
  | _ :: r => gateway_requests r
  end.

(** The test that sends phase [p] to the gateway: [not planning_response],
    [not design_response], [not generated_code]. *)
Definition needs_request (p : phase) (s : session) : bool :=
  match p with
  | planning => negb (truthy (planning_response s))
  | designing => negb (truthy (design_response s))
  | generate => code_missing s
  | _ => false
  end.

(** The cached response of a phase that asks for JSON. *)
Definition response_of (p : phase) (s : session) : json :=
  match p with
  | designing => design_response s
  | _ => planning_response s
  end.



End WizardRuns.

(* ================================================================== *)
(** * Files given to the recognizers *)
(* ================================================================== *)

Module Attachments.
Import Packager.

Fixpoint bytes_eqb (a b : bytes) : bool :=
  match a, b with
  | [], [] => true
  | x :: a', y :: b' => Byte.eqb x y && bytes_eqb a' b'
  | _, _ => false
  end.

(** A PNG file: the signature, the header of a grey image of one pixel,
    its data and the end chunk. *)
Definition png_1x1 : bytes :=
  [
    Byte.x89; Byte.x50; Byte.x4e; Byte.x47; Byte.x0d; Byte.x0a; Byte.x1a; Byte.x0a;
    Byte.x00; Byte.x00; Byte.x00; Byte.x0d; Byte.x49; Byte.x48; Byte.x44; Byte.x52;
    Byte.x00; Byte.x00; Byte.x00; Byte.x01; Byte.x00; Byte.x00; Byte.x00; Byte.x01;
    Byte.x08; Byte.x00; Byte.x00; Byte.x00; Byte.x00; Byte.x3a; Byte.x7e; Byte.x9b;
    Byte.x55; Byte.x00; Byte.x00; Byte.x00; Byte.x0a; Byte.x49; Byte.x44; Byte.x41;
    Byte.x54; Byte.x78; Byte.xda; Byte.x63; Byte.xf8; Byte.x0f; Byte.x00; Byte.x01;
    Byte.x01; Byte.x01; Byte.x00; Byte.x1c; Byte.xb0; Byte.x8c; Byte.x99; Byte.x00;
    Byte.x00; Byte.x00; Byte.x00; Byte.x49; Byte.x45; Byte.x4e; Byte.x44; Byte.xae;
    Byte.x42; Byte.x60; Byte.x82
  ].

End Attachments.

(* ================================================================== *)
(** * The session state and [init_state] (recog4.py, recog5.py) *)
(* ================================================================== *)

Module SessionState.
Import PyStr PyDict Json Packager Wizard.

(** The values kept in [st.session_state]: those of the keys of
    [init_state], and those of the widgets that were given a key. *)
Inductive value : Type :=
| VNone
| VStr (s : pystr)
| VFiles (l : list stored_file)
| VJson (v : json)
| VAnswers (d : dict json)
| VProject (d : dict content).

Definition state := dict value.

(** [st.session_state.setdefault(k, v)]: a key that is present keeps its
    value, a new key gets [v].  The state is written as the list of its
    items; [st.session_state] has no order of its own, and the order of
    this list stands for nothing: the state is what [dict_get] reads. *)
Definition setdefault (k : pystr) (v : value) (d : state) : state :=
  match dict_get k d with
  | Some _ => d
  | None => dict_set k v d
  end.

(** The [defaults] of [init_state], as the dict literal lists them;
    recog4.py has no [line_range]. *)
Definition defaults_of (ed : edition) : list (pystr * value) :=
  [ (txt "phase", VStr (txt "collect")); (txt "user_text", VStr []) ]
  ++ match ed with
     | Recog5 => [ (txt "line_range", VStr []) ]
     | Recog4 => []
     end
  ++ [ (txt "uploaded_files", VFiles []);
       (txt "planning_response", VNone);
       (txt "planning_answers", VAnswers []);
       (txt "design_response", VNone);
       (txt "design_answers", VAnswers []);
       (txt "generated_code", VNone);
       (txt "project_files", VProject []) ].

(** [init_state] *)
Definition init_state (ed : edition) (st : state) : state :=
  fold_left (fun st kv => setdefault (fst kv) (snd kv) st) (defaults_of ed) st.

(** [del d[k]]; [None] stands for [KeyError]. *)
Fixpoint dict_del (k : pystr) (d : state) : option state :=
  match d with
  | [] => None
  | (k', v) :: r =>
      if str_eqb k' k then Some r
      else match dict_del k r with
           | Some r' => Some ((k', v) :: r')
           | None => None
           end
  end.

(** [for k in ks: del st.session_state[k]] *)
Fixpoint del_keys (ks : list pystr) (st : state) : option state :=
  match ks with
  | [] => Some st
  | k :: ks' =>
      match dict_del k st with
      | Some st' => del_keys ks' st'
      | None => None
      end
  end.

(** The reset of both reset buttons: every key of the state is deleted,
    then [init_state] runs. *)
Definition reset_state (ed : edition) (st : state) : option state :=
  match del_keys (keys st) st with
  | Some st' => Some (init_state ed st')
  | None => None
  end.

Definition phase_of (s : pystr) : option phase :=
  if str_eqb s (txt "collect") then Some collect
  else if str_eqb s (txt "planning") then Some planning
  else if str_eqb s (txt "designing") then Some designing
  else if str_eqb s (txt "finalize") then Some finalize
  else if str_eqb s (txt "generate") then Some generate
  else None.

(** The session record that the script reads off a state: what each
    attribute access of the run gives.  [None] when a key is missing or
    holds a value of another kind. *)
Definition session_of (ed : edition) (st : state) : option session :=
  match dict_get (txt "phase") st, dict_get (txt "user_text") st,
        dict_get (txt "uploaded_files") st,
        dict_get (txt "planning_response") st,
        dict_get (txt "design_response") st,
        dict_get (txt "generated_code") st,
        dict_get (txt "project_files") st with
  | Some (VStr ph), Some (VStr ut), Some (VFiles fl), Some pr, Some dr,
    Some gc, Some (VProject pf) =>
      match phase_of ph,
            match pr with VNone => Some JNull | VJson v => Some v | _ => None end,
            match dr with VNone => Some JNull | VJson v => Some v | _ => None end,
            match gc with VNone => Some None | VStr c => Some (Some c)
                     | _ => None end,
            match ed with
            | Recog4 => Some []
            | Recog5 => match dict_get (txt "line_range") st with
                        | Some (VStr lr) => Some lr
                        | _ => None
                        end
            end with
      | Some p, Some pr', Some dr', Some gc', Some lr =>
          Some {| the_phase := p; user_text := ut; line_range := lr;
                  uploaded_files := fl; planning_response := pr';
                  design_response := dr'; generated_code := gc';
                  project_files := pf |}
      | _, _, _, _, _ => None
      end
  | _, _, _, _, _, _, _ => None
  end.

End SessionState.

(* ================================================================== *)
(** * Parsed values *)
(* ================================================================== *)

Module Parsed.
Import PyStr PyDict Json.

(** No object of the value, at any depth, holds a key twice. *)
Fixpoint keys_distinct (v : json) : Prop :=
  match v with
  | JList l =>
      (fix each (l : list json) : Prop :=
         match l with
         | [] => True
         | x :: r => keys_distinct x /\ each r
         end) l
  | JDict d =>
      NoDup (keys d)
      /\ (fix each (d : list (pystr * json)) : Prop :=
            match d with
            | [] => True
            | (_, x) :: r => keys_distinct x /\ each r
            end) d
  | _ => True
  end.

End Parsed.
(* ================================================================== *)
(** * Properties *)
(* ================================================================== *)

(** ** Strings *)

Module PyStrFacts.
Import PyStr.
Local Open Scope N_scope.

Lemma str_eqb_eq (a b : pystr) : str_eqb a b = true <-> a = b.
Proof.
  unfold str_eqb. destruct (list_eq_dec N.eq_dec a b); split; congruence.
Qed.

Lemma str_eqb_refl (a : pystr) : str_eqb a a = true.
Proof. apply str_eqb_eq. reflexivity. Qed.

Lemma str_eqb_neq (a b : pystr) : str_eqb a b = false <-> a <> b.
Proof.
  unfold str_eqb. destruct (list_eq_dec N.eq_dec a b); split; congruence.
Qed.

Lemma lstrip_by_all (p : char -> bool) (s : pystr) :
  forallb p s = true -> lstrip_by p s = [].
Proof.
  induction s as [|c r IH]; simpl; [reflexivity|].
  intros H. apply andb_true_iff in H as [Hc Hr]. rewrite Hc. auto.
Qed.

Lemma lstrip_by_id (p : char -> bool) (c : char) (r : pystr) :
  p c = false -> lstrip_by p (c :: r) = c :: r.
Proof. intros H. simpl. rewrite H. reflexivity. Qed.

Lemma rstrip_by_id (p : char -> bool) (s : pystr) (c : char) :
  p c = false -> rstrip_by p (s ++ [c]) = s ++ [c].
Proof.
  intros H. unfold rstrip_by. rewrite rev_app_distr. simpl. rewrite H.
  simpl. rewrite rev_involutive. reflexivity.
Qed.

(** White space around a text whose first and last code points are not
    white space is exactly what [strip] removes. *)
Lemma lstrip_by_app (p : char -> bool) (a s : pystr) :
  forallb p a = true -> lstrip_by p (a ++ s) = lstrip_by p s.
Proof.
  induction a as [|c r IH]; simpl; [reflexivity|].
  intros H. apply andb_true_iff in H as [Hc Hr]. rewrite Hc. auto.
Qed.

Lemma rstrip_by_app (p : char -> bool) (s b : pystr) :
  forallb p b = true -> rstrip_by p (s ++ b) = rstrip_by p s.
Proof.
  intros H. unfold rstrip_by. rewrite rev_app_distr.
  rewrite lstrip_by_app; [reflexivity|].
  rewrite forallb_forall in *. intros x Hx. apply H.
  apply in_rev. exact Hx.
Qed.

Lemma py_strip_all_space (s : pystr) :
  forallb py_isspace s = true -> py_strip s = [].
Proof.
  intros H. unfold py_strip, strip_by. rewrite lstrip_by_all by exact H.
  reflexivity.
Qed.

(** A text that starts and ends with code points that are not white
    space is left alone by [strip]. *)
Lemma py_strip_id (c d : char) (s : pystr) :
  py_isspace c = false -> py_isspace d = false ->
  py_strip (c :: s ++ [d]) = c :: s ++ [d].
Proof.
  intros Hc Hd. unfold py_strip, strip_by.
  rewrite lstrip_by_id by exact Hc.
  change (c :: s ++ [d]) with ((c :: s) ++ [d]).
  apply rstrip_by_id. exact Hd.
Qed.

End PyStrFacts.

(** ** Fences, replacement and the removal of trailing commas *)

Module TextFacts.
Import PyStr Re Shape PyStrFacts.
Local Open Scope N_scope.

Lemma ticks_inside_app (p : char) (x y : pystr) :
  ticks_inside p x = true -> fence_free y -> ticks_inside p (x ++ y) = true.
Proof.
  unfold fence_free. revert p. induction x as [|c r IH]; intros p Hx Hy; simpl in *.
  - apply negb_true_iff in Hx. destruct y as [|d y']; simpl in *.
    + rewrite Hx. reflexivity.
    + rewrite Hx.
      destruct (d =? c_backtick); [discriminate Hy|].
      destruct (p =? c_nl), (d =? c_nl); simpl in *; exact Hy.
  - apply andb_true_iff in Hx as [Hx1 Hx2]. rewrite Hx1. simpl. auto.
Qed.

Lemma fence_free_app (x y : pystr) :
  fence_free x -> fence_free y -> fence_free (x ++ y).
Proof. apply ticks_inside_app. Qed.

(** A text without backticks. *)
Lemma ticks_inside_none (p : char) (x : pystr) :
  p <> c_backtick ->
  forallb (fun c => negb (c =? c_backtick)) x = true ->
  ticks_inside p x = true.
Proof.
  revert p. induction x as [|c r IH]; intros p Hp Hx; simpl in *.
  - apply negb_true_iff. apply N.eqb_neq. exact Hp.
  - apply andb_true_iff in Hx as [Hc Hr].
    apply negb_true_iff in Hc. rewrite Hc.
    apply N.eqb_neq in Hp. rewrite Hp.
    destruct (p =? c_nl), (c =? c_nl); simpl;
      (apply IH; [apply N.eqb_neq; exact Hc | exact Hr]).
Qed.

(** A text without newlines that does not end with a backtick. *)
Lemma ticks_inside_line (p d : char) (x : pystr) :
  p <> c_nl -> d <> c_nl -> d <> c_backtick ->
  forallb (fun c => negb (c =? c_nl)) x = true ->
  ticks_inside p (x ++ [d]) = true.
Proof.
  revert p. induction x as [|c r IH]; intros p Hp Hd Hd' Hx; simpl in *.
  - apply N.eqb_neq in Hp, Hd, Hd'. rewrite Hp, Hd, Hd'.
    destruct (p =? c_backtick); reflexivity.
  - apply andb_true_iff in Hx as [Hc Hr].
    apply negb_true_iff in Hc. rewrite Hc.
    apply N.eqb_neq in Hp. rewrite Hp.
    destruct (p =? c_backtick), (c =? c_backtick); simpl;
      apply IH; auto; apply N.eqb_neq; exact Hc.
Qed.

(** *** The fence patterns find nothing in a fence-free text *)

Lemma sub_scan_fence_open (p : char) (s : pystr) :
  ticks_inside p s = true -> sub_scan fence_open 0 (Some p) s = s.
Proof.
  revert p. induction s as [|c r IH]; intros p H; [reflexivity|].
  simpl in H. apply andb_true_iff in H as [H1 H3].
  apply andb_true_iff in H1 as [H1 _].
  cbn [sub_scan].
  assert (E : fence_open (Some p) (c :: r) = None).
  { unfold fence_open, at_bol. destruct (p =? c_nl); [|reflexivity].
    simpl in H1. apply negb_true_iff in H1. rewrite H1.
    destruct r as [|b [|c' r']]; reflexivity. }
  rewrite E. f_equal. apply IH. exact H3.
Qed.

Lemma re_sub_fence_open (s : pystr) : fence_free s -> re_sub fence_open s = s.
Proof.
  intros H. unfold re_sub. destruct s as [|c r]; [reflexivity|].
  change (sub_scan fence_open 0 None (c :: r))
    with (sub_scan fence_open 0 (Some c_nl) (c :: r)).
  apply sub_scan_fence_open. exact H.
Qed.

Lemma sub_scan_fence_close (p : char) (prev : option char) (s : pystr) :
  ticks_inside p s = true -> sub_scan fence_close 0 prev s = s.
Proof.
  revert p prev. induction s as [|c r IH]; intros p prev H; [reflexivity|].
  cbn [sub_scan].
  assert (E : fence_close prev (c :: r) = None).
  { unfold fence_close. destruct r as [|b [|c' r']]; try reflexivity.
    destruct (c =? c_backtick) eqn:E1; [|reflexivity].
    destruct (b =? c_backtick) eqn:E2; [|reflexivity].
    destruct (c' =? c_backtick) eqn:E3; [|reflexivity].
    apply N.eqb_eq in E3. subst c'.
    simpl in H. repeat (apply andb_true_iff in H as [? H]).
    destruct r' as [|d r'']; simpl in H; [discriminate H|].
    simpl. destruct (d =? c_nl); [discriminate H | reflexivity]. }
  rewrite E. f_equal. simpl in H. apply andb_true_iff in H as [_ H].
  apply (IH c). exact H.
Qed.

Lemma re_sub_fence_close (s : pystr) : fence_free s -> re_sub fence_close s = s.
Proof. apply sub_scan_fence_close. Qed.

(** *** [replace] without an occurrence *)

Lemma replace_absent (old new s : pystr) :
  occurs old s = false -> py_replace old new s = s.
Proof.
  unfold py_replace. induction s as [|c r IH]; intros H; [reflexivity|].
  simpl in H. apply orb_false_iff in H as [H1 H2].
  cbn [replace_scan]. rewrite H1. f_equal. auto.
Qed.

Lemma startswith_app (p s b : pystr) :
  startswith p s = true -> startswith p (s ++ b) = true.
Proof.
  revert s. induction p as [|a p IH]; intros s H; [reflexivity|].
  destruct s as [|c s]; [discriminate|]. simpl in *.
  apply andb_true_iff in H as [H1 H2]. rewrite H1. simpl. auto.
Qed.

Lemma occurs_suffix (p a s : pystr) :
  occurs p (a ++ s) = false -> occurs p s = false.
Proof.
  induction a as [|c a IH]; intros H; [exact H|].
  simpl in H. apply orb_false_iff in H as [_ H]. auto.
Qed.

Lemma occurs_prefix (p s b : pystr) :
  p <> [] -> occurs p (s ++ b) = false -> occurs p s = false.
Proof.
  intros Hp. induction s as [|c s IH]; intros H.
  - destruct p; [contradiction Hp|]; reflexivity.
  - simpl in *. apply orb_false_iff in H as [H1 H2].
    rewrite (IH H2), orb_false_r.
    destruct (startswith p (c :: s)) eqn:E; [|reflexivity].
    apply (startswith_app _ _ b) in E. simpl in E. congruence.
Qed.

(** *** The removal of trailing commas *)

(** [rc s] is [re.sub(r",\s*([\]}])", r"\1", s)]. *)
Abbreviation rc := (re_sub trailing_comma).

Lemma sub_scan_comma_prev (k : nat) (p q : option char) (s : pystr) :
  sub_scan trailing_comma k p s = sub_scan trailing_comma k q s.
Proof.
  revert k p q. induction s as [|c r IH]; intros k p q; [reflexivity|].
  destruct k; cbn [sub_scan]; [|apply IH].
  change (trailing_comma p (c :: r)) with (trailing_comma q (c :: r)).
  destruct (trailing_comma q (c :: r)) as [[repl n]|];
    f_equal; try f_equal; apply IH.
Qed.

Lemma sub_scan_comma_skip (k : nat) (p : option char) (s : pystr) :
  sub_scan trailing_comma k p s = rc (skipn k s).
Proof.
  revert p s. induction k as [|k IH]; intros p s.
  - apply sub_scan_comma_prev.
  - destruct s as [|c r]; [reflexivity|]. cbn [sub_scan skipn]. apply IH.
Qed.

Lemma rc_plain (c : char) (s : pystr) :
  c <> c_comma -> rc (c :: s) = c :: rc s.
Proof.
  intros H. unfold re_sub. cbn [sub_scan]. unfold trailing_comma.
  apply N.eqb_neq in H. rewrite H. f_equal. apply sub_scan_comma_prev.
Qed.

Lemma rc_comma_keep (s : pystr) :
  spaces_then_closer s = None -> rc (c_comma :: s) = c_comma :: rc s.
Proof.
  intros H. unfold re_sub. cbn [sub_scan]. unfold trailing_comma.
  change (c_comma =? c_comma) with true. cbn iota. rewrite H.
  f_equal. apply sub_scan_comma_prev.
Qed.

Lemma closer_not_space (k : char) : is_closer k = true -> py_isspace k = false.
Proof.
  unfold is_closer. intros H. apply orb_true_iff in H as [H | H];
    apply N.eqb_eq in H; subst; reflexivity.
Qed.

Lemma spaces_then_closer_build (w : pystr) (k : char) (r : pystr) :
  forallb py_isspace w = true -> is_closer k = true ->
  spaces_then_closer (w ++ k :: r) = Some (List.length w, k).
Proof.
  intros Hw Hk. induction w as [|c w IH]; simpl in *.
  - rewrite (closer_not_space k Hk), Hk. reflexivity.
  - apply andb_true_iff in Hw as [Hc Hw]. rewrite Hc, (IH Hw). reflexivity.
Qed.

(** A comma, white space and a closing bracket: the comma and the white
    space go. *)
Lemma rc_trailing (w : pystr) (k : char) (r : pystr) :
  forallb py_isspace w = true -> is_closer k = true ->
  rc (c_comma :: w ++ k :: r) = k :: rc r.
Proof.
  intros Hw Hk. unfold re_sub at 1. cbn [sub_scan]. unfold trailing_comma.
  change (c_comma =? c_comma) with true. cbn iota.
  rewrite (spaces_then_closer_build w k r Hw Hk). cbn [app]. f_equal.
  rewrite sub_scan_comma_skip.
  replace (pred (List.length w + 2)) with (S (List.length w)) by lia.
  clear Hw. induction w as [|c w IH]; [reflexivity|]. exact IH.
Qed.

(** A comma that is not followed by white space and a closing bracket
    stays. *)
Lemma spaces_then_closer_other (w : pystr) (c : char) (r : pystr) :
  forallb py_isspace w = true -> py_isspace c = false -> is_closer c = false ->
  spaces_then_closer (w ++ c :: r) = None.
Proof.
  intros Hw Hc Hk. induction w as [|a w IH]; simpl in *.
  - rewrite Hc, Hk. reflexivity.
  - apply andb_true_iff in Hw as [Ha Hw]. rewrite Ha, (IH Hw). reflexivity.
Qed.

Lemma spaces_then_closer_spaces (w : pystr) :
  forallb py_isspace w = true -> spaces_then_closer w = None.
Proof.
  intros Hw. induction w as [|a w IH]; simpl in *; [reflexivity|].
  apply andb_true_iff in Hw as [Ha Hw]. rewrite Ha, (IH Hw). reflexivity.
Qed.

Lemma rc_app_plain (x r : pystr) :
  forallb (fun c => negb (c =? c_comma)) x = true -> rc (x ++ r) = x ++ rc r.
Proof.
  induction x as [|c x IH]; intros H; [reflexivity|].
  simpl in H. apply andb_true_iff in H as [Hc Hx].
  apply negb_true_iff, N.eqb_neq in Hc.
  cbn [app]. rewrite rc_plain by exact Hc. f_equal. auto.
Qed.

End TextFacts.

(** ** What the scanner reads *)

Module JsonFacts.
Import PyStr Re PyDict Json Shape PyStrFacts TextFacts.
Local Open Scope N_scope.

(** *** White space *)

Lemma is_ws_space (c : char) : is_ws c = true -> py_isspace c = true.
Proof.
  unfold is_ws. intros H.
  repeat (apply orb_true_iff in H as [H | H]);
    apply N.eqb_eq in H; subst; reflexivity.
Qed.

Lemma ws_spaces (w : pystr) :
  forallb is_ws w = true -> forallb py_isspace w = true.
Proof.
  intros H. apply forallb_forall. intros c Hc. apply is_ws_space.
  rewrite forallb_forall in H. auto.
Qed.

Lemma skip_ws_split (s : pystr) :
  exists w, s = w ++ skip_ws s /\ forallb is_ws w = true.
Proof.
  induction s as [|c r [w [E Hw]]].
  - exists []. split; reflexivity.
  - unfold skip_ws. simpl. destruct (is_ws c) eqn:Ec.
    + exists (c :: w). simpl. rewrite Ec, Hw. split; [|reflexivity].
      f_equal. exact E.
    + exists []. split; reflexivity.
Qed.

Lemma skip_ws_head (s : pystr) (c : char) (r : pystr) :
  skip_ws s = c :: r -> is_ws c = false.
Proof.
  unfold skip_ws. induction s as [|a s IH]; simpl; [discriminate|].
  destruct (is_ws a) eqn:Ea; [exact IH|]. intros H. congruence.
Qed.

Lemma skip_ws_app (w s : pystr) :
  forallb is_ws w = true -> skip_ws (w ++ s) = skip_ws s.
Proof. apply lstrip_by_app. Qed.

Lemma skip_ws_id (c : char) (r : pystr) :
  is_ws c = false -> skip_ws (c :: r) = c :: r.
Proof. apply lstrip_by_id. Qed.

Lemma skip_ws_nil (s : pystr) : skip_ws s = [] -> forallb is_ws s = true.
Proof.
  intros H. destruct (skip_ws_split s) as [w [E Hw]].
  rewrite H, app_nil_r in E. subst. exact Hw.
Qed.

(** White space then a code point that is not white space. *)
Lemma skip_ws_to (w : pystr) (c : char) (r : pystr) :
  forallb is_ws w = true -> is_ws c = false -> skip_ws (w ++ c :: r) = c :: r.
Proof. intros Hw Hc. rewrite skip_ws_app by exact Hw. apply skip_ws_id, Hc. Qed.

(** White space then a text that starts with something else. *)
Lemma skip_ws_before (w x t : pystr) :
  forallb is_ws w = true ->
  (exists c x', x = c :: x' /\ is_ws c = false) ->
  skip_ws (w ++ x ++ t) = x ++ t.
Proof.
  intros Hw (c & x' & -> & Hc). cbn [app]. apply skip_ws_to; auto.
Qed.

Lemma ws_fence_free (w : pystr) : forallb is_ws w = true -> fence_free w.
Proof.
  intros H. apply ticks_inside_none; [discriminate|].
  apply forallb_forall. intros c Hc. rewrite forallb_forall in H.
  specialize (H c Hc). unfold is_ws in H.
  repeat (apply orb_true_iff in H as [H | H]);
    apply N.eqb_eq in H; subst; reflexivity.
Qed.

Lemma ws_delim (w r : pystr) (c : char) :
  forallb is_ws w = true -> is_ws c = true \/ c = 93 \/ c = 125 \/ c = c_comma ->
  delim (w ++ c :: r) = true.
Proof.
  intros Hw Hc. destruct w as [|a w]; simpl.
  - destruct Hc as [Hc | [-> | [-> | ->]]]; try reflexivity.
    unfold is_ws in Hc.
    repeat (apply orb_true_iff in Hc as [Hc | Hc]);
      apply N.eqb_eq in Hc; subst; reflexivity.
  - simpl in Hw. apply andb_true_iff in Hw as [Ha _]. unfold is_ws in Ha.
    repeat (apply orb_true_iff in Ha as [Ha | Ha]);
      apply N.eqb_eq in Ha; subst; reflexivity.
Qed.

(** *** String literals *)

Lemma hex_val_printable (a : char) (x : N) :
  hex_val a = Some x -> (a <=? 31) = false /\ a <> c_comma /\ a <> c_dquote.
Proof.
  unfold hex_val, is_digit. intros H.
  destruct ((48 <=? a) && (a <=? 57)) eqn:E1.
  { apply andb_true_iff in E1 as [E1 E2].
    apply N.leb_le in E1, E2. unfold c_comma, c_dquote.
    split; [apply N.leb_gt|]; lia. }
  destruct ((97 <=? a) && (a <=? 102)) eqn:E2.
  { apply andb_true_iff in E2 as [E2 E3].
    apply N.leb_le in E2, E3. unfold c_comma, c_dquote.
    split; [apply N.leb_gt|]; lia. }
  destruct ((65 <=? a) && (a <=? 70)) eqn:E3; [|discriminate].
  apply andb_true_iff in E3 as [E3 E4].
  apply N.leb_le in E3, E4. unfold c_comma, c_dquote.
  split; [apply N.leb_gt|]; lia.
Qed.

Lemma hex4_printable (a b c d : char) (u : N) :
  hex4 a b c d = Some u ->
  forallb (fun c => negb (c <=? 31)) [a; b; c; d] = true
  /\ forallb (fun c => negb (c =? c_comma)) [a; b; c; d] = true.
Proof.
  unfold hex4. intros H.
  destruct (hex_val a) eqn:Ea; [|discriminate].
  destruct (hex_val b) eqn:Eb; [|discriminate].
  destruct (hex_val c) eqn:Ec; [|discriminate].
  destruct (hex_val d) eqn:Ed; [|discriminate].
  apply hex_val_printable in Ea as (A1 & A2 & _), Eb as (B1 & B2 & _),
    Ec as (C1 & C2 & _), Ed as (D1 & D2 & _).
  apply N.eqb_neq in A2, B2, C2, D2.
  simpl. rewrite A1, B1, C1, D1, A2, B2, C2, D2. split; reflexivity.
Qed.

Lemma backslash_escape_plain (esc ch : char) :
  backslash_escape esc = Some ch ->
  (esc <=? 31) = false /\ esc <> c_comma.
Proof.
  unfold backslash_escape. intros H.
  repeat match type of H with
         | (if ?t then _ else _) = _ =>
             let E := fresh "E" in
             destruct t eqn:E;
             [apply N.eqb_eq in E; subst; split; [reflexivity | discriminate]|]
         end.
  discriminate.
Qed.

(** The scanner of a literal reads up to the closing quote, never a
    control character, and does not look beyond the quote. *)
Lemma scan_units_local (n : nat) :
  forall s u r,
    (List.length s <= n)%nat ->
    scan_units s = Some (u, r) ->
    exists lit,
      s = lit ++ c_dquote :: r
      /\ forallb (fun c => negb (c <=? 31)) lit = true
      /\ forall r', scan_units (lit ++ c_dquote :: r') = Some (u, r').
Proof.
  induction n as [|n IH]; intros s u r Hlen H;
    (destruct s as [|c s0]; [discriminate H|]); simpl in Hlen; [lia|].
  cbn [scan_units] in H.
  destruct (c =? c_dquote) eqn:Eq.
  { apply N.eqb_eq in Eq. subst c. inversion H; subst.
    exists []. repeat split; reflexivity. }
  destruct (c =? c_backslash) eqn:Eb.
  - apply N.eqb_eq in Eb. subst c.
    destruct s0 as [|esc r1]; [discriminate H|].
    destruct (esc =? 117) eqn:Eu.
    + apply N.eqb_eq in Eu. subst esc.
      destruct r1 as [|a [|b [|c' [|d r2]]]]; try discriminate H.
      destruct (hex4 a b c' d) as [uni|] eqn:Eh; [|discriminate H].
      destruct (scan_units r2) as [[u2 r2']|] eqn:E2; [|discriminate H].
      inversion H; subst; clear H.
      destruct (IH r2 u2 r) as (lit & E & Hlit & Hre);
        [simpl in Hlen; lia | exact E2 |].
      destruct (hex4_printable _ _ _ _ Eh) as [Hp _]. simpl in Hp.
      exists (c_backslash :: 117 :: a :: b :: c' :: d :: lit).
      split; [rewrite E; reflexivity|]. split.
      * cbn [forallb]. cbn [forallb] in Hp.
        rewrite Hlit. change (negb (c_backslash <=? 31)) with true.
        change (negb (117 <=? 31)) with true. cbn [andb].
        repeat (apply andb_true_iff in Hp as [? Hp]).
        repeat (apply andb_true_iff; split); auto.
      * intros r'. cbn [scan_units app]. change (c_backslash =? c_dquote) with false.
        change (c_backslash =? c_backslash) with true.
        change (117 =? 117) with true. cbn iota. rewrite Eh, Hre. reflexivity.
    + destruct (backslash_escape esc) as [ch|] eqn:Ee; [|discriminate H].
      destruct (scan_units r1) as [[u1 r1']|] eqn:E1; [|discriminate H].
      inversion H; subst; clear H.
      destruct (IH r1 u1 r) as (lit & E & Hlit & Hre);
        [simpl in Hlen; lia | exact E1 |].
      destruct (backslash_escape_plain _ Ee) as [Hp _].
      exists (c_backslash :: esc :: lit).
      split; [rewrite E; reflexivity|]. split.
      * cbn [forallb]. rewrite Hlit, Hp. reflexivity.
      * intros r'. cbn [scan_units app]. change (c_backslash =? c_dquote) with false.
        change (c_backslash =? c_backslash) with true. cbn iota.
        rewrite Eu, Ee, Hre. reflexivity.
  - destruct (c <=? 31) eqn:Ec; [discriminate H|].
    destruct (scan_units s0) as [[u0 r0]|] eqn:E0; [|discriminate H].
    inversion H; subst; clear H.
    destruct (IH s0 u0 r) as (lit & E & Hlit & Hre); [lia | exact E0 |].
    exists (c :: lit). split; [rewrite E; reflexivity|]. split.
    + cbn [forallb]. rewrite Ec, Hlit. reflexivity.
    + intros r'. cbn [scan_units app]. rewrite Eq, Eb, Ec, Hre. reflexivity.
Qed.

Lemma scanstring_local (s body r : pystr) :
  scanstring s = Some (body, r) ->
  exists lit,
    s = lit ++ c_dquote :: r
    /\ forallb (fun c => negb (c <=? 31)) lit = true
    /\ forall r', scanstring (lit ++ c_dquote :: r') = Some (body, r').
Proof.
  unfold scanstring. intros H.
  destruct (scan_units s) as [[u r0]|] eqn:E; [|discriminate].
  inversion H; subst; clear H.
  destruct (scan_units_local (n := List.length s) s (le_n _) E)
    as (lit & E' & Hlit & Hre).
  exists lit. split; [exact E'|]. split; [exact Hlit|].
  intros r'. rewrite Hre. reflexivity.
Qed.

(** A literal with its closing quote, after the opening one. *)
Lemma literal_ticks (lit : pystr) :
  forallb (fun c => negb (c <=? 31)) lit = true ->
  ticks_inside c_dquote (lit ++ [c_dquote]) = true.
Proof.
  intros H. apply ticks_inside_line; try discriminate.
  apply forallb_forall. intros c Hc. rewrite forallb_forall in H.
  specialize (H c Hc). apply negb_true_iff in H. apply negb_true_iff.
  apply N.eqb_neq. intros ->. discriminate H.
Qed.

(** *** Numbers *)

Lemma next_ok_weaken (q q' : char -> bool) (t : pystr) :
  (forall c, q c = true -> q' c = true) ->
  next_ok q t = true -> next_ok q' t = true.
Proof. destruct t; simpl; auto. Qed.

Lemma delim_no_digit (t : pystr) :
  delim t = true -> next_ok (fun c => negb (is_digit c)) t = true.
Proof.
  apply next_ok_weaken. intros c H.
  repeat (apply andb_true_iff in H as [H _]). exact H.
Qed.

Lemma span_digits_split (s ds r : pystr) :
  span_digits s = (ds, r) ->
  s = ds ++ r /\ forallb is_digit ds = true.
Proof.
  revert ds r. induction s as [|c s IH]; intros ds r H; simpl in H.
  - inversion H. split; reflexivity.
  - destruct (is_digit c) eqn:Ec.
    + destruct (span_digits s) as [ds0 r0]. inversion H; subst.
      destruct (IH ds0 r eq_refl) as [E Hd]. simpl. rewrite Ec, Hd.
      split; [f_equal; exact E | reflexivity].
    + inversion H. split; reflexivity.
Qed.

Lemma span_digits_build (ds t : pystr) :
  forallb is_digit ds = true ->
  next_ok (fun c => negb (is_digit c)) t = true ->
  span_digits (ds ++ t) = (ds, t).
Proof.
  intros Hd Ht. induction ds as [|c ds IH]; simpl in *.
  - destruct t as [|c t]; [reflexivity|]. simpl in Ht.
    apply negb_true_iff in Ht. simpl. rewrite Ht. reflexivity.
  - apply andb_true_iff in Hd as [Hc Hd]. rewrite Hc, (IH Hd). reflexivity.
Qed.

Lemma digit_numchar (c : char) : is_digit c = true -> numchar c = true.
Proof. unfold numchar. intros ->. reflexivity. Qed.

Lemma digits_numchars (ds : pystr) :
  forallb is_digit ds = true -> forallb numchar ds = true.
Proof.
  intros H. apply forallb_forall. intros c Hc. apply digit_numchar.
  rewrite forallb_forall in H. auto.
Qed.

Lemma digit_not_sign (c : char) :
  is_digit c = true -> (c =? 45) = false /\ (c =? 43) = false.
Proof.
  unfold is_digit. intros H. apply andb_true_iff in H as [H1 H2].
  apply N.leb_le in H1, H2. split; apply N.eqb_neq; lia.
Qed.

(** Each part of a number: the text it reads, and the texts after which
    it reads the same. *)
Lemma match_int_local (s ds r : pystr) :
  match_int s = Some (ds, r) ->
  s = ds ++ r /\ forallb is_digit ds = true
  /\ (exists d ds', ds = d :: ds')
  /\ forall t, next_ok (fun c => negb (is_digit c)) t = true ->
               match_int (ds ++ t) = Some (ds, t).
Proof.
  unfold match_int. destruct s as [|c s0]; [discriminate|].
  destruct (is_digit c) eqn:Ec; [|discriminate].
  destruct (c =? 48) eqn:E0; intros H.
  - inversion H; subst; clear H.
    split; [reflexivity|]. split; [simpl; rewrite Ec; reflexivity|].
    split; [eauto|]. intros t _. simpl. rewrite Ec, E0. reflexivity.
  - destruct (span_digits (c :: s0)) as [ds0 r0] eqn:Es.
    inversion H; subst ds0 r0; clear H.
    destruct (span_digits_split _ Es) as [E Hd].
    split; [exact E|]. split; [exact Hd|].
    assert (Hne : exists ds', ds = c :: ds').
    { simpl in Es. rewrite Ec in Es. destruct (span_digits s0) as [a b].
      inversion Es; subst. eauto. }
    destruct Hne as [ds' ->]. split; [eauto|].
    intros t Ht. cbn [app]. rewrite Ec, E0.
    change (c :: ds' ++ t) with ((c :: ds') ++ t).
    rewrite span_digits_build; auto.
Qed.

Lemma match_frac_local (s fs r : pystr) :
  match_frac s = (fs, r) ->
  exists p,
    s = p ++ r /\ forallb numchar p = true
    /\ (p = [] \/ exists p', p = 46 :: p')
    /\ forall t,
         next_ok (fun c => negb (is_digit c) && negb (c =? 46)) t = true ->
         match_frac (p ++ t) = (fs, t).
Proof.
  unfold match_frac. intros H.
  assert (Hnone : forall t,
             next_ok (fun c => negb (is_digit c) && negb (c =? 46)) t = true ->
             match_frac ([] ++ t) = ([], t)).
  { intros t Ht. unfold match_frac. destruct t as [|c t]; [reflexivity|].
    simpl in Ht. apply andb_true_iff in Ht as [_ Ht].
    apply negb_true_iff in Ht. simpl. rewrite Ht. reflexivity. }
  destruct s as [|c s0].
  { inversion H; subst. exists []. repeat split; auto. }
  destruct (c =? 46) eqn:Ec.
  - apply N.eqb_eq in Ec. subst c.
    destruct (span_digits s0) as [ds0 r0] eqn:Es.
    destruct (span_digits_split _ Es) as [E Hd].
    destruct ds0 as [|d ds0].
    + inversion H; subst. exists []. repeat split; auto.
    + inversion H; subst. exists (46 :: d :: ds0).
      split; [reflexivity|]. split.
      { change (forallb numchar (46 :: d :: ds0))
          with (numchar 46 && forallb numchar (d :: ds0)).
        rewrite (digits_numchars _ Hd). reflexivity. }
      split; [right; eauto|].
      intros t Ht. cbn [app]. unfold match_frac.
      change (46 =? 46) with true. cbn iota.
      change (d :: ds0 ++ t) with ((d :: ds0) ++ t).
      rewrite span_digits_build; [reflexivity | exact Hd |].
      revert Ht. apply next_ok_weaken. intros c Hc.
      apply andb_true_iff in Hc as [Hc _]. exact Hc.
  - inversion H; subst. exists []. repeat split; auto.
Qed.

Lemma match_exp_local (s : pystr) (ex : option Z) (r : pystr) :
  match_exp s = (ex, r) ->
  exists p,
    s = p ++ r /\ forallb numchar p = true
    /\ (p = [] \/ exists p', p = 101 :: p' \/ p = 69 :: p')
    /\ forall t, delim t = true -> match_exp (p ++ t) = (ex, t).
Proof.
  unfold match_exp. intros H.
  assert (Hnone : forall t, delim t = true -> match_exp ([] ++ t) = (None, t)).
  { intros t Ht. unfold match_exp. destruct t as [|c t]; [reflexivity|].
    unfold delim in Ht. simpl in Ht.
    apply andb_true_iff in Ht as [Ht H69].
    apply andb_true_iff in Ht as [_ H101].
    apply negb_true_iff in H69, H101. simpl. rewrite H69, H101. reflexivity. }
  destruct s as [|c s0].
  { inversion H; subst. exists []. repeat split; auto. }
  destruct ((c =? 101) || (c =? 69)) eqn:Ec.
  2:{ inversion H; subst. exists []. repeat split; auto. }
  assert (Hc : numchar c = true /\ (c = 101 \/ c = 69)).
  { apply orb_true_iff in Ec as [Ec | Ec]; apply N.eqb_eq in Ec; subst;
      split; auto. }
  destruct Hc as [Hn Hc].
  (* the sign *)
  set (signed := match s0 with
                 | sg :: r' =>
                     if sg =? 45 then (true, r')
                     else if sg =? 43 then (false, r') else (false, s0)
                 | [] => (false, s0)
                 end) in H.
  destruct signed as [neg r1] eqn:Esg.
  destruct (span_digits r1) as [es r2] eqn:Es.
  destruct (span_digits_split _ Es) as [E Hd].
  destruct es as [|d es].
  { inversion H; subst. exists []. repeat split; auto. }
  inversion H; subst ex r; clear H.
  assert (Hsg : exists sg, s0 = sg ++ r1 /\ forallb numchar sg = true
                  /\ forall t,
                       match sg ++ (d :: es) ++ t with
                       | sg0 :: r' =>
                           if sg0 =? 45 then (true, r')
                           else if sg0 =? 43 then (false, r')
                           else (false, sg ++ (d :: es) ++ t)
                       | [] => (false, sg ++ (d :: es) ++ t)
                       end = (neg, (d :: es) ++ t)).
  { simpl in Hd. apply andb_true_iff in Hd as [Hd0 _].
    destruct (digit_not_sign _ Hd0) as [N45 N43].
    unfold signed in Esg. clear signed. destruct s0 as [|sg r'].
    - injection Esg as En Er. rewrite <- Er in E. discriminate E.
    - destruct (sg =? 45) eqn:E45.
      + apply N.eqb_eq in E45. injection Esg as En Er.
        exists [45]. rewrite E45, <- En, Er. repeat split; reflexivity.
      + destruct (sg =? 43) eqn:E43.
        * apply N.eqb_eq in E43. injection Esg as En Er.
          exists [43]. rewrite E43, <- En, Er. repeat split; reflexivity.
        * injection Esg as En Er. exists []. rewrite <- En, Er.
          split; [reflexivity|].
          split; [reflexivity|]. intros t. cbn [app].
          rewrite N45, N43. reflexivity. }
  destruct Hsg as (sg & E0 & Hsgn & Hsg).
  exists (c :: sg ++ d :: es). split.
  { rewrite E0, E. cbn [app]. f_equal. rewrite <- app_assoc. reflexivity. }
  split.
  { cbn [forallb]. rewrite Hn. cbn [andb]. rewrite forallb_app, Hsgn.
    apply digits_numchars. exact Hd. }
  split; [right; exists (sg ++ d :: es); destruct Hc; subst; auto|].
  intros t Ht. unfold match_exp. cbn [app]. rewrite Ec.
  rewrite <- app_assoc.
  change ((d :: es) ++ t) with ((d :: es) ++ t) in Hsg.
  rewrite (Hsg t).
  rewrite span_digits_build; [reflexivity | exact Hd |].
  apply delim_no_digit. exact Ht.
Qed.

Lemma next_ok_after (q : char -> bool) (p t : pystr) :
  (p = [] -> next_ok q t = true) ->
  (forall c p', p = c :: p' -> q c = true) ->
  next_ok q (p ++ t) = true.
Proof. destruct p as [|c p']; simpl; eauto. Qed.

Lemma match_sign_local (s : pystr) (neg : bool) (s1 : pystr) :
  match_sign s = (neg, s1) ->
  exists sg,
    s = sg ++ s1 /\ forallb numchar sg = true
    /\ forall d t, is_digit d = true -> match_sign (sg ++ d :: t) = (neg, d :: t).
Proof.
  unfold match_sign. destruct s as [|c s0].
  - intros H. injection H as <- <-. exists []. split; [reflexivity|].
    split; [reflexivity|]. intros d t Hd. cbn [app].
    destruct (digit_not_sign _ Hd) as [-> _]. reflexivity.
  - destruct (c =? 45) eqn:Ec; intros H; injection H as <- <-.
    + apply N.eqb_eq in Ec. subst c. exists [45]. repeat split; reflexivity.
    + exists []. split; [reflexivity|]. split; [reflexivity|].
      intros d t Hd. cbn [app].
      destruct (digit_not_sign _ Hd) as [-> _]. reflexivity.
Qed.

(** A number: the text it reads is made of the code points of numbers,
    and it is read the same before any delimiter. *)
Lemma match_number_local (s : pystr) (v : json) (r : pystr) :
  match_number s = Some (v, r) ->
  exists x,
    s = x ++ r /\ (exists c x', x = c :: x')
    /\ forallb numchar x = true
    /\ forall r', delim r' = true -> match_number (x ++ r') = Some (v, r').
Proof.
  unfold match_number.
  destruct (match_sign s) as [neg s1] eqn:Esg.
  destruct (match_int s1) as [[ds r1]|] eqn:Ei; [|discriminate].
  destruct (match_frac r1) as [fs r2] eqn:Ef.
  destruct (match_exp r2) as [ex r3] eqn:Ee.
  intros H. injection H as <- <-.
  destruct (match_sign_local _ Esg) as (sg & E0 & Hsg & Rsg).
  destruct (match_int_local _ Ei) as (E1 & Hds & (d & ds' & Eds) & Rint).
  destruct (match_frac_local _ Ef) as (pf & E2 & Hpf & Spf & Rfrac).
  destruct (match_exp_local _ Ee) as (pe & E3 & Hpe & Spe & Rexp).
  exists (sg ++ ds ++ pf ++ pe). split.
  { rewrite E0, E1, E2, E3. rewrite <- !app_assoc. reflexivity. }
  split.
  { subst ds. destruct sg; simpl; eauto. }
  split.
  { rewrite !forallb_app, Hsg, Hpf, Hpe, (digits_numchars _ Hds). reflexivity. }
  intros r' Hr'.
  assert (Hd : is_digit d = true).
  { subst ds. simpl in Hds. apply andb_true_iff in Hds as [Hd _]. exact Hd. }
  rewrite <- !app_assoc. subst ds. cbn [app]. rewrite (Rsg d _ Hd).
  change (d :: ds' ++ pf ++ pe ++ r') with ((d :: ds') ++ pf ++ pe ++ r').
  rewrite Rint.
  2:{ apply next_ok_after.
      - intros ->. apply next_ok_after.
        + intros ->. apply delim_no_digit. exact Hr'.
        + intros c p' ->. destruct Spe as [Spe | [p'' [Spe | Spe]]];
            inversion Spe; reflexivity.
      - intros c p' ->. destruct Spf as [Spf | [p'' Spf]];
          inversion Spf; reflexivity. }
  rewrite Rfrac.
  2:{ apply next_ok_after.
      - intros ->. revert Hr'. apply next_ok_weaken. intros c Hc.
        apply andb_true_iff in Hc as [Hc _].
        apply andb_true_iff in Hc as [Hc _]. exact Hc.
      - intros c p' ->. destruct Spe as [Spe | [p'' [Spe | Spe]]];
          inversion Spe; reflexivity. }
  rewrite (Rexp _ Hr'). reflexivity.
Qed.

Lemma numchar_facts (c : char) :
  numchar c = true ->
  py_isspace c = false /\ c <> c_backtick /\ c <> c_comma.
Proof.
  unfold numchar, is_digit. intros H.
  repeat (apply orb_true_iff in H as [H | H]);
    try (apply N.eqb_eq in H; subst; repeat split; discriminate).
  apply andb_true_iff in H as [H1 H2]. apply N.leb_le in H1, H2.
  unfold py_isspace, c_backtick, c_comma.
  repeat split; try lia.
  repeat (apply orb_false_iff; split);
    try (apply N.eqb_neq; lia);
    apply andb_false_iff; (left; apply N.leb_gt; lia) || (right; apply N.leb_gt; lia).
Qed.

(** *** Keywords *)

Lemma startswith_split (p s : pystr) :
  startswith p s = true -> s = p ++ skipn (List.length p) s.
Proof.
  revert s. induction p as [|a p IH]; intros s H; [reflexivity|].
  destruct s as [|c s]; [discriminate|]. simpl in H.
  apply andb_true_iff in H as [H1 H2]. apply N.eqb_eq in H1. subst.
  simpl. f_equal. apply IH. exact H2.
Qed.

Lemma startswith_build (p r : pystr) :
  startswith p (p ++ r) = true /\ skipn (List.length p) (p ++ r) = r.
Proof.
  induction p as [|a p [IH1 IH2]]; [split; reflexivity|].
  simpl. rewrite N.eqb_refl, IH1, IH2. split; reflexivity.
Qed.

Lemma keyword_split (w : string) (s r : pystr) :
  keyword w s = Some r -> s = txt w ++ r.
Proof.
  unfold keyword. destruct (startswith (txt w) s) eqn:E; [|discriminate].
  intros H. injection H as <-. apply startswith_split. exact E.
Qed.

Lemma keyword_build (w : string) (r : pystr) :
  keyword w (txt w ++ r) = Some r.
Proof.
  unfold keyword. destruct (startswith_build (txt w) r) as [-> ->].
  reflexivity.
Qed.

(** *** Arrays and objects *)

Lemma chunk_length (x : pystr) : chunk x -> (1 <= List.length x)%nat.
Proof.
  intros [_ (x' & d & -> & _)]. rewrite length_app. simpl. lia.
Qed.

Lemma chunk_delimited (x w : pystr) (c : char) :
  chunk x -> forallb is_ws w = true -> c <> c_backtick ->
  fence_free (x ++ w ++ [c]).
Proof.
  intros [F _] Hw Hc. apply fence_free_app; [exact F|].
  apply fence_free_app; [apply ws_fence_free; exact Hw|].
  apply ticks_inside_none; [discriminate|]. simpl.
  apply N.eqb_neq in Hc. rewrite Hc. reflexivity.
Qed.

Lemma fence_free_quote (x : pystr) :
  ticks_inside c_dquote x = true -> fence_free (c_dquote :: x).
Proof. intros H. unfold fence_free. simpl. exact H. Qed.

(** Lists written as nested concatenations, and their lengths. *)
Ltac list_norm := repeat (progress (rewrite <- ?app_assoc; cbn [app])).
Ltac len_norm H :=
  repeat (progress (rewrite ?length_app in H; cbn [List.length] in H)).

(** The concatenation of fence-free pieces. *)
Ltac fence_tac :=
  rewrite <- ?app_assoc; cbn [app];
  repeat first [ assumption | apply ws_fence_free; assumption | reflexivity
               | apply fence_free_quote; assumption
               | apply fence_free_app
               | match goal with
                 | |- fence_free (?c :: ?t) =>
                     lazymatch t with
                     | [] => fail
                     | _ => change (fence_free ([c] ++ t));
                            apply fence_free_app
                     end
                 end ].

Section Containers.

Variable b : bool.
Variable scan : pystr -> option (json * pystr).
Variable scans : nat -> pystr -> option (json * pystr).
Hypothesis Hloc : local_scan scan scans.

(** The loop of an array reads up to its closing bracket. *)
Lemma array_items_local :
  forall n vals s v r,
    array_items b scan n vals s = Some (v, r) ->
    exists x,
      s = x ++ r /\ fence_free x /\ (exists x0, x = x0 ++ [93])
      /\ forall k m r',
           (List.length x < m)%nat -> (List.length x <= k)%nat ->
           array_items b (scans k) m vals (x ++ r') = Some (v, r').
Proof.
  induction n as [|n IH]; intros vals s v r H; [discriminate|].
  cbn [array_items] in H.
  destruct (scan s) as [[value r1]|] eqn:Es; [|discriminate].
  destruct (Hloc Es) as (x1 & E1 & C1 & R1).
  pose proof (chunk_length C1) as L1. pose proof (proj1 C1) as F1.
  destruct (skip_ws r1) as [|c r2] eqn:Ew; [discriminate|].
  destruct (skip_ws_split r1) as (w1 & Ew1 & Hw1). rewrite Ew in Ew1.
  pose proof (skip_ws_head _ Ew) as Hc.
  destruct (c =? 93) eqn:E93.
  - apply N.eqb_eq in E93. subst c. injection H as <- <-.
    exists (x1 ++ w1 ++ [93]). split.
    { rewrite E1, Ew1, <- !app_assoc. reflexivity. }
    split; [fence_tac|].
    split; [exists (x1 ++ w1); rewrite <- app_assoc; reflexivity|].
    intros k m r' Hm Hk. rewrite !length_app in Hm, Hk. simpl in Hm, Hk.
    destruct m as [|m]; [lia|]. cbn [array_items].
    rewrite <- !app_assoc. cbn [app].
    rewrite (R1 k); [|apply ws_delim; auto | lia].
    rewrite skip_ws_to by auto. reflexivity.
  - destruct (c =? c_comma) eqn:Ecm; [|discriminate].
    apply N.eqb_eq in Ecm. subst c.
    destruct (skip_ws r2) as [|c2 r3] eqn:Ew2; [discriminate|].
    destruct (skip_ws_split r2) as (w2 & Ew2' & Hw2). rewrite Ew2 in Ew2'.
    pose proof (skip_ws_head _ Ew2) as Hc2.
    destruct (b && (c2 =? 93)) eqn:Etc.
    + injection H as <- <-.
      apply andb_true_iff in Etc as [Hb E93']. apply N.eqb_eq in E93'. subst c2.
      exists (x1 ++ w1 ++ [c_comma] ++ w2 ++ [93]). split.
      { rewrite E1, Ew1, Ew2', <- !app_assoc. reflexivity. }
      split; [fence_tac|].
      split.
      { exists (x1 ++ w1 ++ [c_comma] ++ w2).
        rewrite <- !app_assoc. reflexivity. }
      intros k m r' Hm Hk. rewrite !length_app in Hm, Hk. simpl in Hm, Hk.
      destruct m as [|m]; [lia|]. cbn [array_items].
      rewrite <- !app_assoc. cbn [app].
      rewrite (R1 k); [|apply ws_delim; auto | lia].
      rewrite skip_ws_to by auto.
      change (c_comma =? 93) with false. change (c_comma =? c_comma) with true.
      cbn iota. rewrite skip_ws_to by auto. rewrite Hb. reflexivity.
    + destruct (IH _ _ _ _ H) as (x2 & E2 & F2 & (x0 & Ex2) & R2).
      assert (Hx2 : exists x2', x2 = c2 :: x2').
      { destruct x2 as [|a x2'].
        - destruct x0; discriminate Ex2.
        - injection E2 as <- _. eauto. }
      destruct Hx2 as [x2' ->].
      exists (x1 ++ w1 ++ [c_comma] ++ w2 ++ c2 :: x2'). split.
      { rewrite E1, Ew1, Ew2', E2, <- !app_assoc. reflexivity. }
      split; [fence_tac|].
      split.
      { exists (x1 ++ w1 ++ [c_comma] ++ w2 ++ x0). rewrite Ex2.
        rewrite <- !app_assoc. reflexivity. }
      intros k m r' Hm Hk. rewrite !length_app in Hm, Hk. simpl in Hm, Hk.
      destruct m as [|m]; [lia|]. cbn [array_items].
      rewrite <- !app_assoc. cbn [app].
      rewrite (R1 k); [|apply ws_delim; auto | lia].
      rewrite skip_ws_to by auto.
      change (c_comma =? 93) with false. change (c_comma =? c_comma) with true.
      cbn iota. rewrite skip_ws_to by auto.
      rewrite Etc. apply (R2 k m r'); simpl in *; lia.
Qed.

Lemma JSONArray_local :
  forall n s v r,
    JSONArray b scan n s = Some (v, r) ->
    exists x,
      s = x ++ r /\ fence_free x /\ (exists x0, x = x0 ++ [93])
      /\ forall k m r',
           (List.length x < m)%nat -> (List.length x <= k)%nat ->
           JSONArray b (scans k) m (x ++ r') = Some (v, r').
Proof.
  intros n s v r H. unfold JSONArray in H.
  destruct (skip_ws s) as [|c r0] eqn:Ew; [discriminate|].
  destruct (skip_ws_split s) as (w & Ew' & Hw). rewrite Ew in Ew'.
  pose proof (skip_ws_head _ Ew) as Hc.
  destruct (c =? 93) eqn:E93.
  - apply N.eqb_eq in E93. subst c. injection H as <- <-.
    exists (w ++ [93]). split; [rewrite <- app_assoc; exact Ew'|].
    split; [fence_tac|].
    split; [eauto|].
    intros k m r' _ _. unfold JSONArray. rewrite <- app_assoc. cbn [app].
    rewrite skip_ws_to by auto. reflexivity.
  - destruct (array_items_local _ _ _ H) as (x & E & F & (x0 & Ex) & R).
    assert (Hx : exists x', x = c :: x').
    { destruct x as [|a x'].
      - destruct x0; discriminate Ex.
      - injection E as <- _. eauto. }
    destruct Hx as [x' ->].
    exists (w ++ c :: x'). split; [rewrite <- app_assoc, <- E; exact Ew'|].
    split; [fence_tac|].
    split; [exists (w ++ x0); rewrite Ex, app_assoc; reflexivity|].
    intros k m r' Hm Hk. rewrite length_app in Hm, Hk.
    unfold JSONArray. rewrite <- app_assoc. cbn [app].
    rewrite skip_ws_to by auto. rewrite E93.
    apply (R k m r'); simpl in *; lia.
Qed.

(** The loop of an object, entered after the opening quote of a key,
    reads up to the closing brace. *)
Lemma object_items_local :
  forall n pairs s v r,
    object_items b scan n pairs s = Some (v, r) ->
    exists x,
      s = x ++ r /\ ticks_inside c_dquote x = true
      /\ (exists x0, x = x0 ++ [125])
      /\ forall k m r',
           (List.length x < m)%nat -> (List.length x <= k)%nat ->
           object_items b (scans k) m pairs (x ++ r') = Some (v, r').
Proof.
  induction n as [|n IH]; intros pairs s v r H; [discriminate|].
  cbn [object_items] in H.
  destruct (scanstring s) as [[key r0]|] eqn:Ek; [|discriminate].
  destruct (scanstring_local _ Ek) as (lit & E0 & Hlit & R0).
  pose proof (literal_ticks _ Hlit) as T0.
  destruct (skip_ws r0) as [|c r1] eqn:Ew1; [discriminate|].
  destruct (skip_ws_split r0) as (w1 & Ew1' & Hw1). rewrite Ew1 in Ew1'.
  pose proof (skip_ws_head _ Ew1) as Hc.
  destruct (c =? 58) eqn:E58; [|discriminate].
  apply N.eqb_eq in E58. subst c.
  destruct (scan (skip_ws r1)) as [[value r2]|] eqn:Es; [|discriminate].
  destruct (Hloc Es) as (xv & Ev & Cv & Rv).
  pose proof (chunk_length Cv) as Lv. pose proof (proj1 Cv) as Fv.
  destruct (skip_ws_split r1) as (w2 & Ew2' & Hw2). rewrite Ev in Ew2'.
  assert (Hxv : exists cv xv', xv = cv :: xv' /\ is_ws cv = false).
  { destruct xv as [|cv xv']; [simpl in Lv; lia|].
    exists cv, xv'. split; [reflexivity|].
    apply (skip_ws_head r1 (r := xv' ++ r2)). exact Ev. }
  destruct (skip_ws r2) as [|c2 r3] eqn:Ew3; [discriminate|].
  destruct (skip_ws_split r2) as (w3 & Ew3' & Hw3). rewrite Ew3 in Ew3'.
  pose proof (skip_ws_head _ Ew3) as Hc2.
  (* what the scanner does on the text up to the value, whatever follows *)
  assert (Rhead : forall k m t,
             (List.length xv < k)%nat ->
             (is_ws (hd c_comma t) = true \/ hd c_comma t = 93
              \/ hd c_comma t = 125 \/ hd c_comma t = c_comma) ->
             t <> [] ->
             object_items b (scans k) (S m) pairs
               (lit ++ c_dquote :: w1 ++ 58 :: w2 ++ xv ++ w3 ++ t)
             = match skip_ws t with
               | c2 :: r3 =>
                   if c2 =? 125
                   then Some (JDict (dict_of_pairs (pairs ++ [(key, value)])), r3)
                   else if c2 =? c_comma then
                     match skip_ws r3 with
                     | c3 :: r4 =>
                         if c3 =? c_dquote
                         then object_items b (scans k) m
                                (pairs ++ [(key, value)]) r4
                         else if b && (c3 =? 125)
                         then Some (JDict (dict_of_pairs
                                             (pairs ++ [(key, value)])), r4)
                         else None
                     | [] => None
                     end
                   else None
               | [] => None
               end).
  { intros k m t Hk Ht Hne. cbn [object_items]. rewrite R0.
    rewrite skip_ws_to by auto. change (58 =? 58) with true. cbn iota.
    rewrite skip_ws_before by auto.
    rewrite (Rv k); [|destruct t as [|a t]; [contradiction Hne; reflexivity|];
                      apply ws_delim; auto | exact Hk].
    rewrite skip_ws_app by auto. reflexivity. }
  destruct (c2 =? 125) eqn:E125.
  - apply N.eqb_eq in E125. subst c2. injection H as <- <-.
    exists (lit ++ c_dquote :: w1 ++ 58 :: w2 ++ xv ++ w3 ++ [125]).
    split.
    { rewrite E0, Ew1', Ew2', Ew3'. list_norm. reflexivity. }
    split.
    { change (lit ++ c_dquote :: ?t) with (lit ++ [c_dquote] ++ t).
      rewrite app_assoc. apply ticks_inside_app; [exact T0|]. fence_tac. }
    split.
    { exists (lit ++ c_dquote :: w1 ++ 58 :: w2 ++ xv ++ w3).
      list_norm. reflexivity. }
    intros k m r' Hm Hk. len_norm Hm. len_norm Hk.
    destruct m as [|m]; [lia|].
    list_norm.
    rewrite Rhead; [|simpl; lia | simpl; auto | discriminate].
    rewrite skip_ws_id by reflexivity. reflexivity.
  - destruct (c2 =? c_comma) eqn:Ecm; [|discriminate].
    apply N.eqb_eq in Ecm. subst c2.
    destruct (skip_ws r3) as [|c3 r4] eqn:Ew4; [discriminate|].
    destruct (skip_ws_split r3) as (w4 & Ew4' & Hw4). rewrite Ew4 in Ew4'.
    pose proof (skip_ws_head _ Ew4) as Hc3.
    destruct (c3 =? c_dquote) eqn:Edq.
    + apply N.eqb_eq in Edq. subst c3.
      destruct (IH _ _ _ _ H) as (x2 & E2 & T2 & (x0 & Ex2) & R2).
      exists (lit ++ c_dquote :: w1 ++ 58 :: w2 ++ xv ++ w3
                ++ c_comma :: w4 ++ c_dquote :: x2).
      split.
      { rewrite E0, Ew1', Ew2', Ew3', Ew4', E2. list_norm. reflexivity. }
      split.
      { change (lit ++ c_dquote :: ?t) with (lit ++ [c_dquote] ++ t).
        rewrite app_assoc. apply ticks_inside_app; [exact T0|].
        change (c_comma :: w4 ++ c_dquote :: x2)
          with ([c_comma] ++ w4 ++ c_dquote :: x2).
        fence_tac. }
      split.
      { exists (lit ++ c_dquote :: w1 ++ 58 :: w2 ++ xv ++ w3
                  ++ c_comma :: w4 ++ c_dquote :: x0).
        rewrite Ex2. list_norm. reflexivity. }
      intros k m r' Hm Hk. len_norm Hm. len_norm Hk.
      destruct m as [|m]; [lia|].
      list_norm.
      rewrite Rhead; [|simpl; lia | simpl; auto | discriminate].
      rewrite skip_ws_id by reflexivity.
      change (c_comma =? 125) with false. change (c_comma =? c_comma) with true.
      cbn iota. rewrite skip_ws_to by auto.
      change (c_dquote =? c_dquote) with true. cbn iota.
      apply R2; lia.
    + destruct (b && (c3 =? 125)) eqn:Etc; [|discriminate].
      injection H as <- <-.
      apply andb_true_iff in Etc as [Hb E125']. apply N.eqb_eq in E125'.
      subst c3.
      exists (lit ++ c_dquote :: w1 ++ 58 :: w2 ++ xv ++ w3
                ++ c_comma :: w4 ++ [125]).
      split.
      { rewrite E0, Ew1', Ew2', Ew3', Ew4'. list_norm. reflexivity. }
      split.
      { change (lit ++ c_dquote :: ?t) with (lit ++ [c_dquote] ++ t).
        rewrite app_assoc. apply ticks_inside_app; [exact T0|].
        change (c_comma :: w4 ++ [125]) with ([c_comma] ++ w4 ++ [125]).
        fence_tac. }
      split.
      { exists (lit ++ c_dquote :: w1 ++ 58 :: w2 ++ xv ++ w3
                  ++ c_comma :: w4).
        list_norm. reflexivity. }
      intros k m r' Hm Hk. len_norm Hm. len_norm Hk.
      destruct m as [|m]; [lia|].
      list_norm.
      rewrite Rhead; [|simpl; lia | simpl; auto | discriminate].
      rewrite skip_ws_id by reflexivity.
      change (c_comma =? 125) with false. change (c_comma =? c_comma) with true.
      cbn iota. rewrite skip_ws_to by auto.
      change (125 =? c_dquote) with false. change (125 =? 125) with true.
      rewrite Hb. reflexivity.
Qed.

Lemma JSONObject_local :
  forall n s v r,
    JSONObject b scan n s = Some (v, r) ->
    exists x,
      s = x ++ r /\ fence_free x /\ (exists x0, x = x0 ++ [125])
      /\ forall k m r',
           (List.length x < m)%nat -> (List.length x <= k)%nat ->
           JSONObject b (scans k) m (x ++ r') = Some (v, r').
Proof.
  intros n s v r H. unfold JSONObject in H.
  destruct (skip_ws s) as [|c r0] eqn:Ew; [discriminate|].
  destruct (skip_ws_split s) as (w & Ew' & Hw). rewrite Ew in Ew'.
  pose proof (skip_ws_head _ Ew) as Hc.
  destruct (c =? 125) eqn:E125.
  - apply N.eqb_eq in E125. subst c. injection H as <- <-.
    exists (w ++ [125]). split; [rewrite <- app_assoc; exact Ew'|].
    split; [fence_tac|]. split; [eauto|].
    intros k m r' _ _. unfold JSONObject. rewrite <- app_assoc. cbn [app].
    rewrite skip_ws_to by auto. reflexivity.
  - destruct (c =? c_dquote) eqn:Edq; [|discriminate].
    apply N.eqb_eq in Edq. subst c.
    destruct (object_items_local _ _ _ H) as (x & E & T & (x0 & Ex) & R).
    exists (w ++ c_dquote :: x). split.
    { rewrite <- app_assoc. cbn [app]. rewrite <- E. exact Ew'. }
    split; [fence_tac|].
    split.
    { exists (w ++ c_dquote :: x0). rewrite Ex, <- app_assoc. reflexivity. }
    intros k m r' Hm Hk. rewrite length_app in Hm, Hk. simpl in Hm, Hk.
    unfold JSONObject. rewrite <- app_assoc. cbn [app].
    rewrite skip_ws_to by auto.
    change (c_dquote =? 125) with false. change (c_dquote =? c_dquote) with true.
    cbn iota. apply R; lia.
Qed.

End Containers.

(** *** Values *)

Lemma match_number_first (c : char) (s : pystr) (v : json) (r : pystr) :
  match_number (c :: s) = Some (v, r) -> is_digit c = true \/ c = 45.
Proof.
  unfold match_number, match_sign.
  destruct (c =? 45) eqn:E; [apply N.eqb_eq in E; auto|].
  unfold match_int. destruct (is_digit c); [auto | discriminate].
Qed.

Lemma number_first_tests (c : char) :
  is_digit c = true \/ c = 45 ->
  (c =? c_dquote) = false /\ (c =? 123) = false /\ (c =? 91) = false
  /\ (110 =? c) = false /\ (116 =? c) = false /\ (102 =? c) = false.
Proof.
  unfold is_digit, c_dquote. intros [H | ->]; [|repeat split; reflexivity].
  apply andb_true_iff in H as [H1 H2]. apply N.leb_le in H1, H2.
  repeat split; apply N.eqb_neq; lia.
Qed.

(** A value starts with one of a few code points. *)
Lemma scan_once_first (b : bool) (n : nat) (c : char) (s : pystr) (v : json)
    (r : pystr) :
  scan_once b n (c :: s) = Some (v, r) -> value_first c = true.
Proof.
  destruct n as [|n]; [discriminate|]. cbn [scan_once]. unfold value_first.
  destruct (c =? c_dquote); [reflexivity|].
  destruct (c =? 123); [reflexivity|].
  destruct (c =? 91); [reflexivity|].
  intros H.
  repeat match type of H with
         | match keyword ?w ?t with _ => _ end = _ =>
             let K := fresh "K" in
             destruct (keyword w t) eqn:K;
             [apply keyword_split in K; injection K as -> _; reflexivity|]
         | match match_number ?t with _ => _ end = _ =>
             let K := fresh "K" in
             destruct (match_number t) as [[? ?]|] eqn:K;
             [apply match_number_first in K as [K | K];
              [rewrite K; cbn; rewrite ?orb_true_r; reflexivity
              |subst; reflexivity]|]
         end.
  discriminate.
Qed.

Lemma value_first_facts (c : char) :
  value_first c = true ->
  py_isspace c = false /\ is_ws c = false /\ is_closer c = false
  /\ c <> c_comma /\ c <> c_backtick /\ lower_is c 106 = false.
Proof.
  unfold value_first. intros H.
  repeat (apply orb_true_iff in H as [H | H]);
    try (apply N.eqb_eq in H; subst; repeat split; discriminate).
  unfold is_digit in H. apply andb_true_iff in H as [H1 H2].
  apply N.leb_le in H1, H2.
  unfold py_isspace, is_ws, is_closer, lower_is, c_comma, c_backtick,
    c_space, c_tab, c_nl, c_cr.
  repeat split; try lia;
    repeat (apply orb_false_iff; split);
    try (apply N.eqb_neq; lia);
    apply andb_false_iff; (left; apply N.leb_gt; lia) || (right; apply N.leb_gt; lia).
Qed.

Lemma numchars_chunk (x : pystr) :
  x <> [] -> forallb numchar x = true -> chunk x.
Proof.
  intros Hne H. split.
  - apply ticks_inside_none; [discriminate|].
    apply forallb_forall. intros c Hc. rewrite forallb_forall in H.
    destruct (numchar_facts _ (H c Hc)) as (_ & Hb & _).
    apply negb_true_iff, N.eqb_neq. exact Hb.
  - destruct (exists_last Hne) as (x' & d & ->). exists x', d.
    split; [reflexivity|]. rewrite forallb_app in H.
    apply andb_true_iff in H as [_ H]. simpl in H.
    apply andb_true_iff in H as [H _].
    apply (numchar_facts _ H).
Qed.

(** Every value the scanner accepts is read from a text of its own, in
    the same way whatever delimiter follows and whatever fuel beyond the
    length of that text is given. *)
Theorem scan_once_local (b : bool) :
  forall n, local_scan (scan_once b n) (scan_once b).
Proof.
  induction n as [|n IH]; intros s v r H; [discriminate|].
  destruct s as [|c s0]; [discriminate|]. cbn [scan_once] in H.
  destruct (c =? c_dquote) eqn:E1.
  { apply N.eqb_eq in E1. subst c.
    destruct (scanstring s0) as [[body r0]|] eqn:Es; [|discriminate].
    injection H as <- <-.
    destruct (scanstring_local _ Es) as (lit & E & Hlit & R).
    exists (c_dquote :: lit ++ [c_dquote]). split.
    { rewrite E. list_norm. reflexivity. }
    split.
    { split; [apply fence_free_quote, literal_ticks, Hlit|].
      exists (c_dquote :: lit), c_dquote. split; reflexivity. }
    intros k r' _ Hk. destruct k as [|k]; [simpl in Hk; lia|].
    list_norm. cbn [scan_once]. change (c_dquote =? c_dquote) with true.
    cbn iota. rewrite R. reflexivity. }
  destruct (c =? 123) eqn:E2.
  { apply N.eqb_eq in E2. subst c.
    destruct (@JSONObject_local b _ _ IH _ _ _ _ H) as (x & E & F & (x0 & Ex) & R).
    exists (123 :: x). split; [rewrite E; reflexivity|]. split.
    { split; [fence_tac|]. exists (123 :: x0), 125.
      rewrite Ex. split; reflexivity. }
    intros k r' _ Hk. destruct k as [|k]; [simpl in Hk; lia|].
    cbn [scan_once app]. change (123 =? c_dquote) with false.
    change (123 =? 123) with true. cbn iota. simpl in Hk. apply R; lia. }
  destruct (c =? 91) eqn:E3.
  { apply N.eqb_eq in E3. subst c.
    destruct (@JSONArray_local b _ _ IH _ _ _ _ H) as (x & E & F & (x0 & Ex) & R).
    exists (91 :: x). split; [rewrite E; reflexivity|]. split.
    { split; [fence_tac|]. exists (91 :: x0), 93.
      rewrite Ex. split; reflexivity. }
    intros k r' _ Hk. destruct k as [|k]; [simpl in Hk; lia|].
    cbn [scan_once app]. change (91 =? c_dquote) with false.
    change (91 =? 123) with false. change (91 =? 91) with true.
    cbn iota. simpl in Hk. apply R; lia. }
  repeat match type of H with
         | match keyword ?w ?t with _ => _ end = _ =>
             let K := fresh "K" in
             destruct (keyword w t) eqn:K;
             [injection H as <- <-; apply keyword_split in K;
              exists (txt w); split; [exact K|]; split;
              [split; [reflexivity|];
               exists (removelast (txt w)), (last (txt w) 0);
               split; reflexivity
              |intros k r' _ Hk; destruct k as [|k]; [simpl in Hk; lia|];
               reflexivity]
             |]
         | match match_number ?t with _ => _ end = _ =>
             let K := fresh "Nm" in
             destruct (match_number t) as [[v0 r0]|] eqn:K
         end.
  - injection H as <- <-.
    destruct (@number_first_tests c (@match_number_first c s0 v0 r0 Nm))
      as (T1 & T2 & T3 & T4 & T5 & T6).
    destruct (match_number_local _ Nm) as (x & E & (c' & x' & Ex) & Hnum & R).
    exists x. split; [exact E|]. split.
    { apply numchars_chunk; [subst x; discriminate | exact Hnum]. }
    intros k r' Hd Hk. destruct k as [|k]; [simpl in Hk; lia|].
    specialize (R r' Hd). subst x. injection E as <- _.
    cbn [scan_once app]. cbn [app] in R. rewrite T1, T2, T3.
    unfold keyword at 1 2 3. cbn [txt List.map list_ascii_of_string startswith].
    change (N_of_ascii "n") with 110. change (N_of_ascii "t") with 116.
    change (N_of_ascii "f") with 102.
    rewrite T4, T5, T6. cbn [andb]. rewrite R. reflexivity.
  - discriminate.
Qed.

(** *** Whole texts *)

(** A text that [decode] accepts is one value between white space. *)
Lemma decode_split (b : bool) (s : pystr) (v : json) :
  decode b s = Some v ->
  exists w1 x w2,
    s = w1 ++ x ++ w2
    /\ forallb is_ws w1 = true /\ forallb is_ws w2 = true
    /\ chunk x
    /\ (exists c x', x = c :: x' /\ value_first c = true)
    /\ forall k, (List.length x < k)%nat -> scan_once b k x = Some (v, []).
Proof.
  unfold decode. intros H.
  destruct (scan_once b (S (List.length s)) (skip_ws s)) as [[v0 r]|] eqn:Es;
    [|discriminate].
  destruct (skip_ws r) eqn:Ew; [|discriminate]. injection H as <-.
  apply skip_ws_nil in Ew.
  destruct (skip_ws_split s) as (w1 & E1 & Hw1).
  destruct (@scan_once_local b _ _ _ _ Es) as (x & E & C & R).
  exists w1, x, r. split; [rewrite <- E; exact E1|].
  split; [exact Hw1|]. split; [exact Ew|]. split; [exact C|]. split.
  - pose proof (chunk_length C) as L. destruct x as [|c x']; [simpl in L; lia|].
    exists c, x'. split; [reflexivity|].
    rewrite E in Es. apply (@scan_once_first b _ c _ v0 r Es).
  - intros k Hk. specialize (R k [] eq_refl Hk). rewrite app_nil_r in R.
    exact R.
Qed.

Lemma decode_build (b : bool) (x : pystr) (v : json) (c : char) (x' : pystr) :
  x = c :: x' -> is_ws c = false ->
  scan_once b (S (List.length x)) x = Some (v, []) ->
  decode b x = Some v.
Proof.
  intros -> Hc H. unfold decode. rewrite skip_ws_id by exact Hc.
  rewrite H. reflexivity.
Qed.

(** The value alone is accepted as the text is. *)
Lemma decode_value (b : bool) (s : pystr) (v : json) :
  decode b s = Some v ->
  exists w1 x w2,
    s = w1 ++ x ++ w2
    /\ forallb is_ws w1 = true /\ forallb is_ws w2 = true
    /\ chunk x
    /\ (exists c x', x = c :: x' /\ value_first c = true)
    /\ decode b x = Some v.
Proof.
  intros H.
  destruct (@decode_split b s v H)
    as (w1 & x & w2 & E & H1 & H2 & C & (c & x' & Ex & Hc) & R).
  exists w1, x, w2. repeat (split; [assumption|]).
  split; [eauto|].
  apply (@decode_build b x v c x' Ex).
  - apply (@value_first_facts c Hc).
  - apply R. lia.
Qed.

(** A text that starts with a backtick is not JSON. *)
Lemma decode_backtick (b : bool) (s : pystr) : decode b (c_backtick :: s) = None.
Proof. reflexivity. Qed.

End JsonFacts.

(** ** The scanner on a text without its trailing commas *)

Module RepairFacts.
Import PyStr Re PyDict Json Shape PyStrFacts TextFacts JsonFacts.
Local Open Scope N_scope.

Lemma spaces_then_closer_split (s : pystr) (n : nat) (k : char) :
  spaces_then_closer s = Some (n, k) ->
  exists w r,
    s = w ++ k :: r /\ forallb py_isspace w = true /\ is_closer k = true.
Proof.
  revert n. induction s as [|c s IH]; intros n H; [discriminate|].
  cbn [spaces_then_closer] in H. destruct (py_isspace c) eqn:Ec.
  - destruct (spaces_then_closer s) as [[n0 k0]|] eqn:Es; [|discriminate].
    injection H as <- <-. destruct (IH _ eq_refl) as (w & r & -> & Hw & Hk).
    exists (c :: w), r. split; [reflexivity|]. simpl. rewrite Ec, Hw. auto.
  - destruct (is_closer c) eqn:Ek; [|discriminate]. injection H as <- <-.
    exists [], s. auto.
Qed.

(** What the removal does at the front of a text. *)
Lemma rc_cons_cases (c : char) (r : pystr) :
  rc (c :: r) = c :: rc r
  \/ (c = c_comma
      /\ exists w k r',
           forallb py_isspace w = true /\ is_closer k = true
           /\ r = w ++ k :: r' /\ rc (c :: r) = k :: rc r').
Proof.
  destruct (N.eq_dec c c_comma) as [-> | Hne]; [|left; apply rc_plain, Hne].
  destruct (spaces_then_closer r) as [[n k]|] eqn:E.
  - right. split; [reflexivity|].
    destruct (@spaces_then_closer_split r n k E) as (w & r' & -> & Hw & Hk).
    exists w, k, r'. repeat split; auto. apply rc_trailing; auto.
  - left. apply rc_comma_keep, E.
Qed.

Lemma closer_facts (k : char) :
  is_closer k = true ->
  is_ws k = false /\ k <> c_comma /\ k <> c_dquote /\ k <> c_backslash
  /\ (k <=? 31) = false /\ delim (k :: []) = true.
Proof.
  unfold is_closer. intros H. apply orb_true_iff in H as [H | H];
    apply N.eqb_eq in H; subst; repeat split; discriminate.
Qed.

Lemma delim_head (c : char) (r r' : pystr) :
  delim (c :: r) = delim (c :: r').
Proof. reflexivity. Qed.

(** The head of the text after a value stays a delimiter. *)
Lemma delim_rc (r : pystr) : delim r = true -> delim (rc r) = true.
Proof.
  destruct r as [|c r]; [reflexivity|]. intros H.
  destruct (rc_cons_cases c r) as [-> | (-> & w & k & r' & _ & Hk & _ & ->)].
  - exact H.
  - rewrite (delim_head k _ []). apply (@closer_facts k Hk).
Qed.

Lemma rc_head_not_ws (c : char) (r : pystr) :
  is_ws c = false -> exists c' r', rc (c :: r) = c' :: r' /\ is_ws c' = false.
Proof.
  intros H.
  destruct (rc_cons_cases c r) as [-> | (-> & w & k & r' & _ & Hk & _ & ->)].
  - eauto.
  - exists k, (rc r'). split; [reflexivity | apply (@closer_facts k Hk)].
Qed.

Lemma is_ws_not_comma (c : char) : is_ws c = true -> c <> c_comma.
Proof.
  unfold is_ws. intros H.
  repeat (apply orb_true_iff in H as [H | H]);
    apply N.eqb_eq in H; subst; discriminate.
Qed.

(** Skipping white space and removing the commas commute. *)
Lemma skip_ws_rc (s : pystr) : skip_ws (rc s) = rc (skip_ws s).
Proof.
  induction s as [|c r IH]; [reflexivity|].
  destruct (is_ws c) eqn:Ec.
  - rewrite rc_plain by (apply is_ws_not_comma; exact Ec).
    change (c :: rc r) with ([c] ++ rc r). change (c :: r) with ([c] ++ r).
    rewrite !skip_ws_app by (simpl; rewrite Ec; reflexivity). exact IH.
  - rewrite (@skip_ws_id c r Ec).
    destruct (@rc_head_not_ws c r Ec) as (c' & r' & -> & Hc').
    apply skip_ws_id. exact Hc'.
Qed.

(** *** String literals *)

Lemma scan_units_peel (p t : pystr) (u : list unit_) (r : pystr) :
  forallb verbatim p = true ->
  scan_units (p ++ t) = Some (u, r) ->
  exists u0, scan_units t = Some (u0, r).
Proof.
  revert u. induction p as [|c p IH]; intros u Hp H; [eauto|].
  cbn [forallb] in Hp. apply andb_true_iff in Hp as [Hc Hp].
  unfold verbatim in Hc. apply andb_true_iff in Hc as [H1 H2].
  apply negb_true_iff in H1, H2.
  cbn [app scan_units] in H. rewrite H1, H2 in H.
  destruct (c <=? 31); [discriminate|].
  destruct (scan_units (p ++ t)) as [[u1 r1]|] eqn:E; [|discriminate].
  injection H as _ <-. apply (IH u1 Hp eq_refl).
Qed.

Lemma space_verbatim (w : pystr) :
  forallb py_isspace w = true -> forallb verbatim w = true.
Proof.
  intros H. apply forallb_forall. intros c Hc. rewrite forallb_forall in H.
  specialize (H c Hc). unfold verbatim.
  destruct (c =? c_dquote) eqn:E1; [apply N.eqb_eq in E1; subst; discriminate|].
  destruct (c =? c_backslash) eqn:E2;
    [apply N.eqb_eq in E2; subst; discriminate|].
  reflexivity.
Qed.

(** A literal is still a literal once the commas before closing brackets
    are removed from it. *)
Lemma scan_units_sim (n : nat) :
  forall s u r,
    (List.length s <= n)%nat ->
    scan_units s = Some (u, r) ->
    exists u', scan_units (rc s) = Some (u', rc r).
Proof.
  induction n as [|n IH]; intros s u r Hlen H;
    (destruct s as [|c s0]; [discriminate H|]); simpl in Hlen; [lia|].
  destruct (rc_cons_cases c s0)
    as [Erc | (-> & w & k & r' & Hw & Hk & -> & Erc)].
  2:{ (* a comma, white space and a closing bracket inside the literal *)
      rewrite Erc.
      destruct (@closer_facts k Hk) as (_ & _ & K1 & K2 & K3 & _).
      apply N.eqb_neq in K1, K2.
      assert (Hp : forallb verbatim (c_comma :: w ++ [k]) = true).
      { cbn [forallb]. rewrite forallb_app, (@space_verbatim w Hw).
        cbn [forallb]. unfold verbatim at 2. rewrite K1, K2. reflexivity. }
      replace (c_comma :: w ++ k :: r') with ((c_comma :: w ++ [k]) ++ r') in H
        by (list_norm; reflexivity).
      destruct (@scan_units_peel _ r' u r Hp H) as (u0 & E0).
      destruct (IH r' u0 r) as (u' & E'); [|exact E0|].
      { rewrite length_app in Hlen. simpl in Hlen. lia. }
      cbn [scan_units]. rewrite K1, K2, K3, E'. cbn [cons_unit]. eauto. }
  rewrite Erc. cbn [scan_units] in H |- *.
  destruct (c =? c_dquote) eqn:Eq.
  { injection H as <- <-. eauto. }
  destruct (c =? c_backslash) eqn:Eb.
  - destruct s0 as [|esc r1]; [discriminate H|].
    destruct (esc =? 117) eqn:Eu.
    + apply N.eqb_eq in Eu. subst esc.
      destruct r1 as [|a [|b [|c' [|d r2]]]]; try discriminate H.
      destruct (hex4 a b c' d) as [uni|] eqn:Eh; [|discriminate H].
      destruct (scan_units r2) as [[u2 r2']|] eqn:E2; [|discriminate H].
      injection H as <- <-.
      destruct (IH r2 u2 r2') as (u' & E'); [simpl in Hlen; lia | exact E2 |].
      destruct (@hex4_printable a b c' d uni Eh) as [_ Hp].
      rewrite rc_plain by discriminate.
      pose proof (@rc_app_plain [a; b; c'; d] r2 Hp) as Ep.
      cbn [app] in Ep. rewrite Ep. change (117 =? 117) with true. cbn iota.
      rewrite Eh, E'. cbn [cons_unit]. eauto.
    + destruct (backslash_escape esc) as [ch|] eqn:Ee; [|discriminate H].
      destruct (scan_units r1) as [[u1 r1']|] eqn:E1; [|discriminate H].
      injection H as <- <-.
      destruct (IH r1 u1 r1') as (u' & E'); [simpl in Hlen; lia | exact E1 |].
      destruct (@backslash_escape_plain esc ch Ee) as [_ Hne].
      rewrite rc_plain by exact Hne. rewrite Eu, Ee, E'. cbn [cons_unit]. eauto.
  - destruct (c <=? 31); [discriminate H|].
    destruct (scan_units s0) as [[u0 r0]|] eqn:E0; [|discriminate H].
    injection H as <- <-.
    destruct (IH s0 u0 r0) as (u' & E'); [lia | exact E0 |].
    rewrite E'. cbn [cons_unit]. eauto.
Qed.

Lemma scanstring_sim (s body r : pystr) :
  scanstring s = Some (body, r) ->
  exists body', scanstring (rc s) = Some (body', rc r).
Proof.
  unfold scanstring. intros H.
  destruct (scan_units s) as [[u r0]|] eqn:E; [|discriminate].
  injection H as _ <-.
  destruct (@scan_units_sim (List.length s) s u r0 (le_n _) E) as (u' & ->).
  eauto.
Qed.

(** *** Arrays and objects *)

Section Repaired.

Variable scan scan' : pystr -> option (json * pystr).

Hypothesis Hsim :
  forall s v r,
    scan s = Some (v, r) -> delim r = true ->
    exists v', scan' (rc s) = Some (v', rc r).

Hypothesis Hfirst :
  forall c s v r, scan (c :: s) = Some (v, r) -> value_first c = true.

Lemma array_items_first (n : nat) (vals : list json) (c : char) (s : pystr)
    (v : json) (r : pystr) :
  array_items true scan n vals (c :: s) = Some (v, r) -> value_first c = true.
Proof.
  destruct n as [|n]; [discriminate|]. cbn [array_items].
  destruct (scan (c :: s)) as [[value r1]|] eqn:Es; [|discriminate].
  intros _. apply (Hfirst Es).
Qed.

Lemma separator_delim (r : pystr) (c : char) (r1 : pystr) (k : char) :
  skip_ws r = c :: r1 -> c = k \/ c = c_comma ->
  k = 93 \/ k = 125 -> delim r = true.
Proof.
  intros Ew Hc Hk. destruct (skip_ws_split r) as (w & E & Hw).
  rewrite Ew in E. rewrite E. apply ws_delim; [exact Hw|].
  destruct Hc as [-> | ->]; [destruct Hk as [-> | ->]|]; auto.
Qed.

Lemma array_items_sim :
  forall n vals vals' s v r,
    array_items true scan n vals s = Some (v, r) ->
    exists v', array_items false scan' n vals' (rc s) = Some (v', rc r).
Proof.
  induction n as [|n IH]; intros vals vals' s v r H; [discriminate|].
  cbn [array_items] in H |- *.
  destruct (scan s) as [[value r1]|] eqn:Es; [|discriminate].
  destruct (skip_ws r1) as [|c r2] eqn:Ew; [discriminate|].
  assert (Hd : delim r1 = true).
  { apply (@separator_delim r1 c r2 93 Ew); [|auto].
    destruct (c =? 93) eqn:E; [apply N.eqb_eq in E; auto|].
    destruct (c =? c_comma) eqn:E'; [apply N.eqb_eq in E'; auto|discriminate]. }
  destruct (Hsim Es Hd) as (value' & ->).
  rewrite skip_ws_rc, Ew.
  destruct (c =? 93) eqn:E93.
  - apply N.eqb_eq in E93. subst c. injection H as <- <-.
    rewrite rc_plain by discriminate. change (93 =? 93) with true.
    cbn iota. eauto.
  - destruct (c =? c_comma) eqn:Ecm; [|discriminate].
    apply N.eqb_eq in Ecm. subst c.
    destruct (skip_ws r2) as [|c2 r3] eqn:Ew2; [discriminate|].
    destruct (skip_ws_split r2) as (w2 & Ew2' & Hw2). rewrite Ew2 in Ew2'.
    cbn [andb] in H.
    destruct (c2 =? 93) eqn:E93'.
    + apply N.eqb_eq in E93'. subst c2. injection H as <- <-.
      rewrite Ew2', rc_trailing by (auto using ws_spaces).
      change (93 =? 93) with true. cbn iota. eauto.
    + destruct (@value_first_facts c2 (@array_items_first _ _ _ _ _ _ H))
        as (V1 & _ & V3 & V4 & _).
      rewrite rc_comma_keep
        by (rewrite Ew2'; apply spaces_then_closer_other;
            auto using ws_spaces).
      change (c_comma =? 93) with false.
      change (c_comma =? c_comma) with true. cbn iota.
      rewrite skip_ws_rc, Ew2.
      destruct (IH (vals ++ [value]) (vals' ++ [value']) _ _ _ H) as (v' & E').
      rewrite rc_plain in E' |- * by exact V4.
      cbn [andb]. eauto.
Qed.

Lemma JSONArray_sim (n : nat) (s : pystr) (v : json) (r : pystr) :
  JSONArray true scan n s = Some (v, r) ->
  exists v', JSONArray false scan' n (rc s) = Some (v', rc r).
Proof.
  unfold JSONArray. intros H. rewrite skip_ws_rc.
  destruct (skip_ws s) as [|c r1]; [discriminate|].
  destruct (c =? 93) eqn:E93.
  - apply N.eqb_eq in E93. subst c. injection H as <- <-.
    rewrite rc_plain by discriminate. change (93 =? 93) with true.
    cbn iota. eauto.
  - destruct (@value_first_facts c (@array_items_first _ _ _ _ _ _ H))
      as (_ & _ & _ & V4 & _).
    destruct (@array_items_sim n [] [] _ _ _ H) as (v' & E').
    rewrite rc_plain in E' |- * by exact V4. rewrite E93. eauto.
Qed.

Lemma object_items_sim :
  forall n pairs pairs' s v r,
    object_items true scan n pairs s = Some (v, r) ->
    exists v', object_items false scan' n pairs' (rc s) = Some (v', rc r).
Proof.
  induction n as [|n IH]; intros pairs pairs' s v r H; [discriminate|].
  cbn [object_items] in H |- *.
  destruct (scanstring s) as [[key r0]|] eqn:Ek; [|discriminate].
  destruct (@scanstring_sim s key r0 Ek) as (key' & ->).
  rewrite skip_ws_rc.
  destruct (skip_ws r0) as [|c r1]; [discriminate|].
  destruct (c =? 58) eqn:E58; [|discriminate].
  apply N.eqb_eq in E58. subst c.
  rewrite rc_plain by discriminate. change (58 =? 58) with true. cbn iota.
  destruct (scan (skip_ws r1)) as [[value r2]|] eqn:Es; [|discriminate].
  destruct (skip_ws r2) as [|c2 r3] eqn:Ew; [discriminate|].
  assert (Hd : delim r2 = true).
  { apply (@separator_delim r2 c2 r3 125 Ew); [|auto].
    destruct (c2 =? 125) eqn:E; [apply N.eqb_eq in E; auto|].
    destruct (c2 =? c_comma) eqn:E'; [apply N.eqb_eq in E'; auto|discriminate]. }
  destruct (Hsim Es Hd) as (value' & Es').
  rewrite skip_ws_rc, Es', skip_ws_rc, Ew.
  destruct (c2 =? 125) eqn:E125.
  - apply N.eqb_eq in E125. subst c2. injection H as <- <-.
    rewrite rc_plain by discriminate. change (125 =? 125) with true.
    cbn iota. eauto.
  - destruct (c2 =? c_comma) eqn:Ecm; [|discriminate].
    apply N.eqb_eq in Ecm. subst c2.
    destruct (skip_ws r3) as [|c3 r4] eqn:Ew3; [discriminate|].
    destruct (skip_ws_split r3) as (w3 & Ew3' & Hw3). rewrite Ew3 in Ew3'.
    destruct (c3 =? c_dquote) eqn:Eq.
    + apply N.eqb_eq in Eq. subst c3.
      rewrite rc_comma_keep
        by (rewrite Ew3'; apply spaces_then_closer_other;
            auto using ws_spaces).
      change (c_comma =? 125) with false.
      change (c_comma =? c_comma) with true. cbn iota.
      rewrite skip_ws_rc, Ew3. rewrite rc_plain by discriminate.
      change (c_dquote =? c_dquote) with true. cbn iota.
      apply (IH _ _ _ _ _ H).
    + cbn [andb] in H. destruct (c3 =? 125) eqn:E125'; [|discriminate].
      apply N.eqb_eq in E125'. subst c3. injection H as <- <-.
      rewrite Ew3', rc_trailing by (auto using ws_spaces).
      change (125 =? 125) with true. cbn iota. eauto.
Qed.

Lemma JSONObject_sim (n : nat) (s : pystr) (v : json) (r : pystr) :
  JSONObject true scan n s = Some (v, r) ->
  exists v', JSONObject false scan' n (rc s) = Some (v', rc r).
Proof.
  unfold JSONObject. intros H. rewrite skip_ws_rc.
  destruct (skip_ws s) as [|c r1]; [discriminate|].
  destruct (c =? 125) eqn:E125.
  - apply N.eqb_eq in E125. subst c. injection H as <- <-.
    rewrite rc_plain by discriminate. change (125 =? 125) with true.
    cbn iota. eauto.
  - destruct (c =? c_dquote) eqn:Eq; [|discriminate].
    apply N.eqb_eq in Eq. subst c. rewrite rc_plain by discriminate.
    change (c_dquote =? 125) with false.
    change (c_dquote =? c_dquote) with true. cbn iota.
    apply (@object_items_sim _ _ [] _ _ _ H).
Qed.

End Repaired.

Lemma numchars_plain (x : pystr) :
  forallb numchar x = true ->
  forallb (fun c => negb (c =? c_comma)) x = true.
Proof.
  intros H. apply forallb_forall. intros c Hc. rewrite forallb_forall in H.
  apply negb_true_iff, N.eqb_neq. apply (@numchar_facts c (H c Hc)).
Qed.

(** Where the scanner that accepts trailing commas reads a value, the
    scanner of [json.loads] reads one on the text without these commas,
    and stops at the same place. *)
Lemma scan_once_sim :
  forall n s v r,
    scan_once true n s = Some (v, r) -> delim r = true ->
    exists v', scan_once false n (rc s) = Some (v', rc r).
Proof.
  induction n as [|n IH]; intros s v r H Hd; [discriminate|].
  destruct s as [|c s0]; [discriminate|].
  pose proof (@scan_once_first true (S n) c s0 v r H) as Hv.
  destruct (@value_first_facts c Hv) as (_ & _ & _ & V4 & _).
  cbn [scan_once] in H.
  destruct (c =? c_dquote) eqn:E1.
  { destruct (scanstring s0) as [[body r0]|] eqn:Es; [|discriminate].
    injection H as <- <-. rewrite rc_plain by exact V4.
    destruct (@scanstring_sim s0 body r0 Es) as (body' & E').
    cbn [scan_once]. rewrite E1, E'. eauto. }
  destruct (c =? 123) eqn:E2.
  { rewrite rc_plain by exact V4. cbn [scan_once]. rewrite E1, E2.
    exact (@JSONObject_sim (scan_once true n) (scan_once false n) IH
             n s0 v r H). }
  destruct (c =? 91) eqn:E3.
  { rewrite rc_plain by exact V4. cbn [scan_once]. rewrite E1, E2, E3.
    exact (@JSONArray_sim (scan_once true n) (scan_once false n) IH
             (@scan_once_first true n) n s0 v r H). }
  repeat match type of H with
         | match keyword ?w ?t with _ => _ end = _ =>
             let K := fresh "K" in
             destruct (keyword w t) eqn:K;
             [injection H as <- <-; apply keyword_split in K;
              rewrite K, rc_app_plain by reflexivity;
              eexists; reflexivity
             |]
         | match match_number ?t with _ => _ end = _ =>
             let K := fresh "Nm" in
             destruct (match_number t) as [[v0 r0]|] eqn:K
         end.
  - injection H as <- <-.
    destruct (@number_first_tests c (@match_number_first c s0 v0 r0 Nm))
      as (T1 & T2 & T3 & T4 & T5 & T6).
    destruct (@match_number_local _ _ _ Nm)
      as (x & E & (c' & x' & Ex) & Hnum & R).
    specialize (R (rc r0) (@delim_rc r0 Hd)).
    rewrite E, (@rc_app_plain x r0 (@numchars_plain x Hnum)).
    subst x. injection E as <- _. exists v0.
    cbn [scan_once app]. cbn [app] in R. rewrite T1, T2, T3.
    unfold keyword at 1 2 3. cbn [txt List.map list_ascii_of_string startswith].
    change (N_of_ascii "n") with 110. change (N_of_ascii "t") with 116.
    change (N_of_ascii "f") with 102.
    rewrite T4, T5, T6. cbn [andb]. rewrite R. reflexivity.
  - discriminate.
Qed.

(** A text that is JSON up to trailing commas is JSON once each comma
    followed by optional white space and a closing bracket or brace is
    removed from it. *)
Lemma decode_repaired (x : pystr) (v : json) :
  decode true x = Some v ->
  exists v', decode false (rc x) = Some v'.
Proof.
  intros H.
  unfold decode in H |- *.
  destruct (scan_once true (S (List.length x)) (skip_ws x)) as [[v0 r]|] eqn:Es;
    [|discriminate].
  destruct (skip_ws r) eqn:Ew; [|discriminate].
  assert (Hd : delim r = true).
  { destruct r as [|a r']; [reflexivity|].
    apply skip_ws_nil in Ew. cbn [forallb] in Ew.
    apply andb_true_iff in Ew as [Ha _].
    apply (@ws_delim [] r' a eq_refl). auto. }
  destruct (@scan_once_sim _ _ _ _ Es Hd) as (v' & Es').
  destruct (@scan_once_local false _ _ _ _ Es') as (z & Ez & _ & R).
  assert (L : (List.length z <= List.length (rc x))%nat).
  { destruct (skip_ws_split (rc x)) as (w & Ew' & _).
    rewrite skip_ws_rc, Ez in Ew'. rewrite Ew', !length_app. lia. }
  rewrite skip_ws_rc, Ez.
  rewrite (R (S (List.length (rc x)))).
  - rewrite skip_ws_rc, Ew. change (rc []) with (@nil char). eauto.
  - apply delim_rc, Hd.
  - lia.
Qed.

End RepairFacts.

(** ** Empty responses *)

Module NormalizerFacts.
Import PyStr Re PyDict Json Shape Normalizer PyStrFacts TextFacts JsonFacts.
Import RepairFacts.
Local Open Scope N_scope.

(** C5.  A raw gateway text that is empty or made of white space only
    makes [parse_gemini_json] fail with the empty-response error; it never
    returns a parsed object. *)
Theorem empty_text_is_rejected (raw : pystr) :
  forallb py_isspace raw = true ->
  parse_gemini_json raw = inr EmptyResponse
  /\ forall v, parse_gemini_json raw <> inl v.
Proof.
  intros H. assert (E : parse_gemini_json raw = inr EmptyResponse).
  { unfold parse_gemini_json. rewrite py_strip_all_space by exact H.
    reflexivity. }
  split; [exact E|]. intros v. rewrite E. discriminate.
Qed.

Lemma empty_text_is_rejected_witness :
  forallb py_isspace [c_space; c_nl; 160; c_tab] = true
  /\ parse_gemini_json [c_space; c_nl; 160; c_tab] = inr EmptyResponse.
Proof.
  split; [reflexivity|].
  apply (empty_text_is_rejected [c_space; c_nl; 160; c_tab]). reflexivity.
Defined.

(** ** The repair of a text that holds JSON *)

(** White space around a text that starts and ends with something else. *)
Lemma py_strip_around (a x b : pystr) :
  forallb py_isspace a = true -> forallb py_isspace b = true ->
  (exists c x', x = c :: x' /\ py_isspace c = false) ->
  ends_solid x ->
  py_strip (a ++ x ++ b) = x.
Proof.
  intros Ha Hb (c & x' & Ex & Hc) (x0 & d & Ex0 & Hd).
  unfold py_strip, strip_by. rewrite lstrip_by_app by exact Ha.
  rewrite Ex at 1. cbn [app]. rewrite lstrip_by_id by exact Hc.
  change (c :: x' ++ b) with ((c :: x') ++ b). rewrite <- Ex.
  rewrite rstrip_by_app by exact Hb. rewrite Ex0.
  apply rstrip_by_id. exact Hd.
Qed.

Lemma py_strip_solid (x : pystr) :
  (exists c x', x = c :: x' /\ py_isspace c = false) ->
  ends_solid x -> py_strip x = x.
Proof.
  intros H1 H2. rewrite <- (@py_strip_around [] x [] eq_refl eq_refl H1 H2) at 2.
  cbn [app]. rewrite app_nil_r. reflexivity.
Qed.

(** A pattern that is not found replaces nothing. *)
Lemma sub_scan_absent (m : matcher) (prev : option char) (s : pystr) :
  search_from m prev s = false -> sub_scan m 0 prev s = s.
Proof.
  revert prev. induction s as [|c r IH]; intros prev H; [reflexivity|].
  cbn [search_from] in H. cbn [sub_scan].
  destruct (m prev (c :: r)); [discriminate|]. f_equal. apply IH. exact H.
Qed.

Lemma search_comma_prev (p q : option char) (s : pystr) :
  search_from trailing_comma p s = search_from trailing_comma q s.
Proof.
  revert p q. induction s as [|c r IH]; intros p q; [reflexivity|].
  cbn [search_from]. change (trailing_comma p (c :: r))
    with (trailing_comma q (c :: r)).
  destruct (trailing_comma q (c :: r)); [reflexivity|]. apply IH.
Qed.

Lemma search_comma_suffix (p q : option char) (a s : pystr) :
  search_from trailing_comma p (a ++ s) = false ->
  search_from trailing_comma q s = false.
Proof.
  revert p. induction a as [|c a IH]; intros p H.
  - rewrite (search_comma_prev q p). exact H.
  - cbn [app search_from] in H.
    destruct (trailing_comma p (c :: a ++ s)); [discriminate|].
    apply (IH _ H).
Qed.

Lemma spaces_then_closer_app (s b : pystr) (nk : nat * char) :
  spaces_then_closer s = Some nk -> spaces_then_closer (s ++ b) = Some nk.
Proof.
  revert nk. induction s as [|c s IH]; intros nk H; [discriminate|].
  cbn [spaces_then_closer app] in *.
  destruct (py_isspace c).
  - destruct (spaces_then_closer s) as [[n k]|]; [|discriminate].
    rewrite (IH _ eq_refl). exact H.
  - exact H.
Qed.

Lemma search_comma_prefix (p : option char) (s b : pystr) :
  search_from trailing_comma p (s ++ b) = false ->
  search_from trailing_comma p s = false.
Proof.
  revert p. induction s as [|c s IH]; intros p H; [reflexivity|].
  cbn [app search_from] in *.
  destruct (trailing_comma p (c :: s ++ b)) eqn:E; [discriminate|].
  rewrite (IH _ H).
  destruct (trailing_comma p (c :: s)) as [[repl n]|] eqn:E'; [|reflexivity].
  unfold trailing_comma in E, E'.
  destruct (c =? c_comma); [|discriminate].
  destruct (spaces_then_closer s) as [nk|] eqn:Es; [|discriminate].
  rewrite (spaces_then_closer_app _ b Es) in E. destruct nk. discriminate.
Qed.

(** The opening pattern removes both fences of a fenced text: the closing
    one starts a line as well. *)
Lemma sub_scan_fence_open_tail (p : char) (x : pystr) :
  ticks_inside p x = true ->
  sub_scan fence_open 0 (Some p) (x ++ c_nl :: txt "```") = x ++ [c_nl].
Proof.
  revert p. induction x as [|c r IH]; intros p H.
  - cbn [app sub_scan]. unfold fence_open at 1, at_bol.
    destruct (p =? c_nl); reflexivity.
  - simpl in H. apply andb_true_iff in H as [H1 H3].
    apply andb_true_iff in H1 as [H1 _].
    cbn [app sub_scan].
    assert (E : fence_open (Some p) (c :: r ++ c_nl :: txt "```") = None).
    { unfold fence_open, at_bol. destruct (p =? c_nl); [|reflexivity].
      simpl in H1. apply negb_true_iff in H1. rewrite H1.
      destruct (r ++ c_nl :: txt "```") as [|b [|c' r']]; reflexivity. }
    rewrite E. f_equal. apply IH. exact H3.
Qed.

Lemma re_sub_fence_open_fenced (content : pystr) :
  fence_free content ->
  re_sub fence_open (fenced content) = c_nl :: content ++ [c_nl].
Proof.
  intros H. unfold fenced, re_sub.
  change (txt "```json" ++ [c_nl] ++ content ++ [c_nl] ++ txt "```")
    with (96 :: 96 :: 96 :: 106 :: 115 :: 111 :: 110 :: c_nl
            :: content ++ c_nl :: txt "```").
  cbn [sub_scan]. unfold fence_open at 1. cbn [at_bol].
  change (96 =? c_backtick) with true. cbn [andb opt_json_len].
  change (ci 106 106 && ci 115 115 && ci 111 111 && ci 110 110) with true.
  cbn [Nat.add pred app sub_scan].
  unfold fence_open at 1. change (at_bol (Some 110)) with false. cbn iota.
  f_equal. apply sub_scan_fence_open_tail. exact H.
Qed.

(** The steps of [clean_json_text] after the opening fence is gone, on a
    value between white space that contains no backslash before a quote:
    only the commas before closing brackets are removed. *)
Lemma clean_steps (a x b : pystr) :
  forallb py_isspace a = true -> forallb py_isspace b = true ->
  chunk x ->
  (exists c x', x = c :: x' /\ value_first c = true) ->
  occurs [c_backslash; c_dquote] x = false ->
  let raw := re_sub fence_close (py_strip (a ++ x ++ b)) in
  let raw :=
    if lower_startswith (txt "json") raw
    then lstrip_by (fun c => (c =? c_nl) || (c =? c_cr) || (c =? c_space))
           (skipn 4 raw)
    else raw in
  let raw := py_replace [c_backslash; c_dquote] [c_dquote] raw in
  let raw := re_sub trailing_comma raw in
  py_strip raw = py_strip (re_sub trailing_comma x).
Proof.
  intros Ha Hb [F S] (c & x' & Ex & Hc) Ho.
  destruct (@value_first_facts c Hc) as (Hsp & _ & _ & _ & _ & Hj).
  cbv zeta.
  rewrite py_strip_around; eauto.
  rewrite (@re_sub_fence_close x F).
  assert (J : lower_startswith (txt "json") x = false).
  { rewrite Ex. cbn. rewrite Hj. reflexivity. }
  rewrite J, (@replace_absent _ [c_dquote] x Ho). reflexivity.
Qed.

Lemma fenced_not_json (content : pystr) :
  py_strip (fenced content) = fenced content
  /\ json_loads (fenced content) = None
  /\ exists c r, fenced content = c :: r.
Proof.
  split; [|split; [reflexivity|eexists; eexists; reflexivity]].
  unfold fenced.
  change (txt "```json" ++ [c_nl] ++ content ++ [c_nl] ++ txt "```")
    with (96 :: (96 :: 96 :: 106 :: 115 :: 111 :: 110 :: c_nl
                   :: content ++ c_nl :: 96 :: 96 :: [96])).
  replace (96 :: 96 :: 106 :: 115 :: 111 :: 110 :: c_nl
             :: content ++ c_nl :: 96 :: 96 :: [96])
    with ((96 :: 96 :: 106 :: 115 :: 111 :: 110 :: c_nl
             :: content ++ c_nl :: 96 :: [96]) ++ [96]).
  - apply py_strip_id; reflexivity.
  - list_norm. reflexivity.
Qed.

(** C1.  For a text that parses as JSON and contains neither a backslash
    followed by a quote nor a comma followed by optional white space and a
    closing bracket or brace, the normalizer applied to the text wrapped
    in a fence tagged json returns the value that parsing the text itself
    gives. *)
Theorem fenced_json_parses_like_content (content : pystr) (v : json) :
  json_loads content = Some v ->
  occurs [c_backslash; c_dquote] content = false ->
  re_search trailing_comma content = false ->
  parse_gemini_json (fenced content) = inl v.
Proof.
  intros Hv Ho Hs.
  destruct (@decode_value false content v Hv)
    as (w1 & x & w2 & E & H1 & H2 & C & Hx & Hd).
  destruct (fenced_not_json content) as (St & Nj & (c0 & r0 & Ef)).
  unfold parse_gemini_json. rewrite St, Ef. rewrite <- Ef, Nj.
  assert (Hc : clean_json_text (fenced content) = x).
  { unfold clean_json_text. rewrite Ef, <- Ef, St.
    assert (F : fence_free content).
    { rewrite E. destruct C. fence_tac. }
    rewrite (@re_sub_fence_open_fenced content F).
    replace (c_nl :: content ++ [c_nl])
      with ((c_nl :: w1) ++ x ++ (w2 ++ [c_nl]))
      by (rewrite E; list_norm; reflexivity).
    assert (Ho' : occurs [c_backslash; c_dquote] x = false).
    { rewrite E in Ho. apply occurs_suffix in Ho.
      apply occurs_prefix in Ho; [exact Ho | discriminate]. }
    assert (Hs' : re_search trailing_comma x = false).
    { unfold re_search in *. rewrite E in Hs.
      apply (search_comma_suffix None None) in Hs.
      apply search_comma_prefix in Hs. exact Hs. }
    pose proof (@clean_steps (c_nl :: w1) x (w2 ++ [c_nl])) as Hcs.
    cbv zeta in Hcs. rewrite Hcs; auto.
    - unfold re_sub. rewrite (@sub_scan_absent trailing_comma None x Hs').
      destruct Hx as (c & x' & Ex & Hc). destruct C as [_ S].
      apply py_strip_solid; [|exact S].
      exists c, x'. split; [exact Ex | apply (@value_first_facts c Hc)].
    - cbn [forallb]. rewrite (@ws_spaces w1 H1). reflexivity.
    - rewrite forallb_app, (@ws_spaces w2 H2). reflexivity. }
  rewrite Hc. unfold json_loads. rewrite Hd. reflexivity.
Qed.

Lemma fenced_json_parses_like_content_witness :
  json_loads (quoted "{'a': [1, 2.5], 'b': null}")
  = Some (JDict [(txt "a", JList [JInt 1; JFloat 25 (-1)]); (txt "b", JNull)])
  /\ parse_gemini_json (fenced (quoted "{'a': [1, 2.5], 'b': null}"))
     = inl (JDict [(txt "a", JList [JInt 1; JFloat 25 (-1)]);
                   (txt "b", JNull)]).
Proof.
  split; [reflexivity|].
  apply (@fenced_json_parses_like_content
           (quoted "{'a': [1, 2.5], 'b': null}")); reflexivity.
Defined.

(** A string of the content that holds a comma before a closing brace
    loses the comma: the fenced text does not give the object that the
    content gives. *)
Lemma fence_repair_alters_strings :
  let content := quoted "{'a':',}'}" in
  json_loads content = Some (JDict [(txt "a", JStr (txt ",}"))])
  /\ parse_gemini_json (fenced content)
     = inl (JDict [(txt "a", JStr (txt "}"))])
  /\ parse_gemini_json (fenced content)
     <> inl (JDict [(txt "a", JStr (txt ",}"))]).
Proof.
  intros content. split; [reflexivity|]. split; [reflexivity|discriminate].
Qed.

(** The scenario of the specification: a fenced object with a trailing
    comma. *)
Example fenced_trailing_comma_scenario :
  parse_gemini_json (fenced (quoted "{'a':1,}"))
  = inl (JDict [(txt "a", JInt 1)]).
Proof. reflexivity. Qed.

(** ** Trailing commas *)

(** C2.  For a text that is JSON up to commas placed between the last
    element or member and the closing bracket or brace, and that holds no
    backslash followed by a quote, the text that [clean_json_text]
    returns parses as JSON. *)
Theorem trailing_commas_are_repaired (raw : pystr) (v : json) :
  loads_trailing_commas raw = Some v ->
  occurs [c_backslash; c_dquote] raw = false ->
  exists v', json_loads (clean_json_text raw) = Some v'.
Proof.
  intros Hv Ho.
  destruct (@decode_value true raw v Hv)
    as (w1 & x & w2 & E & H1 & H2 & C & (c & x' & Ex & Hc) & Hd).
  destruct (@decode_repaired x v Hd) as (v1 & Hr).
  destruct (@decode_value false (rc x) v1 Hr)
    as (u1 & y & u2 & Ey & U1 & U2 & Cy & (d & y' & Ey' & Hd') & Hy).
  assert (Hx : exists c x', x = c :: x' /\ py_isspace c = false).
  { exists c, x'. split; [exact Ex | apply (@value_first_facts c Hc)]. }
  assert (Hraw : exists a raw', raw = a :: raw').
  { destruct raw as [|a raw']; [|eauto].
    destruct w1; [|discriminate E]. subst x. discriminate E. }
  destruct Hraw as (a & raw' & Eraw).
  assert (Hcl : clean_json_text raw = y).
  { unfold clean_json_text. rewrite Eraw, <- Eraw.
    assert (Hs : py_strip raw = x).
    { rewrite E. apply py_strip_around; auto using ws_spaces. apply C. }
    rewrite Hs, (@re_sub_fence_open x (proj1 C)).
    assert (Ho' : occurs [c_backslash; c_dquote] x = false).
    { rewrite E in Ho. apply occurs_suffix in Ho.
      apply occurs_prefix in Ho; [exact Ho | discriminate]. }
    pose proof (@clean_steps [] x [] eq_refl eq_refl C
                  (ex_intro _ c (ex_intro _ x' (conj Ex Hc))) Ho') as Hcs.
    cbv zeta in Hcs. cbn [app] in Hcs. rewrite app_nil_r in Hcs.
    rewrite Hcs, Ey.
    apply py_strip_around; auto using ws_spaces.
    - exists d, y'. split; [exact Ey' | apply (@value_first_facts d Hd')].
    - apply Cy. }
  exists v1. rewrite Hcl. exact Hy.
Qed.

Lemma trailing_commas_are_repaired_witness :
  loads_trailing_commas (quoted "{'a': [1, 2, ], 'b': {'c': ',]',}, }")
  = Some (JDict [(txt "a", JList [JInt 1; JInt 2]);
                 (txt "b", JDict [(txt "c", JStr (txt ",]"))])])
  /\ exists v',
       json_loads
         (clean_json_text (quoted "{'a': [1, 2, ], 'b': {'c': ',]',}, }"))
       = Some v'.
Proof.
  split; [reflexivity|].
  apply (@trailing_commas_are_repaired
           (quoted "{'a': [1, 2, ], 'b': {'c': ',]',}, }")
           (JDict [(txt "a", JList [JInt 1; JInt 2]);
                   (txt "b", JDict [(txt "c", JStr (txt ",]"))])]));
    reflexivity.
Defined.

(** An escaped quote in a string is unescaped before the commas are
    removed, after which the string ends early and the text is no longer
    JSON. *)
Lemma escaped_quote_breaks_repair :
  let raw := quoted "{'a':'\'',}" in
  loads_trailing_commas raw = Some (JDict [(txt "a", JStr [c_dquote])])
  /\ clean_json_text raw = quoted "{'a':'''}"
  /\ json_loads (clean_json_text raw) = None.
Proof. intros raw. repeat split. Qed.

End NormalizerFacts.

(** ** Dictionaries *)

Module PyDictFacts.
Import PyStr PyDict PyStrFacts.

Section Dict.
Context {V : Type}.
Implicit Types (d : dict V) (k : pystr) (v : V).

Lemma dict_get_set_same k v d : dict_get k (dict_set k v d) = Some v.
Proof.
  induction d as [|[k' v'] r IH]; simpl.
  - rewrite str_eqb_refl. reflexivity.
  - destruct (str_eqb k' k) eqn:E; simpl; rewrite E; auto.
Qed.

Lemma dict_get_set_other k k' v d :
  k <> k' -> dict_get k' (dict_set k v d) = dict_get k' d.
Proof.
  intros Hne. induction d as [|[k0 v0] r IH]; simpl.
  - destruct (str_eqb k k') eqn:E; [|reflexivity].
    apply str_eqb_eq in E. contradiction.
  - destruct (str_eqb k0 k) eqn:E; simpl.
    + apply str_eqb_eq in E. subst k0.
      destruct (str_eqb k k') eqn:E'; [|reflexivity].
      apply str_eqb_eq in E'. contradiction.
    + rewrite IH. reflexivity.
Qed.

Lemma dict_get_None_keys k d : dict_get k d = None <-> ~ In k (keys d).
Proof.
  induction d as [|[k' v'] r IH]; simpl.
  - tauto.
  - destruct (str_eqb k' k) eqn:E.
    + apply str_eqb_eq in E. split; [discriminate | tauto].
    + apply str_eqb_neq in E. rewrite IH. tauto.
Qed.

(** Assigning to a key that is present keeps the keys as they are; a new
    key goes to the end. *)
Lemma keys_dict_set k v d :
  keys (dict_set k v d)
  = keys d ++ match dict_get k d with Some _ => [] | None => [k] end.
Proof.
  induction d as [|[k' v'] r IH]; simpl; [reflexivity|].
  destruct (str_eqb k' k) eqn:E; simpl.
  - rewrite app_nil_r. reflexivity.
  - rewrite IH. reflexivity.
Qed.

Lemma keys_dict_set_NoDup k v d : NoDup (keys d) -> NoDup (keys (dict_set k v d)).
Proof.
  intros H. rewrite keys_dict_set. destruct (dict_get k d) eqn:E.
  - rewrite app_nil_r. exact H.
  - apply dict_get_None_keys in E.
    apply NoDup_app; [exact H | repeat constructor; simpl; tauto |].
    intros x Hx [<-|[]]. contradiction.
Qed.

Lemma keys_dict_update d pairs :
  exists more, keys (dict_update d pairs) = keys d ++ more.
Proof.
  revert d. induction pairs as [|[k v] r IH]; intros d.
  - exists []. rewrite app_nil_r. reflexivity.
  - destruct (IH (dict_set k v d)) as [more E].
    change (dict_update d ((k, v) :: r)) with (dict_update (dict_set k v d) r).
    rewrite E, keys_dict_set, <- app_assoc. eexists. reflexivity.
Qed.

Lemma keys_dict_update_NoDup d pairs :
  NoDup (keys d) -> NoDup (keys (dict_update d pairs)).
Proof.
  revert d. induction pairs as [|[k v] r IH]; intros d H; [exact H|].
  change (dict_update d ((k, v) :: r)) with (dict_update (dict_set k v d) r).
  apply IH. apply keys_dict_set_NoDup. exact H.
Qed.

(** Reading a key after a series of assignments gives the value of the
    last assignment to it. *)
Lemma dict_get_update k d pairs :
  dict_get k (dict_update d pairs)
  = match last_assigned k pairs with
    | Some v => Some v
    | None => dict_get k d
    end.
Proof.
  revert d. induction pairs as [|[k' v'] r IH]; intros d.
  - reflexivity.
  - change (dict_update d ((k', v') :: r))
      with (dict_update (dict_set k' v' d) r).
    rewrite IH. simpl.
    destruct (last_assigned k r); [reflexivity|].
    destruct (str_eqb k' k) eqn:E.
    + apply str_eqb_eq in E. subst. apply dict_get_set_same.
    + apply str_eqb_neq in E. apply dict_get_set_other. exact E.
Qed.

Lemma In_dict_get k v d :
  NoDup (keys d) -> (In (k, v) d <-> dict_get k d = Some v).
Proof.
  induction d as [|[k' v'] r IH]; simpl; intros H.
  - split; [tauto | discriminate].
  - inversion H as [|? ? Hnotin Hr]; subst.
    destruct (str_eqb k' k) eqn:E.
    + apply str_eqb_eq in E. subst k'. split.
      * intros [Heq | Hin]; [congruence|].
        exfalso. apply Hnotin. apply (in_map fst) in Hin. exact Hin.
      * intros Heq. left. congruence.
    + apply str_eqb_neq in E. rewrite <- (IH Hr). split.
      * intros [Heq | Hin]; [congruence | exact Hin].
      * tauto.
Qed.

Lemma last_assigned_In k v (pairs : list (pystr * V)) :
  last_assigned k pairs = Some v -> In (k, v) pairs.
Proof.
  induction pairs as [|[k' v'] r IH]; [discriminate|].
  cbn [last_assigned]. destruct (last_assigned k r) as [v1|].
  - intros H. injection H as ->. right. apply IH. reflexivity.
  - destruct (str_eqb k' k) eqn:E; [|discriminate].
    apply str_eqb_eq in E. intros H. injection H as ->. left. congruence.
Qed.

(** The items of a dictionary built by assignments: one per key, holding
    the value assigned last. *)
Lemma In_dict_of_pairs k v pairs :
  In (k, v) (dict_of_pairs pairs) <-> last_assigned k pairs = Some v.
Proof.
  unfold dict_of_pairs.
  rewrite In_dict_get by (apply keys_dict_update_NoDup; constructor).
  rewrite dict_get_update. simpl.
  destruct (last_assigned k pairs); split; congruence.
Qed.

End Dict.

End PyDictFacts.

(** ** The packager and the file set *)

Module PackagerFacts.
Import PyStr PyDict Packager Zipfile Wizard PyStrFacts PyDictFacts.
Local Open Scope N_scope.

(** The archive gets the items of the mapping, in order and unchanged. *)
Lemma written_members (files : dict content) (zf : archive) :
  fold_left
    (fun zf entry =>
       match entry with
       | (name, Text s) => Packager.writestr zf name (Text s)
       | (name, Bytes b) => Packager.writestr zf name (Bytes b)
       end) files zf
  = zf ++ files.
Proof.
  revert zf. induction files as [|[n c] r IH]; intros zf; simpl.
  - rewrite app_nil_r. reflexivity.
  - destruct c; rewrite IH; unfold Packager.writestr; rewrite <- app_assoc;
      reflexivity.
Qed.

Lemma zip_project_eq (fs : filesystem) (files : dict content) :
  Packager.zip_project fs files = (write_zip fs zip_path files, zip_path).
Proof. unfold Packager.zip_project. rewrite written_members. reflexivity. Qed.

(** The file set is the dictionary made by its assignments. *)
Lemma assemble_files_update ed code uploaded :
  assemble_files ed code uploaded
  = dict_update [ (txt "generated_app.py", Text code);
                  (txt "README.md", Text (readme ed)) ]
      (List.map (fun f => (sf_name f, Bytes (sf_bytes f))) uploaded).
Proof.
  unfold assemble_files, dict_update.
  generalize [(txt "generated_app.py", Text code);
              (txt "README.md", Text (readme ed))].
  induction uploaded as [|f r IH]; intros d; simpl; [reflexivity|].
  apply IH.
Qed.

Lemma assemble_files_insertions ed code uploaded :
  assemble_files ed code uploaded = dict_of_pairs (insertions ed code uploaded).
Proof.
  rewrite assemble_files_update.
  unfold insertions, dict_of_pairs, dict_update.
  rewrite fold_left_app. reflexivity.
Qed.

(** *** Names and texts that zipfile stores as they are *)

Lemma until_nul_id (name : pystr) :
  forallb (fun c => negb (c =? 0)) name = true -> until_nul name = name.
Proof.
  induction name as [|c r IH]; [reflexivity|]. cbn [forallb until_nul].
  intros H. apply andb_true_iff in H as [Hc Hr].
  destruct (c =? 0); [discriminate|]. rewrite (IH Hr). reflexivity.
Qed.

Lemma slashes_id (os : platform) (name : pystr) :
  forallb (fun c => negb (c =? os_sep os) || (c =? 47)) name = true ->
  slashes os name = name.
Proof.
  induction name as [|c r IH]; [reflexivity|]. cbn [forallb slashes List.map].
  intros H. apply andb_true_iff in H as [Hc Hr].
  fold (slashes os r). rewrite (IH Hr). f_equal.
  destruct (c =? os_sep os); [|reflexivity].
  cbn in Hc. apply N.eqb_eq in Hc. symmetry. exact Hc.
Qed.

Lemma forallb_and3 (f g h : char -> bool) (s : pystr) :
  forallb (fun c => f c && g c && h c) s
  = forallb f s && forallb g s && forallb h s.
Proof.
  induction s as [|c r IH]; [reflexivity|]. cbn [forallb]. rewrite IH.
  destruct (f c), (g c), (h c), (forallb f r), (forallb g r); reflexivity.
Qed.

Lemma stored_as_given_facts (os : platform) (name : pystr) :
  stored_as_given os name = true ->
  ZipInfo_filename os name = name /\ name <> []
  /\ encodes name = true /\ (utf8_length name <=? 65535) = true.
Proof.
  unfold stored_as_given. destruct name as [|c r]; [discriminate|].
  intros H. apply andb_true_iff in H as [H L].
  rewrite (forallb_and3 (fun c => negb (c =? 0)) (fun c => negb (surrogate c))
             (fun c => negb (c =? os_sep os) || (c =? 47))) in H.
  apply andb_true_iff in H as [H H3]. apply andb_true_iff in H as [H1 H2].
  unfold ZipInfo_filename. rewrite (until_nul_id _ H1), (slashes_id _ _ H3).
  split; [reflexivity|]. split; [discriminate|]. split; [exact H2 | exact L].
Qed.

(** Such an entry is written as it is, *)
Lemma writestr_storable (os : platform) (zf : archive) (name : pystr)
    (data : content) :
  storable os (name, data) = true ->
  Zipfile.writestr os zf name data = Some (Packager.writestr zf name data).
Proof.
  unfold storable. cbn [fst snd]. intros H.
  apply andb_true_iff in H as [Hn Hd].
  destruct (stored_as_given_facts _ _ Hn) as (E & Hne & He & Hl).
  unfold Zipfile.writestr. rewrite Hd, E.
  destruct name as [|c r]; [contradiction Hne; reflexivity|].
  rewrite He, Hl. reflexivity.
Qed.

(** and a mapping of such entries is written as the loop of [zip_project]
    goes through it, without an exception. *)
Lemma write_items_storable (os : platform) (items : list (pystr * content))
    (zf : archive) :
  forallb (storable os) items = true ->
  write_items os zf items = (zf ++ items, true).
Proof.
  revert zf. induction items as [|[name c] r IH]; intros zf H.
  - cbn. rewrite app_nil_r. reflexivity.
  - cbn [forallb] in H. apply andb_true_iff in H as [Hc Hr].
    cbn [write_items].
    assert (E : match c with
                | Text s => Zipfile.writestr os zf name (Text s)
                | Bytes b => Zipfile.writestr os zf name (Bytes b)
                end = Some (zf ++ [(name, c)])).
    { destruct c; apply (writestr_storable _ zf _ _ Hc). }
    rewrite E, (IH _ Hr), <- app_assoc. reflexivity.
Qed.

Lemma zip_project_storable (os : platform) (fs : filesystem)
    (files : dict content) :
  forallb (storable os) files = true ->
  Zipfile.zip_project os fs files
  = (fst (Packager.zip_project fs files),
     Some (snd (Packager.zip_project fs files))).
Proof.
  intros H. rewrite zip_project_eq. unfold Zipfile.zip_project.
  rewrite (write_items_storable _ _ [] H). reflexivity.
Qed.

Lemma fixed_names_storable (os : platform) :
  stored_as_given os (txt "generated_app.py") = true
  /\ stored_as_given os (txt "README.md") = true
  /\ forall ed, encodes (readme ed) = true.
Proof.
  split; [destruct os; reflexivity|]. split; [destruct os; reflexivity|].
  intros []; reflexivity.
Qed.

(** The file set of the wizard is one, when the generated code can be
    encoded and the names of the uploads are stored as they are. *)
Lemma assemble_files_storable (os : platform) ed code uploaded :
  encodes code = true ->
  forallb (fun f => stored_as_given os (sf_name f)) uploaded = true ->
  forallb (storable os) (assemble_files ed code uploaded) = true.
Proof.
  intros Hc Hu. apply forallb_forall. intros [name c] Hin.
  rewrite assemble_files_insertions in Hin.
  apply In_dict_of_pairs, last_assigned_In in Hin.
  destruct (fixed_names_storable os) as (N1 & N2 & R).
  unfold insertions in Hin. apply in_app_or in Hin as [Hin | Hin].
  - destruct Hin as [E | [E | []]]; injection E as <- <-; unfold storable;
      cbn [fst snd]; [rewrite N1, Hc | rewrite N2, R]; reflexivity.
  - apply in_map_iff in Hin as (f & E & Hf). injection E as <- <-.
    unfold storable. cbn [fst snd]. rewrite andb_true_r.
    rewrite forallb_forall in Hu. exact (Hu f Hf).
Qed.

(** A name with a null byte is cut there, so that an entry is not stored
    under its name and two entries can end under one name; a text with a
    lone surrogate makes the write raise, and the archive is left with
    the entries before it. *)
Lemma zip_project_alters_names :
  let a0b := [97; 0; 98] in
  let a0c := [97; 0; 99] in
  let files := [ (a0b, Bytes [Byte.x41]); (a0c, Bytes [Byte.x42]) ] in
  let later := [ (txt "a.txt", Bytes [Byte.x41]); (txt "b.py", Text [55296]);
                 (txt "c.txt", Bytes [Byte.x43]) ] in
  NoDup (keys files)
  /\ Zipfile.zip_project Posix no_files files
     = (write_zip no_files zip_path
          [ (txt "a", Bytes [Byte.x41]); (txt "a", Bytes [Byte.x42]) ],
        Some zip_path)
  /\ fst (Zipfile.zip_project Posix no_files files)
         (txt "generated_project.zip") <> Some files
  /\ NoDup (keys later)
  /\ Zipfile.zip_project Posix no_files later
     = (write_zip no_files zip_path [ (txt "a.txt", Bytes [Byte.x41]) ], None).
Proof.
  intros a0b a0c files later.
  split; [repeat constructor; cbn; intuition discriminate|].
  split; [reflexivity|]. split; [cbn; discriminate|].
  split; [repeat constructor; cbn; intuition discriminate | reflexivity].
Qed.

(** C6.  For a mapping whose names zipfile stores as they are (not empty,
    without a null byte or a surrogate, without the separator of the
    platform unless it is the slash, at most 65535 bytes in UTF-8) and
    whose texts hold no surrogate, [zip_project] returns the fixed path
    [generated_project.zip]; after it that path holds an archive whose
    members are exactly the entries of the mapping, unchanged and in
    order, whatever the path held before, and no other file is touched.
    For the file set of the wizard, with such upload names and generated
    code, a name assigned several times while the set was built is
    packaged once, with the content assigned last. *)
Theorem zip_project_packages_file_set (os : platform) :
  (forall (fs : filesystem) (files : dict content),
      forallb (storable os) files = true ->
      snd (Zipfile.zip_project os fs files) = Some (txt "generated_project.zip")
      /\ fst (Zipfile.zip_project os fs files) (txt "generated_project.zip")
         = Some files
      /\ forall p, p <> txt "generated_project.zip" ->
                   fst (Zipfile.zip_project os fs files) p = fs p)
  /\ (forall (fs : filesystem) ed code uploaded,
        encodes code = true ->
        forallb (fun f => stored_as_given os (sf_name f)) uploaded = true ->
        exists zf,
          fst (Zipfile.zip_project os fs (assemble_files ed code uploaded))
              (txt "generated_project.zip") = Some zf
          /\ snd (Zipfile.zip_project os fs (assemble_files ed code uploaded))
             = Some (txt "generated_project.zip")
          /\ NoDup (List.map fst zf)
          /\ forall name c,
               In (name, c) zf
               <-> last_assigned name (insertions ed code uploaded) = Some c).
Proof.
  split.
  - intros fs files S. rewrite (zip_project_storable _ fs _ S), zip_project_eq.
    cbn [fst snd]. change (txt "generated_project.zip") with zip_path.
    unfold write_zip. rewrite str_eqb_refl.
    split; [reflexivity|]. split; [reflexivity|].
    intros p Hp. destruct (str_eqb p zip_path) eqn:E; [|reflexivity].
    apply str_eqb_eq in E. contradiction.
  - intros fs ed code uploaded Hc Hu.
    exists (assemble_files ed code uploaded).
    rewrite (zip_project_storable _ fs _
               (assemble_files_storable os ed code uploaded Hc Hu)),
      zip_project_eq.
    cbn [fst snd]. change (txt "generated_project.zip") with zip_path.
    unfold write_zip. rewrite str_eqb_refl. split; [reflexivity|].
    split; [reflexivity|].
    rewrite assemble_files_insertions. split.
    + apply (keys_dict_update_NoDup (V := content)). constructor.
    + intros name c. apply In_dict_of_pairs.
Qed.

Lemma zip_project_packages_file_set_witness :
  let up := [ {| sf_name := txt "README.md"; sf_type := txt "text/markdown";
                 sf_bytes := [Byte.x41] |};
              {| sf_name := txt "README.md"; sf_type := txt "text/markdown";
                 sf_bytes := [Byte.x42] |} ] in
  forallb (storable Posix) (assemble_files Recog5 (txt "pass") up) = true
  /\ fst (Zipfile.zip_project Posix no_files
            (assemble_files Recog5 (txt "pass") up))
         (txt "generated_project.zip")
     = Some [ (txt "generated_app.py", Text (txt "pass"));
              (txt "README.md", Bytes [Byte.x42]) ].
Proof.
  intros up. split; [reflexivity|].
  destruct (zip_project_packages_file_set Posix) as [H _].
  destruct (H no_files (assemble_files Recog5 (txt "pass") up) eq_refl)
    as [_ [E _]].
  rewrite E. reflexivity.
Defined.

End PackagerFacts.

(** ** The wizard *)

Module WizardFacts.
Import PyStr PyDict Json Normalizer Packager Wizard.
Import PyStrFacts PyDictFacts PackagerFacts.

(** Case analysis on whatever the script branches on. *)
Ltac branch :=
  match goal with
  | |- context [match ?x with _ => _ end] => destruct x eqn:?
  | |- context [if ?x then _ else _] => destruct x eqn:?
  end.

(** Choose the alternative of a disjunction that the facts at hand prove. *)
Ltac close_case :=
  solve [ repeat esplit; eauto; intros; try discriminate; try congruence ].
Ltac pick := first [ close_case | left; close_case | right; pick ].

Ltac settle :=
  repeat split; intros; cbn in *; try congruence; auto 6; try pick.

Ltac unfold_script :=
  unfold run, right_column, planning_phase, designing_phase, finalize_phase,
    generate_phase, request_json, confirm_response, left_column, out in *.

Lemma button_eqb_eq (a b : button) : button_eqb a b = true <-> a = b.
Proof. destruct a, b; simpl; split; congruence. Qed.

Lemma clicked_eq (i : input) (b : button) :
  clicked i b = true <-> in_clicked i = Some b.
Proof.
  unfold clicked. destruct (in_clicked i) as [b'|].
  - rewrite button_eqb_eq. split; congruence.
  - split; discriminate.
Qed.

Lemma store_uploads_phase s up : the_phase (store_uploads s up) = the_phase s.
Proof. destruct up; reflexivity. Qed.

Lemma store_uploads_planning s up :
  planning_response (store_uploads s up) = planning_response s.
Proof. destruct up; reflexivity. Qed.

Lemma store_uploads_design s up :
  design_response (store_uploads s up) = design_response s.
Proof. destruct up; reflexivity. Qed.

Lemma store_uploads_code s up :
  generated_code (store_uploads s up) = generated_code s
  /\ project_files (store_uploads s up) = project_files s.
Proof. destruct up; split; reflexivity. Qed.

(** What the left column leaves of the session it was given: it resets
    it, or it only takes the inputs in, moving from [collect] to
    [planning] on the start button. *)
Lemma left_column_cases ed s i s1 ev rerun :
  left_column ed s i = (s1, ev, rerun) ->
  let s0 := store_uploads (set_inputs ed s i) (in_uploaded i) in
  (s1 = s0 /\ rerun = false)
  \/ (s1 = set_phase s0 planning /\ rerun = true /\ the_phase s = collect
      /\ in_clicked i = Some StartPlanning)
  \/ (s1 = defaults /\ rerun = true /\ the_phase s <> collect
      /\ in_clicked i = Some ResetProject).
Proof.
  intros H s0. unfold left_column in H.
  assert (Hp : the_phase s0 = the_phase s)
    by (unfold s0; rewrite store_uploads_phase; reflexivity).
  fold s0 in H. rewrite Hp in H.
  destruct (the_phase s) eqn:P;
    [destruct (clicked i StartPlanning) eqn:C
    |destruct (clicked i ResetProject) eqn:C ..];
    inversion H; subst; clear H;
    try (apply clicked_eq in C);
    auto 10; right; right; repeat split; auto; congruence.
Qed.

(** What the right column does to the session: nothing, the caching of
    a response, the storing of the generated code and file set, the move
    to the next phase on its confirm button, or the reset. *)
Lemma right_column_cases ed s fs i :
  let o := right_column ed s fs i in
  let s' := sess (after o) in
  s' = s
  \/ (the_phase s = planning /\ truthy (planning_response s) = false
      /\ exists v, s' = set_planning_response s v)
  \/ (the_phase s = designing /\ truthy (design_response s) = false
      /\ exists v, s' = set_design_response s v)
  \/ (the_phase s = generate /\ code_missing s = true /\ ctl o = Rerun
      /\ exists code, stripped_reply i = inl code
           /\ (ed = Recog4 -> code <> [])
           /\ s' = set_generated s code
                     (assemble_files ed code (uploaded_files s)))
  \/ (the_phase s = planning /\ truthy (planning_response s) = true
      /\ renders (planning_response s) = true
      /\ in_clicked i = Some ConfirmPlanning /\ s' = set_phase s designing)
  \/ (the_phase s = designing /\ truthy (design_response s) = true
      /\ renders (design_response s) = true
      /\ in_clicked i = Some ConfirmDesign /\ s' = set_phase s finalize)
  \/ (the_phase s = finalize
      /\ in_clicked i = Some GenerateProject /\ s' = set_phase s generate)
  \/ (the_phase s = generate /\ code_missing s = false
      /\ in_clicked i = Some StartNewProject /\ s' = defaults).
Proof.
  intros o s'. subst s' o. unfold_script.
  destruct (the_phase s) eqn:P; cbn [after sess shown ctl].
  - auto.
  - destruct (truthy (planning_response s)) eqn:T; cbn [negb].
    + destruct (renders (planning_response s)) eqn:R; [|auto].
      destruct (clicked i ConfirmPlanning) eqn:C; [|auto].
      apply clicked_eq in C. cbn. pick.
    + repeat branch; cbn; pick.
  - destruct (truthy (design_response s)) eqn:T; cbn [negb].
    + destruct (renders (design_response s)) eqn:R; [|auto].
      destruct (clicked i ConfirmDesign) eqn:C; [|auto].
      apply clicked_eq in C. cbn. pick.
    + repeat branch; cbn; pick.
  - destruct (has_get (planning_response s) && has_get (design_response s));
      [|auto].
    destruct (clicked i GenerateProject) eqn:C; [|auto].
    apply clicked_eq in C. cbn. pick.
  - destruct (code_missing s) eqn:M.
    + destruct (stripped_reply i) as [code|e] eqn:R; [|auto].
      destruct ed; destruct code as [|c code']; cbn; pick.
    + destruct (zip_project fs (project_files s)) as [fs' zp].
      destruct (clicked i StartNewProject) eqn:C; [|auto].
      apply clicked_eq in C. cbn. pick.
Qed.

Lemma entering_fields ed s i :
  let s0 := store_uploads (set_inputs ed s i) (in_uploaded i) in
  the_phase s0 = the_phase s
  /\ planning_response s0 = planning_response s
  /\ design_response s0 = design_response s
  /\ generated_code s0 = generated_code s
  /\ project_files s0 = project_files s.
Proof. destruct (in_uploaded i); repeat split; reflexivity. Qed.

(** The session a run ends with, by what the two columns did. *)
Lemma run_session ed w i :
  let s0 := store_uploads (set_inputs ed (sess w) i) (in_uploaded i) in
  let s' := sess (after (run ed w i)) in
  (in_api_key i = [] /\ s' = sess w)
  \/ (in_api_key i <> []
      /\ ((s' = set_phase s0 planning /\ the_phase (sess w) = collect
           /\ in_clicked i = Some StartPlanning)
          \/ (s' = defaults /\ the_phase (sess w) <> collect
              /\ in_clicked i = Some ResetProject)
          \/ s' = sess (after (right_column ed s0 (disk w) i)))).
Proof.
  intros s0 s'. subst s'. unfold run.
  destruct (in_api_key i) eqn:K; [left; split; reflexivity|].
  right. split; [discriminate|].
  destruct (left_column ed (sess w) i) as [[s1 ev] r] eqn:L.
  apply left_column_cases in L. fold s0 in L.
  destruct L as [[-> ->] | [(-> & -> & P & C) | (-> & -> & P & C)]];
    cbn; auto.
Qed.

(** C4.  In one run the phase stays, or moves to the next phase of
    collect, planning, designing, finalize, generate on the click of the
    button that leaves the current one, or the whole session is reset to
    its defaults (phase collect).  Planning is left for designing only
    when a planning response was cached and rendered and the confirm
    button was clicked; from generate the only phase reached besides
    generate itself is collect, by the full reset. *)
Theorem phase_transitions (ed : edition) (w : world) (i : input) :
  let s := sess w in
  let s' := sess (after (run ed w i)) in
  (the_phase s' = the_phase s
   \/ (rank (the_phase s') = S (rank (the_phase s))
       /\ in_clicked i = advance_button (the_phase s))
   \/ (s' = defaults /\ the_phase s <> collect
       /\ (in_clicked i = Some ResetProject
           \/ in_clicked i = Some StartNewProject)))
  /\ (the_phase s = planning -> the_phase s' = designing ->
      truthy (planning_response s) = true
      /\ renders (planning_response s) = true
      /\ in_clicked i = Some ConfirmPlanning)
  /\ (the_phase s = generate -> the_phase s' = generate \/ s' = defaults).
Proof.
  intros s s'.
  destruct (entering_fields ed s i) as (P0 & R0 & D0 & _).
  destruct (run_session ed w i) as [[_ E] | [_ [ (E & P & C) | [ (E & P & C) | E]]]];
    fold s' in E; fold s in E.
  - rewrite E. settle.
  - rewrite E. fold s in P. cbn [the_phase set_phase]. rewrite P. settle.
  - rewrite E. fold s in P. settle.
  - destruct (right_column_cases ed
                (store_uploads (set_inputs ed s i) (in_uploaded i)) (disk w) i)
      as [H | [(P & T & v & H) | [(P & T & v & H) | [(P & M & _ & c & _ & _ & H)
         | [(P & T & R & C & H) | [(P & T & R & C & H) | [(P & C & H)
         | (P & M & C & H)]]]]]]];
      rewrite <- E in H; rewrite H; clear H E;
      rewrite ?P0, ?R0, ?D0 in *; cbn [the_phase set_phase set_planning_response
        set_design_response set_generated]; rewrite ?P0;
      try rewrite P; settle.
Qed.

Lemma phase_transitions_witness :
  let plan := JDict [(txt "plan_text", JStr (txt "p"))] in
  let w := {| sess := set_planning_response (set_phase defaults planning) plan;
              disk := no_files |} in
  let i := {| in_api_key := txt "k"; in_user_text := []; in_line_range := [];
              in_uploaded := []; in_clicked := Some ConfirmPlanning;
              in_reply := ReplyRaises |} in
  the_phase (sess w) = planning
  /\ the_phase (sess (after (run Recog5 w i))) = designing
  /\ truthy (planning_response (sess w)) = true
  /\ in_clicked i = Some ConfirmPlanning.
Proof.
  intros plan w i.
  destruct (phase_transitions Recog5 w i) as (_ & H & _).
  destruct (H eq_refl eq_refl) as (T & _ & C).
  split; [reflexivity|]. split; [reflexivity|]. split; [exact T | exact C].
Defined.

(** A run that gets past the left column. *)
Lemma run_right_column ed w i :
  in_api_key i <> [] ->
  the_phase (sess w) <> collect ->
  in_clicked i <> Some ResetProject ->
  let s0 := store_uploads (set_inputs ed (sess w) i) (in_uploaded i) in
  let o := right_column ed s0 (disk w) i in
  exists ev,
    run ed w i = {| after := after o; shown := ev ++ shown o; ctl := ctl o |}
    /\ forall e, In e ev ->
         (exists m, e = StMarkdown m) \/ e = StButton ResetProject.
Proof.
  intros K P C s0 o. unfold run.
  destruct (in_api_key i); [contradiction K; reflexivity|].
  unfold left_column. fold s0.
  destruct (entering_fields ed (sess w) i) as (P0 & _). fold s0 in P0.
  rewrite P0.
  assert (Hc : clicked i ResetProject = false).
  { destruct (clicked i ResetProject) eqn:E; [|reflexivity].
    apply clicked_eq in E. contradiction. }
  rewrite Hc.
  destruct (the_phase (sess w)); [contradiction P; reflexivity|..].
  all: eexists; split; [reflexivity|].
  all: intros e He; apply in_app_or in He as [He | [<- | []]]; auto.
  all: destruct (uploaded_files s0); [destruct He|].
  all: destruct He as [<- | []]; left; eexists; reflexivity.
Qed.

(** ** The file set and the uploads *)

Lemma assemble_files_fixed_entries ed code uploaded :
  has_fixed_entries (assemble_files ed code uploaded).
Proof.
  unfold has_fixed_entries. rewrite assemble_files_update.
  destruct (keys_dict_update
              [(txt "generated_app.py", Text code);
               (txt "README.md", Text (readme ed))]
              (List.map (fun f => (sf_name f, Bytes (sf_bytes f))) uploaded))
    as [more E].
  exists more. exact E.
Qed.

(** C9.  When the generation step succeeds, the session stores the code
    and the file set assembled from it.  That file set starts with the
    entries [generated_app.py] and [README.md]; the stored uploads are
    assigned after them, so that reading a name gives the bytes of the
    last upload of that name, and otherwise the fixed entry of that name.
    Every later run keeps the two names in the stored file set. *)
Theorem generated_file_set (ed : edition) :
  (forall s fs i code,
      code_missing s = true ->
      stripped_reply i = inl code ->
      (ed = Recog4 -> code <> []) ->
      let s' := sess (after (generate_phase ed s fs i)) in
      generated_code s' = Some code
      /\ project_files s' = assemble_files ed code (uploaded_files s))
  /\ (forall code uploaded,
        has_fixed_entries (assemble_files ed code uploaded)
        /\ forall n,
             dict_get n (assemble_files ed code uploaded)
             = match last_assigned n
                       (List.map (fun f => (sf_name f, Bytes (sf_bytes f)))
                          uploaded) with
               | Some c => Some c
               | None =>
                   dict_get n [ (txt "generated_app.py", Text code);
                                (txt "README.md", Text (readme ed)) ]
               end)
  /\ (forall w i,
        (generated_code (sess w) <> None ->
         has_fixed_entries (project_files (sess w))) ->
        generated_code (sess (after (run ed w i))) <> None ->
        has_fixed_entries (project_files (sess (after (run ed w i))))).
Proof.
  split; [|split].
  - intros s fs i code M R Hne s'. subst s'. unfold generate_phase.
    rewrite M, R. destruct ed, code; cbn; auto.
    exfalso. apply Hne; reflexivity.
  - intros code uploaded. split; [apply assemble_files_fixed_entries|].
    intros n. rewrite assemble_files_update. apply dict_get_update.
  - intros w i Inv.
    destruct (entering_fields ed (sess w) i) as (_ & _ & _ & G0 & F0).
    destruct (run_session ed w i)
      as [[_ E] | [_ [ (E & _) | [ (E & _) | E]]]]; rewrite E; clear E.
    + exact Inv.
    + cbn [generated_code project_files set_phase]. rewrite G0, F0. exact Inv.
    + cbn. congruence.
    + destruct (right_column_cases ed
                  (store_uploads (set_inputs ed (sess w) i) (in_uploaded i))
                  (disk w) i)
        as [H | [(_ & _ & v & H) | [(_ & _ & v & H) | [(_ & _ & _ & c & _ & _ & H)
           | [(_ & _ & _ & _ & H) | [(_ & _ & _ & _ & H) | [(_ & _ & H)
           | (_ & _ & _ & H)]]]]]]];
        rewrite H; clear H;
        cbn [generated_code project_files set_phase set_planning_response
               set_design_response set_generated];
        rewrite ?G0, ?F0; try exact Inv.
      * intros _. apply assemble_files_fixed_entries.
      * cbn. congruence.
Qed.

Lemma generated_file_set_witness :
  let up := {| sf_name := txt "README.md"; sf_type := txt "text/markdown";
               sf_bytes := [Byte.x41] |} in
  let s := set_uploaded_files (set_phase defaults generate) [up] in
  let i := {| in_api_key := txt "k"; in_user_text := []; in_line_range := [];
              in_uploaded := []; in_clicked := None;
              in_reply := ReplyText (Some (txt "pass")) |} in
  project_files (sess (after (generate_phase Recog4 s no_files i)))
  = [ (txt "generated_app.py", Text (txt "pass"));
      (txt "README.md", Bytes [Byte.x41]) ].
Proof.
  intros up s i.
  destruct (generated_file_set Recog4) as (H & _).
  destruct (H s no_files i (txt "pass") eq_refl eq_refl) as [_ E].
  - discriminate.
  - rewrite E. reflexivity.
Defined.

(** C10.  A run whose uploader holds files stores exactly these files
    (name, declared type, bytes read), whatever list was stored before:
    the handler assigns the list, and the run ends with it unless the run
    resets the session. *)
Theorem upload_replaces_stored_files (ed : edition) (w : world) (i : input) :
  in_uploaded i <> [] ->
  (forall s, uploaded_files (store_uploads s (in_uploaded i))
             = List.map describe (in_uploaded i))
  /\ (in_api_key i <> [] ->
      let s' := sess (after (run ed w i)) in
      s' = defaults
      \/ uploaded_files s' = List.map describe (in_uploaded i)).
Proof.
  intros U.
  assert (S0 : forall s, uploaded_files (store_uploads s (in_uploaded i))
                         = List.map describe (in_uploaded i)).
  { intros s. destruct (in_uploaded i); [contradiction U|]; reflexivity. }
  split; [exact S0|].
  intros K s'. subst s'.
  destruct (run_session ed w i)
    as [[K' _] | [_ [ (E & _) | [ (E & _) | E]]]]; [contradiction | ..];
    rewrite E; clear E.
  - right. cbn [uploaded_files set_phase]. apply S0.
  - left. reflexivity.
  - destruct (right_column_cases ed
                (store_uploads (set_inputs ed (sess w) i) (in_uploaded i))
                (disk w) i)
      as [H | [(_ & _ & v & H) | [(_ & _ & v & H) | [(_ & _ & _ & c & _ & _ & H)
         | [(_ & _ & _ & _ & H) | [(_ & _ & _ & _ & H) | [(_ & _ & H)
         | (_ & _ & _ & H)]]]]]]];
      rewrite H; clear H; auto;
      right; cbn [uploaded_files set_phase set_planning_response
                    set_design_response set_generated]; apply S0.
Qed.

Lemma upload_replaces_stored_files_witness :
  let old := {| sf_name := txt "a.txt"; sf_type := txt "text/plain";
                sf_bytes := [Byte.x61] |} in
  let f := {| name := txt "b.md"; type := txt "text/markdown";
              read := [Byte.x62] |} in
  let w := {| sess := set_uploaded_files defaults [old]; disk := no_files |} in
  let i := {| in_api_key := txt "k"; in_user_text := []; in_line_range := [];
              in_uploaded := [f]; in_clicked := None;
              in_reply := ReplyRaises |} in
  uploaded_files (sess (after (run Recog5 w i)))
  = [ {| sf_name := txt "b.md"; sf_type := txt "text/markdown";
         sf_bytes := [Byte.x62] |} ].
Proof.
  intros old f w i.
  destruct (upload_replaces_stored_files Recog5 w i) as [_ H].
  - discriminate.
  - destruct H as [H | H].
    + discriminate.
    + discriminate H.
    + exact H.
Defined.

(** ** The display of a failed parse *)

Lemma stripped_reply_text i t :
  in_reply i = ReplyText (Some t) -> stripped_reply i = inl (py_strip t).
Proof. unfold stripped_reply. intros ->. reflexivity. Qed.

Lemma parse_failure_nonempty raw doc :
  parse_gemini_json raw = inr (JSONDecodeError doc) -> raw <> [].
Proof. intros H ->. discriminate H. Qed.

(** The right column of a phase that awaits its response is its request. *)
Lemma right_column_request ed p s fs i :
  awaits_response p s ->
  right_column ed s fs i
  = let o := request_json ed p (retry_button p)
               (match p with
                | designing => set_design_response
                | _ => set_planning_response
                end) s fs i in
    {| after := after o; shown := StInfo (CurrentPhase p) :: shown o;
       ctl := ctl o |}.
Proof.
  intros [P A]. unfold right_column. rewrite P.
  destruct p; try contradiction.
  - unfold planning_phase. rewrite A. reflexivity.
  - destruct A as [A G]. unfold designing_phase. rewrite A, G. reflexivity.
Qed.

Lemma awaits_response_entering ed p s i :
  awaits_response p s ->
  awaits_response p (store_uploads (set_inputs ed s i) (in_uploaded i)).
Proof.
  destruct (entering_fields ed s i) as (P0 & R0 & D0 & _).
  unfold awaits_response. rewrite P0, R0, D0. tauto.
Qed.

(** C3.  What the two editions do when a parse fails after the repair, for
    a gateway text [t].  The exception carries the repaired text, not [t].
    In recog4.py the run shows the error, the text that [call_gemini]
    returned, which is [t] without the white space around it ([st.code]),
    and the retry button of the phase; it stops, or reruns when that
    button was clicked, and the phase keeps waiting for its response.  In
    recog5.py the run shows the error message of the exception and stops:
    no text of the gateway and no retry button is shown, which is where
    recog5.py departs from the display that the claim describes. *)
Theorem failed_parse_display (w : world) (i : input) (p : phase)
    (t doc : pystr) :
  in_api_key i <> [] ->
  in_clicked i <> Some ResetProject ->
  awaits_response p (sess w) ->
  in_reply i = ReplyText (Some t) ->
  parse_gemini_json (py_strip t) = inr (JSONDecodeError doc) ->
  doc = clean_json_text (py_strip (py_strip t))
  /\ (let o := run Recog4 w i in
      In (StError InvalidJsonAfterRepair) (shown o)
      /\ In (StCode (py_strip t)) (shown o)
      /\ In (StButton (retry_button p)) (shown o)
      /\ (ctl o = Stopped
          \/ (ctl o = Rerun /\ in_clicked i = Some (retry_button p)))
      /\ awaits_response p (sess (after o)))
  /\ (let o := run Recog5 w i in
      In (StError (GatewayError p (ParseException (JSONDecodeError doc))))
         (shown o)
      /\ (forall text, ~ In (StCode text) (shown o))
      /\ ~ In (StButton (retry_button p)) (shown o)
      /\ ctl o = Stopped
      /\ awaits_response p (sess (after o))).
Proof.
  intros K C A R F.
  assert (Pne : the_phase (sess w) <> collect).
  { destruct A as [P A]. rewrite P. destruct p; try contradiction; discriminate. }
  assert (Hdoc : doc = clean_json_text (py_strip (py_strip t))).
  { unfold parse_gemini_json in F.
    destruct (py_strip (py_strip t)); [discriminate|].
    destruct (json_loads (c :: p0)); [discriminate|].
    destruct (json_loads (clean_json_text (c :: p0))); [discriminate|].
    congruence. }
  split; [exact Hdoc|].
  pose proof (parse_failure_nonempty F) as Hne.
  pose proof (stripped_reply_text i R) as SR.
  split.
  - intros o. subst o.
    destruct (run_right_column Recog4 w i K Pne C) as [ev [-> _]].
    rewrite (right_column_request Recog4 (p := p))
      by (apply awaits_response_entering; exact A).
    unfold request_json. rewrite SR, F.
    destruct (py_strip t) as [|c0 r0] eqn:St; [contradiction Hne; reflexivity|].
    pose proof (awaits_response_entering Recog4 i A) as A0.
    destruct (clicked i (retry_button p)) eqn:Cl; cbn;
      (split; [apply in_or_app; right; cbn; tauto|]);
      (split; [apply in_or_app; right; cbn; tauto|]);
      (split; [apply in_or_app; right; cbn; tauto|]).
    + apply clicked_eq in Cl. split; [right; split; [reflexivity|exact Cl]|].
      destruct A0 as [P0 A0]. split.
      * destruct p; try contradiction; exact P0.
      * destruct p; try contradiction; cbn; tauto.
    + split; [left; reflexivity|exact A0].
  - intros o. subst o.
    destruct (run_right_column Recog5 w i K Pne C) as [ev [-> Hev]].
    rewrite (right_column_request Recog5 (p := p))
      by (apply awaits_response_entering; exact A).
    unfold request_json. rewrite SR, F. cbn.
    pose proof (awaits_response_entering Recog5 i A) as A0.
    split; [apply in_or_app; right; cbn; tauto|].
    split; [|split; [|split; [reflexivity | exact A0]]].
    + intros text Hin. apply in_app_or in Hin as [Hin | Hin].
      * apply Hev in Hin as [[m Hm] | Hm]; discriminate.
      * cbn in Hin. intuition discriminate.
    + intros Hin. apply in_app_or in Hin as [Hin | Hin].
      * apply Hev in Hin as [[m Hm] | Hm]; [discriminate|].
        destruct p; discriminate.
      * cbn in Hin. intuition discriminate.
Qed.

Lemma failed_parse_display_witness :
  let w := {| sess := set_phase defaults planning; disk := no_files |} in
  let i := {| in_api_key := txt "k"; in_user_text := []; in_line_range := [];
              in_uploaded := []; in_clicked := None;
              in_reply := ReplyText (Some (txt " oops ")) |} in
  In (StCode (txt "oops")) (shown (run Recog4 w i))
  /\ ctl (run Recog5 w i) = Stopped.
Proof.
  intros w i.
  assert (A : awaits_response planning (sess w)) by (split; reflexivity).
  destruct (failed_parse_display w i (p := planning) (t := txt " oops ")
              (doc := txt "oops"))
    as (_ & (_ & H4 & _) & (_ & _ & _ & H5 & _));
    [discriminate | discriminate | exact A | reflexivity | reflexivity |].
  split; [exact H4 | exact H5].
Defined.

(** C3, the failing run.  In recog5.py a reply that is not JSON even after
    the repair is answered by one error message: the raw text and a retry
    button are not shown.  recog4.py shows both for the same reply. *)
Lemma recog5_hides_raw_text :
  let w := {| sess := set_phase defaults planning; disk := no_files |} in
  let i := {| in_api_key := txt "k"; in_user_text := []; in_line_range := [];
              in_uploaded := []; in_clicked := None;
              in_reply := ReplyText (Some (txt "oops")) |} in
  parse_gemini_json (txt "oops") = inr (JSONDecodeError (txt "oops"))
  /\ shown (run Recog5 w i)
     = [ StButton ResetProject; StInfo (CurrentPhase planning);
         GenerateContent planning;
         StError (GatewayError planning
                    (ParseException (JSONDecodeError (txt "oops")))) ]
  /\ ~ In (StCode (txt "oops")) (shown (run Recog5 w i))
  /\ ~ In (StButton RetryPlanning) (shown (run Recog5 w i))
  /\ In (StCode (txt "oops")) (shown (run Recog4 w i))
  /\ In (StButton RetryPlanning) (shown (run Recog4 w i)).
Proof.
  intros w i. split; [reflexivity|]. split; [reflexivity|].
  split; [cbn; intuition discriminate|].
  split; [cbn; intuition discriminate|].
  split; cbn; tauto.
Qed.

End WizardFacts.

(** ** The recognizers *)

Module RecognizerFacts.
Import PyStr Packager Recognizer PyStrFacts.

Lemma requests_app (a b : list event) : requests (a ++ b) = requests a ++ requests b.
Proof.
  induction a as [|e r IH]; simpl; [reflexivity|].
  destruct e; simpl; rewrite ?IH; reflexivity.
Qed.

(** A request is made once, with the contents it was given. *)
Lemma requests_ask (contents : list part) (a : reply) (first : list event) :
  (forall c, ~ In (GenerateContent c) first) ->
  requests (ask contents a first) = [contents].
Proof.
  intros H. unfold ask. simpl. f_equal. destruct a; [reflexivity|].
  rewrite requests_app. simpl. rewrite app_nil_r.
  induction first as [|e r IH]; [reflexivity|].
  destruct e; simpl; try (apply IH; intros c Hc; apply (H c); right; exact Hc).
  exfalso. apply (H contents0). left. reflexivity.
Qed.




(** The parts of the pages follow the pages, one each and in order. *)
Lemma page_parts_map (image : Type) (enc : image -> bytes) (pages : list image)
    (n : nat) :
  snd (page_parts enc n pages)
  = List.map (fun page => BytesPart (enc page) jpeg) pages
  /\ forall c, ~ In (GenerateContent c) (fst (page_parts enc n pages)).
Proof.
  revert n. induction pages as [|pg r IH]; intros n; simpl.
  - split; [reflexivity | intros c []].
  - destruct (page_parts enc (S n) r) as [ev parts] eqn:E.
    specialize (IH (S n)). rewrite E in IH. simpl in *.
    destruct IH as [IH1 IH2]. split; [rewrite IH1; reflexivity|].
    intros c [Hc | Hc]; [discriminate | exact (IH2 c Hc)].
Qed.

(** C8.  In recog3.py, a click with an uploaded PDF whose conversion gives
    three pages sends one request: the prompt followed by exactly three
    JPEG parts, those of page 1, page 2 and page 3 in this order. *)
Theorem three_page_pdf_request (image : Type)
    (convert_from_bytes : bytes -> option (list image))
    (image_to_bytes : image -> bytes) (displays : bytes -> bool)
    (i : input3) (f : upload) (page1 page2 page3 : image) :
  api_key3 i <> [] -> button3 i = true ->
  uploaded_file i = Some f ->
  up_type f = txt "application/pdf" ->
  convert_from_bytes (up_read f) = Some [page1; page2; page3] ->
  requests (fst (run3 convert_from_bytes image_to_bytes displays i))
  = [[ TextPart (prompt3 i);
       BytesPart (image_to_bytes page1) (txt "image/jpeg");
       BytesPart (image_to_bytes page2) (txt "image/jpeg");
       BytesPart (image_to_bytes page3) (txt "image/jpeg") ]].
Proof.
  intros K B U T Cv. unfold run3, attach, pdf_to_images.
  rewrite B, U, T, Cv.
  destruct (api_key3 i); [contradiction K; reflexivity|].
  change (is_image_type (txt "application/pdf")) with false.
  change (str_eqb (txt "application/pdf") (txt "application/pdf")) with true.
  cbn -[ask]. apply requests_ask. intros contents [].
Qed.

Lemma three_page_pdf_request_witness :
  let f := {| up_type := txt "application/pdf"; up_read := [Byte.x25] |} in
  let i := {| api_key3 := txt "k"; uploaded_file := Some f; url_input3 := [];
              url_fetch3 := FetchRaises; prompt3 := txt "sum"; button3 := true;
              answer3 := Response None |} in
  let pages (_ : bytes) := Some [Byte.x01; Byte.x02; Byte.x03] in
  let encode (b : Byte.byte) : bytes := [b] in
  requests (fst (run3 pages encode (fun _ : bytes => false) i))
  = [[ TextPart (txt "sum"); BytesPart [Byte.x01] (txt "image/jpeg");
       BytesPart [Byte.x02] (txt "image/jpeg");
       BytesPart [Byte.x03] (txt "image/jpeg") ]].
Proof.
  intros f i pages encode.
  apply (three_page_pdf_request pages encode (fun _ => false) i (f := f));
    [discriminate | reflexivity | reflexivity | reflexivity | reflexivity].
Defined.

End RecognizerFacts.

(* ================================================================== *)
(** * Further properties of the normalizer *)
(* ================================================================== *)

Module StripFacts.
Import PyStr Shape PyStrFacts.
Local Open Scope N_scope.

Lemma lstrip_by_split (p : char -> bool) (s : pystr) :
  exists a, s = a ++ lstrip_by p s /\ forallb p a = true.
Proof.
  induction s as [|c r (a & E & Ha)]; [exists []; auto|].
  cbn [lstrip_by]. destruct (p c) eqn:Ec.
  - exists (c :: a). cbn [app forallb]. rewrite Ec, Ha, <- E. auto.
  - exists []. auto.
Qed.

Lemma lstrip_by_head (p : char -> bool) (s : pystr) (c : char) (x : pystr) :
  lstrip_by p s = c :: x -> p c = false.
Proof.
  induction s as [|d r IH]; [discriminate|]. cbn [lstrip_by].
  destruct (p d) eqn:Ed; [exact IH|]. intros H. injection H as <- _. exact Ed.
Qed.

Lemma rstrip_by_split (p : char -> bool) (s : pystr) :
  exists b, s = rstrip_by p s ++ b /\ forallb p b = true.
Proof.
  unfold rstrip_by. destruct (lstrip_by_split p (rev s)) as (a & E & Ha).
  exists (rev a). split.
  - rewrite <- rev_app_distr, <- E, rev_involutive. reflexivity.
  - rewrite forallb_forall in *. intros x Hx. apply Ha, in_rev. exact Hx.
Qed.

Lemma rstrip_by_last (p : char -> bool) (s : pystr) :
  rstrip_by p s = [] \/ exists x d, rstrip_by p s = x ++ [d] /\ p d = false.
Proof.
  unfold rstrip_by. destruct (lstrip_by p (rev s)) as [|d t] eqn:E; [auto|].
  right. exists (rev t), d. split; [reflexivity|].
  apply (@lstrip_by_head p (rev s) d t E).
Qed.

(** What [strip] returns: the text between the white space at both ends,
    empty or with a first and a last code point that are not white
    space. *)
Lemma py_strip_shape (s : pystr) :
  exists a b,
    s = a ++ py_strip s ++ b
    /\ forallb py_isspace a = true /\ forallb py_isspace b = true
    /\ (py_strip s = []
        \/ ((exists c x, py_strip s = c :: x /\ py_isspace c = false)
            /\ ends_solid (py_strip s))).
Proof.
  unfold py_strip, strip_by.
  destruct (lstrip_by_split py_isspace s) as (a & Ea & Ha).
  destruct (rstrip_by_split py_isspace (lstrip_by py_isspace s))
    as (b & Eb & Hb).
  exists a, b. split; [rewrite <- Eb; exact Ea|]. split; [exact Ha|].
  split; [exact Hb|].
  destruct (rstrip_by_last py_isspace (lstrip_by py_isspace s))
    as [E | (x & d & E & Hd)]; [auto|].
  right. split; [|exists x, d; auto].
  destruct (lstrip_by py_isspace s) as [|c t] eqn:El.
  - destruct x; discriminate E.
  - pose proof (@lstrip_by_head py_isspace s c t El) as Hc.
    destruct (rstrip_by py_isspace (c :: t)) as [|c' t'] eqn:Er.
    + destruct x; discriminate E.
    + injection Eb as <- _. eauto.
Qed.

Lemma py_strip_pad (a s b : pystr) :
  forallb py_isspace a = true -> forallb py_isspace b = true ->
  py_strip (a ++ s ++ b) = py_strip s.
Proof.
  intros Ha Hb. unfold py_strip, strip_by. rewrite lstrip_by_app by exact Ha.
  induction s as [|c r IH].
  - cbn [app]. rewrite lstrip_by_all by exact Hb. reflexivity.
  - cbn [app lstrip_by]. destruct (py_isspace c); [exact IH|].
    change (c :: r ++ b) with ((c :: r) ++ b). apply rstrip_by_app, Hb.
Qed.

Lemma py_strip_idem (s : pystr) : py_strip (py_strip s) = py_strip s.
Proof.
  destruct (py_strip_shape s) as (a & b & _ & _ & _ & [E | [(c & x & E & Hc) S]]).
  - rewrite E. reflexivity.
  - destruct S as (y & d & Ey & Hd). rewrite Ey in *.
    destruct y as [|c' y'].
    + apply (@rstrip_by_id py_isspace [] d) in Hd as R.
      unfold py_strip, strip_by. cbn [app] in *. cbn [lstrip_by].
      rewrite Hd. exact R.
    + cbn [app] in *. injection E as -> _. apply py_strip_id; assumption.
Qed.

End StripFacts.

(** ** The repair only deletes *)

Module EditFacts.
Import PyStr Re Json Shape Normalizer Edits PyStrFacts TextFacts StripFacts.
Local Open Scope N_scope.

Lemma subseq_refl (s : pystr) : subseq s s.
Proof. induction s; constructor; assumption. Qed.

Lemma subseq_nil_l (s : pystr) : subseq [] s.
Proof. induction s; constructor; assumption. Qed.

Lemma subseq_app (x s y t : pystr) :
  subseq x s -> subseq y t -> subseq (x ++ y) (s ++ t).
Proof. intros H K. induction H; cbn [app]; try constructor; assumption. Qed.

Lemma subseq_suffix (a s : pystr) : subseq s (a ++ s).
Proof. induction a; cbn [app]; [apply subseq_refl | constructor; assumption]. Qed.

Lemma subseq_prefix (s b : pystr) : subseq s (s ++ b).
Proof.
  rewrite <- (app_nil_r s) at 1.
  apply subseq_app; [apply subseq_refl | apply subseq_nil_l].
Qed.

Lemma subseq_trans (x y z : pystr) : subseq x y -> subseq y z -> subseq x z.
Proof.
  intros H K. revert x H. induction K; intros x0 H.
  - exact H.
  - inversion H; subst; constructor; auto.
  - constructor. auto.
Qed.

Lemma subseq_length (x s : pystr) :
  subseq x s -> (List.length x <= List.length s)%nat.
Proof. induction 1; simpl; lia. Qed.

Lemma subseq_In (x s : pystr) (c : char) : subseq x s -> In c x -> In c s.
Proof. induction 1; intros Hc; simpl in *; intuition. Qed.

Lemma subseq_strip (s : pystr) : subseq (py_strip s) s.
Proof.
  destruct (py_strip_shape s) as (a & b & E & _). rewrite E at 2.
  eapply subseq_trans; [apply subseq_prefix | apply subseq_suffix].
Qed.

Lemma subseq_lstrip (p : char -> bool) (s : pystr) : subseq (lstrip_by p s) s.
Proof.
  destruct (lstrip_by_split p s) as (a & E & _). rewrite E at 2.
  apply subseq_suffix.
Qed.

Lemma subseq_skipn (n : nat) (s : pystr) : subseq (skipn n s) s.
Proof.
  rewrite <- (firstn_skipn n s) at 2. apply subseq_suffix.
Qed.

(** [re.sub] with a pattern whose replacement is left over from the
    match. *)
Lemma subseq_sub_scan (m : matcher) :
  (forall prev s repl n,
      m prev s = Some (repl, n) -> (1 <= n)%nat /\ subseq repl (firstn n s)) ->
  forall s k prev, subseq (sub_scan m k prev s) (skipn k s).
Proof.
  intros Hm. induction s as [|c r IH]; intros k prev.
  - destruct k; constructor.
  - destruct k as [|k]; cbn [sub_scan skipn]; [|apply IH].
    destruct (m prev (c :: r)) as [[repl n]|] eqn:E.
    + destruct (Hm _ _ _ _ E) as [Hn Hr].
      rewrite <- (firstn_skipn n (c :: r)) at 1.
      destruct n as [|n]; [lia|]. cbn [pred skipn].
      apply subseq_app; [exact Hr | apply IH].
    + constructor. apply (IH 0%nat).
Qed.

Lemma subseq_re_sub (m : matcher) (s : pystr) :
  (forall prev s repl n,
      m prev s = Some (repl, n) -> (1 <= n)%nat /\ subseq repl (firstn n s)) ->
  subseq (re_sub m s) s.
Proof. intros Hm. apply (@subseq_sub_scan m Hm s 0%nat None). Qed.

Lemma fence_open_deletes (prev : option char) (s repl : pystr) (n : nat) :
  fence_open prev s = Some (repl, n) ->
  (1 <= n)%nat /\ subseq repl (firstn n s).
Proof.
  unfold fence_open. destruct (at_bol prev); [|discriminate].
  destruct s as [|a [|b [|c r]]]; try discriminate.
  destruct ((a =? c_backtick) && (b =? c_backtick) && (c =? c_backtick));
    [|discriminate].
  intros H. injection H as <- <-. split; [lia | apply subseq_nil_l].
Qed.

Lemma fence_close_deletes (prev : option char) (s repl : pystr) (n : nat) :
  fence_close prev s = Some (repl, n) ->
  (1 <= n)%nat /\ subseq repl (firstn n s).
Proof.
  unfold fence_close.
  destruct s as [|a [|b [|c r]]]; try discriminate.
  destruct ((a =? c_backtick) && (b =? c_backtick) && (c =? c_backtick)
            && at_eol r); [|discriminate].
  intros H. injection H as <- <-. split; [lia | apply subseq_nil_l].
Qed.

Lemma closer_in_match (s : pystr) (n : nat) (k : char) :
  spaces_then_closer s = Some (n, k) -> subseq [k] (firstn (S n) s).
Proof.
  revert n. induction s as [|c r IH]; intros n H; [discriminate|].
  cbn [spaces_then_closer] in H. destruct (py_isspace c).
  - destruct (spaces_then_closer r) as [[n0 k0]|]; [|discriminate].
    injection H as <- <-. cbn [firstn]. constructor. apply IH. reflexivity.
  - destruct (is_closer c); [|discriminate]. injection H as <- <-.
    cbn [firstn]. constructor. constructor.
Qed.

Lemma trailing_comma_deletes (prev : option char) (s repl : pystr) (n : nat) :
  trailing_comma prev s = Some (repl, n) ->
  (1 <= n)%nat /\ subseq repl (firstn n s).
Proof.
  unfold trailing_comma. destruct s as [|c r]; [discriminate|].
  destruct (c =? c_comma); [|discriminate].
  destruct (spaces_then_closer r) as [[n0 k]|] eqn:E; [|discriminate].
  intros H. injection H as <- <-. split; [lia|].
  replace (n0 + 2)%nat with (S (S n0)) by lia. cbn [firstn].
  constructor. apply closer_in_match, E.
Qed.

(** [replace] with a replacement that is left over from what it
    replaces. *)
Lemma subseq_replace_scan (old new : pystr) :
  old <> [] -> subseq new old ->
  forall s k, subseq (replace_scan old new k s) (skipn k s).
Proof.
  intros Ho Hn. induction s as [|c r IH]; intros k.
  - destruct k; constructor.
  - destruct k as [|k]; cbn [replace_scan skipn]; [|apply IH].
    destruct (startswith old (c :: r)) eqn:E.
    + rewrite (@JsonFacts.startswith_split old (c :: r) E) at 1.
      destruct old as [|o old']; [contradiction Ho; reflexivity|].
      cbn [List.length pred skipn].
      apply subseq_app; [exact Hn | apply IH].
    + constructor. apply (IH 0%nat).
Qed.

Lemma subseq_unescape (s : pystr) :
  subseq (py_replace [c_backslash; c_dquote] [c_dquote] s) s.
Proof.
  apply (@subseq_replace_scan [c_backslash; c_dquote] [c_dquote]
           ltac:(discriminate) ltac:(repeat constructor) s 0%nat).
Qed.

End EditFacts.

(** ** What the normalizer accepts *)

Module NormalizerMore.
Import PyStr Re PyDict Json Shape Normalizer Edits.
Import PyStrFacts TextFacts JsonFacts RepairFacts NormalizerFacts.
Import StripFacts EditFacts.
Local Open Scope N_scope.

(** X1.  [clean_json_text] only deletes: the text it returns is the raw
    text with some code points left out, none added, changed or moved;
    and it has no white space at either end. *)
Theorem clean_json_text_only_deletes (raw : pystr) :
  subseq (clean_json_text raw) raw
  /\ (List.length (clean_json_text raw) <= List.length raw)%nat
  /\ py_strip (clean_json_text raw) = clean_json_text raw.
Proof.
  assert (H : subseq (clean_json_text raw) raw
              /\ py_strip (clean_json_text raw) = clean_json_text raw).
  { unfold clean_json_text. destruct raw as [|c0 r0]; [split; [constructor|reflexivity]|].
    set (raw := c0 :: r0). split; [|apply py_strip_idem].
    eapply subseq_trans; [apply subseq_strip|].
    eapply subseq_trans;
      [apply subseq_re_sub, trailing_comma_deletes|].
    eapply subseq_trans; [apply subseq_unescape|].
    assert (S1 : subseq (re_sub fence_close
                           (py_strip (re_sub fence_open (py_strip raw)))) raw).
    { eapply subseq_trans; [apply subseq_re_sub, fence_close_deletes|].
      eapply subseq_trans; [apply subseq_strip|].
      eapply subseq_trans; [apply subseq_re_sub, fence_open_deletes|].
      apply subseq_strip. }
    destruct (lower_startswith _ _); [|exact S1].
    eapply subseq_trans; [apply subseq_lstrip|].
    eapply subseq_trans; [apply subseq_skipn | exact S1]. }
  destruct H as [H1 H2]. split; [exact H1|]. split; [|exact H2].
  apply subseq_length, H1.
Qed.

(** X2.  White space around the raw text, of any kind [str.strip]
    removes, changes nothing of what [parse_gemini_json] returns or
    raises. *)
Theorem surrounding_space_is_ignored (a raw b : pystr) :
  forallb py_isspace a = true -> forallb py_isspace b = true ->
  parse_gemini_json (a ++ raw ++ b) = parse_gemini_json raw.
Proof.
  intros Ha Hb. unfold parse_gemini_json.
  rewrite (@py_strip_pad a raw b Ha Hb). reflexivity.
Qed.

Lemma surrounding_space_is_ignored_witness :
  parse_gemini_json ([160; c_nl] ++ quoted "{'a':1,}" ++ [c_tab; 8232])
  = inl (JDict [(txt "a", JInt 1)]).
Proof.
  etransitivity;
    [apply (@surrounding_space_is_ignored [160; c_nl] (quoted "{'a':1,}")
              [c_tab; 8232])|]; reflexivity.
Defined.

(** The value of a text that parses, alone. *)
Lemma stripped_value (a content b : pystr) (v : json) :
  forallb py_isspace a = true -> forallb py_isspace b = true ->
  json_loads content = Some v ->
  exists c x',
    py_strip (a ++ content ++ b) = c :: x'
    /\ json_loads (c :: x') = Some v.
Proof.
  intros Ha Hb Hv.
  destruct (@decode_value false content v Hv)
    as (w1 & x & w2 & E & H1 & H2 & C & (c & x' & Ex & Hc) & Hd).
  exists c, x'. rewrite <- Ex. split; [|exact Hd].
  rewrite E.
  replace (a ++ (w1 ++ x ++ w2) ++ b) with ((a ++ w1) ++ x ++ (w2 ++ b))
    by (rewrite <- !app_assoc; reflexivity).
  apply py_strip_around.
  - rewrite forallb_app, Ha, (@ws_spaces w1 H1). reflexivity.
  - rewrite forallb_app, Hb, (@ws_spaces w2 H2). reflexivity.
  - exists c, x'. split; [exact Ex | apply (@value_first_facts c Hc)].
  - apply C.
Qed.

(** X3.  A text that [json.loads] accepts, alone or between white space
    of any kind, is returned as [json.loads] parses it: the repair is not
    applied to it, whatever its strings hold. *)
Theorem valid_json_is_not_repaired (a content b : pystr) (v : json) :
  forallb py_isspace a = true -> forallb py_isspace b = true ->
  json_loads content = Some v ->
  parse_gemini_json (a ++ content ++ b) = inl v.
Proof.
  intros Ha Hb Hv.
  destruct (@stripped_value a content b v Ha Hb Hv) as (c & x' & E & Hd).
  unfold parse_gemini_json. rewrite E, Hd. reflexivity.
Qed.

Lemma valid_json_is_not_repaired_witness :
  parse_gemini_json ([160] ++ quoted "{'a':',}', 'b':'\''}" ++ [c_nl])
  = inl (JDict [(txt "a", JStr (txt ",}")); (txt "b", JStr [c_dquote])]).
Proof.
  apply (@valid_json_is_not_repaired [160] (quoted "{'a':',}', 'b':'\''}")
           [c_nl]); reflexivity.
Defined.

(** *** The fence without a tag, or tagged in another case *)

Lemma opt_json_len_newline (r : pystr) : opt_json_len (c_nl :: r) = 0%nat.
Proof. destruct r as [|a [|b [|c r]]]; reflexivity. Qed.

Lemma json_tag_cases (tag : pystr) :
  json_tag tag = true ->
  exists j s o n,
    tag = [j; s; o; n]
    /\ (ci 106 j && ci 115 s && ci 111 o && ci 110 n) = true
    /\ (n =? c_nl) = false.
Proof.
  destruct tag as [|j [|s [|o [|n [|x t]]]]]; try discriminate.
  cbn [json_tag]. intros H. exists j, s, o, n. split; [reflexivity|].
  split; [exact H|].
  apply andb_true_iff in H as [_ H]. unfold ci in H.
  apply orb_true_iff in H as [H | H]; [|discriminate H].
  apply orb_true_iff in H as [H | H]; apply N.eqb_eq in H; subst; reflexivity.
Qed.

Lemma re_sub_fence_open_fenced_as (tag content : pystr) :
  tag = [] \/ json_tag tag = true ->
  fence_free content ->
  re_sub fence_open (fenced_as tag content) = c_nl :: content ++ [c_nl].
Proof.
  intros [-> | Ht] H; unfold fenced_as, re_sub.
  - change (txt "```" ++ [] ++ [c_nl] ++ content ++ [c_nl] ++ txt "```")
      with (96 :: 96 :: 96 :: c_nl :: content ++ c_nl :: txt "```").
    cbn [sub_scan]. unfold fence_open at 1. cbn [at_bol].
    change (96 =? c_backtick) with true. cbn [andb].
    rewrite opt_json_len_newline. cbn [Nat.add pred sub_scan].
    unfold fence_open at 1. change (at_bol (Some 96)) with false. cbn iota.
    cbn [app]. f_equal. apply sub_scan_fence_open_tail. exact H.
  - destruct (@json_tag_cases tag Ht) as (j & s & o & n & -> & Hci & Hn).
    change (txt "```" ++ [j; s; o; n] ++ [c_nl] ++ content ++ [c_nl]
              ++ txt "```")
      with (96 :: 96 :: 96 :: j :: s :: o :: n :: c_nl
              :: content ++ c_nl :: txt "```").
    cbn [sub_scan]. unfold fence_open at 1. cbn [at_bol].
    change (96 =? c_backtick) with true. cbn [andb opt_json_len].
    rewrite Hci. cbn [Nat.add pred sub_scan].
    unfold fence_open at 1. cbn [at_bol]. rewrite Hn.
    cbn [app]. f_equal. apply sub_scan_fence_open_tail. exact H.
Qed.

Lemma fenced_as_not_json (tag content : pystr) :
  py_strip (fenced_as tag content) = fenced_as tag content
  /\ json_loads (fenced_as tag content) = None
  /\ exists c r, fenced_as tag content = c :: r.
Proof.
  split; [|split; [reflexivity|eexists; eexists; reflexivity]].
  unfold fenced_as.
  change (txt "```" ++ tag ++ [c_nl] ++ content ++ [c_nl] ++ txt "```")
    with (96 :: ([96; 96] ++ tag ++ [c_nl] ++ content ++ [c_nl]
                   ++ [96; 96] ++ [96])).
  rewrite !app_assoc. apply py_strip_id; reflexivity.
Qed.

(** The steps of [clean_json_text] on what is left of a fenced text
    once the fences are gone: a newline, the content, a newline. *)
Lemma clean_fence_body (content : pystr) (v : json) :
  json_loads content = Some v ->
  occurs [c_backslash; c_dquote] content = false ->
  re_search trailing_comma content = false ->
  fence_free content
  /\ exists x,
       json_loads x = Some v
       /\ py_strip
            (rc (py_replace [c_backslash; c_dquote] [c_dquote]
                   (let raw :=
                      re_sub fence_close (py_strip (c_nl :: content ++ [c_nl]))
                    in
                    if lower_startswith (txt "json") raw
                    then lstrip_by
                           (fun c => (c =? c_nl) || (c =? c_cr)
                                     || (c =? c_space)) (skipn 4 raw)
                    else raw))) = x.
Proof.
  intros Hv Ho Hs.
  destruct (@decode_value false content v Hv)
    as (w1 & x & w2 & E & H1 & H2 & C & Hx & Hd).
  assert (F : fence_free content).
  { rewrite E. destruct C. fence_tac. }
  split; [exact F|]. exists x. split; [exact Hd|].
  replace (c_nl :: content ++ [c_nl])
    with ((c_nl :: w1) ++ x ++ (w2 ++ [c_nl]))
    by (rewrite E; list_norm; reflexivity).
  assert (Ho' : occurs [c_backslash; c_dquote] x = false).
  { rewrite E in Ho. apply occurs_suffix in Ho.
    apply occurs_prefix in Ho; [exact Ho | discriminate]. }
  assert (Hs' : re_search trailing_comma x = false).
  { unfold re_search in *. rewrite E in Hs.
    apply (search_comma_suffix None None) in Hs.
    apply search_comma_prefix in Hs. exact Hs. }
  pose proof (@clean_steps (c_nl :: w1) x (w2 ++ [c_nl])) as Hcs.
  cbv zeta in Hcs |- *. rewrite Hcs; auto.
  - unfold re_sub. rewrite (@sub_scan_absent trailing_comma None x Hs').
    destruct Hx as (c & x' & Ex & Hc). destruct C as [_ S].
    apply py_strip_solid; [|exact S].
    exists c, x'. split; [exact Ex | apply (@value_first_facts c Hc)].
  - cbn [forallb]. rewrite (@ws_spaces w1 H1). reflexivity.
  - rewrite forallb_app, (@ws_spaces w2 H2). reflexivity.
Qed.

(** X4.  The tag of the opening fence is optional and its case does not
    matter: a text that parses as JSON and holds neither a backslash
    before a quote nor a comma before a closing bracket, wrapped in a
    fence with no tag or with [json] in any mix of cases, is parsed as the
    text itself. *)
Theorem fence_tag_is_optional (tag content : pystr) (v : json) :
  tag = [] \/ json_tag tag = true ->
  json_loads content = Some v ->
  occurs [c_backslash; c_dquote] content = false ->
  re_search trailing_comma content = false ->
  parse_gemini_json (fenced_as tag content) = inl v.
Proof.
  intros Ht Hv Ho Hs.
  destruct (@clean_fence_body content v Hv Ho Hs) as (F & x & Hx & Hc).
  destruct (fenced_as_not_json tag content) as (St & Nj & (c0 & r0 & Ef)).
  unfold parse_gemini_json. rewrite St, Ef. rewrite <- Ef, Nj.
  unfold clean_json_text. rewrite Ef, <- Ef, St.
  rewrite (@re_sub_fence_open_fenced_as tag content Ht F).
  cbv zeta in Hc. rewrite Hc. rewrite Hx. reflexivity.
Qed.

Lemma fence_tag_is_optional_witness :
  parse_gemini_json (fenced_as [] (quoted "[1, {'a': null}]"))
  = inl (JList [JInt 1; JDict [(txt "a", JNull)]])
  /\ parse_gemini_json (fenced_as (txt "JSon") (quoted "[1, {'a': null}]"))
     = inl (JList [JInt 1; JDict [(txt "a", JNull)]]).
Proof.
  split.
  - apply (@fence_tag_is_optional [] (quoted "[1, {'a': null}]"));
      [left; reflexivity | reflexivity | reflexivity | reflexivity].
  - apply (@fence_tag_is_optional (txt "JSon") (quoted "[1, {'a': null}]"));
      [right; reflexivity | reflexivity | reflexivity | reflexivity].
Defined.

(** *** The bare [json] token *)

Lemma lower_is_cases (c l : char) : lower_is c l = true -> c = l \/ c = l - 32.
Proof.
  unfold lower_is. intros H.
  apply orb_true_iff in H as [H | H]; apply N.eqb_eq in H; auto.
Qed.

(** What the code needs of the token: it is neither white space nor a
    fence nor the start of a JSON value. *)
Lemma json_token_facts (tag : pystr) :
  List.length tag = 4%nat ->
  lower_startswith (txt "json") tag = true ->
  (exists j t, tag = j :: t /\ py_isspace j = false)
  /\ fence_free tag
  /\ (forall r, json_loads (tag ++ r) = None)
  /\ (forall r, lower_startswith (txt "json") (tag ++ r) = true)
  /\ (forall r, skipn 4 (tag ++ r) = r).
Proof.
  destruct tag as [|j [|s [|o [|n [|x t]]]]]; try discriminate.
  intros _ H. cbn in H.
  apply andb_true_iff in H as [Hj H]. apply andb_true_iff in H as [Hs H].
  apply andb_true_iff in H as [Ho H]. apply andb_true_iff in H as [Hn _].
  apply lower_is_cases in Hj, Hs, Ho, Hn.
  destruct Hj as [-> | ->], Hs as [-> | ->], Ho as [-> | ->],
    Hn as [-> | ->];
    (split; [eexists; eexists; split; reflexivity|]);
    (split; [reflexivity|]); repeat split; reflexivity.
Qed.

Lemma occurs_after_ws (w x : pystr) :
  forallb is_ws w = true ->
  occurs [c_backslash; c_dquote] x = false ->
  occurs [c_backslash; c_dquote] (w ++ x) = false.
Proof.
  intros Hw Hx. induction w as [|c w IH]; [exact Hx|].
  cbn [forallb] in Hw. apply andb_true_iff in Hw as [Hc Hw].
  cbn [app occurs startswith]. rewrite (IH Hw).
  unfold is_ws in Hc.
  repeat (apply orb_true_iff in Hc as [Hc | Hc]);
    apply N.eqb_eq in Hc; subst; reflexivity.
Qed.

Lemma ws_plain (w : pystr) :
  forallb is_ws w = true -> forallb (fun c => negb (c =? c_comma)) w = true.
Proof.
  intros H. apply forallb_forall. intros c Hc. rewrite forallb_forall in H.
  apply negb_true_iff, N.eqb_neq, is_ws_not_comma, H, Hc.
Qed.

(** Stripping white space of some kinds in front of a value leaves the
    value, perhaps after white space of the other kinds. *)
Lemma lstrip_before_value (p : char -> bool) (w x : pystr) (c : char)
    (x' : pystr) :
  forallb is_ws w = true -> x = c :: x' -> p c = false ->
  exists w', lstrip_by p (w ++ x) = w' ++ x /\ forallb is_ws w' = true.
Proof.
  intros Hw -> Hc. induction w as [|a w IH].
  - exists []. cbn [app lstrip_by]. rewrite Hc. auto.
  - cbn [forallb] in Hw. apply andb_true_iff in Hw as [Ha Hw].
    cbn [app lstrip_by]. destruct (p a).
    + apply IH, Hw.
    + exists (a :: w). cbn [forallb]. rewrite Ha, Hw. auto.
Qed.

(** X5.  A bare [json] token in front of the value, in any mix of cases
    and followed by any JSON white space, is dropped: a text that parses
    as JSON and holds neither a backslash before a quote nor a comma
    before a closing bracket is parsed as it is without the token. *)
Theorem leading_json_token_is_dropped (tag sep content : pystr) (v : json) :
  List.length tag = 4%nat ->
  lower_startswith (txt "json") tag = true ->
  forallb is_ws sep = true ->
  json_loads content = Some v ->
  occurs [c_backslash; c_dquote] content = false ->
  re_search trailing_comma content = false ->
  parse_gemini_json (tag ++ sep ++ content) = inl v.
Proof.
  intros Hl Ht Hsep Hv Ho Hs.
  destruct (@json_token_facts tag Hl Ht)
    as ((j & t & Etag & Hj) & Ftag & Nj & Lj & Sk).
  destruct (@decode_value false content v Hv)
    as (w1 & x & w2 & E & H1 & H2 & C & (c & x' & Ex & Hc) & Hd).
  destruct (@value_first_facts c Hc) as (Hsp & Hws & _ & _ & _ & _).
  assert (Ho' : occurs [c_backslash; c_dquote] x = false).
  { rewrite E in Ho. apply occurs_suffix in Ho.
    apply occurs_prefix in Ho; [exact Ho | discriminate]. }
  assert (Hs' : re_search trailing_comma x = false).
  { unfold re_search in *. rewrite E in Hs.
    apply (search_comma_suffix None None) in Hs.
    apply search_comma_prefix in Hs. exact Hs. }
  assert (Hw : forallb is_ws (sep ++ w1) = true).
  { rewrite forallb_app, Hsep, H1. reflexivity. }
  set (t0 := tag ++ (sep ++ w1) ++ x).
  assert (Et0 : exists t1, t0 = j :: t1).
  { unfold t0. rewrite Etag. eexists. reflexivity. }
  destruct Et0 as (t1 & Et0).
  assert (S0 : ends_solid t0).
  { destruct C as [_ (y & d & Ey & Hd')]. exists (tag ++ (sep ++ w1) ++ y), d.
    unfold t0. rewrite Ey, <- !app_assoc. auto. }
  assert (St : py_strip (tag ++ sep ++ content) = t0).
  { replace (tag ++ sep ++ content) with ([] ++ t0 ++ w2)
      by (unfold t0; rewrite E, <- !app_assoc; reflexivity).
    apply py_strip_around; auto using ws_spaces. eauto. }
  assert (St0 : py_strip t0 = t0).
  { apply py_strip_solid; eauto. }
  assert (F0 : fence_free t0).
  { unfold t0. destruct C as [F _].
    apply fence_free_app; [exact Ftag|].
    apply fence_free_app; [apply ws_fence_free; exact Hw | exact F]. }
  unfold parse_gemini_json. rewrite St, Et0, <- Et0.
  unfold t0 at 1. rewrite Nj.
  unfold clean_json_text. rewrite Et0, <- Et0, St0.
  rewrite (@re_sub_fence_open t0 F0), St0, (@re_sub_fence_close t0 F0).
  unfold t0 at 1 2. rewrite Lj, Sk.
  destruct (@lstrip_before_value
              (fun c => (c =? c_nl) || (c =? c_cr) || (c =? c_space))
              (sep ++ w1) x c x' Hw Ex)
    as (w' & -> & Hw').
  { unfold is_ws in Hws. apply orb_false_iff in Hws as [Hws Hcr].
    apply orb_false_iff in Hws as [Hws Hnl].
    apply orb_false_iff in Hws as [Hspc _].
    rewrite Hnl, Hcr, Hspc. reflexivity. }
  rewrite (@replace_absent _ [c_dquote] (w' ++ x)
             (@occurs_after_ws w' x Hw' Ho')).
  rewrite (@rc_app_plain w' x (@ws_plain w' Hw')).
  unfold re_sub. rewrite (@sub_scan_absent trailing_comma None x Hs').
  replace (w' ++ x) with (w' ++ x ++ []) by (rewrite app_nil_r; reflexivity).
  rewrite py_strip_around;
    [unfold json_loads; rewrite Hd; reflexivity | | | |];
    auto using ws_spaces; [eauto | apply C].
Qed.

Lemma leading_json_token_is_dropped_witness :
  parse_gemini_json (txt "Json" ++ [c_nl; c_tab] ++ quoted "{'a': [true]}")
  = inl (JDict [(txt "a", JList [JBool true])]).
Proof.
  apply (@leading_json_token_is_dropped (txt "Json") [c_nl; c_tab]
           (quoted "{'a': [true]}")); reflexivity.
Defined.

End NormalizerMore.

(* ================================================================== *)
(** * Further properties of the wizard *)
(* ================================================================== *)

Module WizardMore.
Import PyStr PyDict Json Normalizer Packager Wizard WizardRuns.
Import PyStrFacts PyDictFacts PackagerFacts WizardFacts.

Lemma gateway_requests_app (a b : list event) :
  gateway_requests (a ++ b) = gateway_requests a ++ gateway_requests b.
Proof.
  induction a as [|e a IH]; [reflexivity|].
  destruct e; cbn [app gateway_requests]; rewrite ?IH; reflexivity.
Qed.

Lemma gateway_requests_none (ev : list event) :
  (forall e, In e ev -> forall p, e <> GenerateContent p) ->
  gateway_requests ev = [].
Proof.
  induction ev as [|e ev IH]; intros H; [reflexivity|].
  destruct e; cbn [gateway_requests];
    try (apply IH; intros e' He'; apply H; right; exact He').
  exfalso. apply (H (GenerateContent prompt_of) (or_introl eq_refl) prompt_of).
  reflexivity.
Qed.

Lemma left_column_quiet ed s i s1 ev r :
  left_column ed s i = (s1, ev, r) -> gateway_requests ev = [].
Proof.
  unfold left_column. intros H.
  repeat match type of H with
         | context [match ?x with _ => _ end] => destruct x
         | context [if ?x then _ else _] => destruct x
         end;
    inversion H; reflexivity.
Qed.

Lemma needs_request_entering ed p s i :
  needs_request p (store_uploads (set_inputs ed s i) (in_uploaded i))
  = needs_request p s.
Proof.
  destruct (entering_fields ed s i) as (_ & E1 & E2 & E3 & _).
  unfold needs_request, code_missing. rewrite E1, E2, E3. reflexivity.
Qed.

(** The right column asks the gateway at most once, for its own phase
    and only when the phase lacks what it asks for. *)
Lemma right_column_requests ed s fs i :
  gateway_requests (shown (right_column ed s fs i)) = []
  \/ (gateway_requests (shown (right_column ed s fs i)) = [the_phase s]
      /\ needs_request (the_phase s) s = true).
Proof.
  unfold_script. unfold needs_request.
  destruct (the_phase s) eqn:P; cbn [shown gateway_requests].
  - auto.
  - destruct (truthy (planning_response s)); cbn [negb];
      repeat branch; cbn; auto.
  - destruct (truthy (design_response s)); cbn [negb];
      repeat branch; cbn; auto.
  - repeat branch; cbn; auto.
  - destruct (code_missing s); repeat branch; cbn; auto.
Qed.

(** X6.  A run sends at most one request to the gateway; when it sends
    one, an API key was entered, the request is the one of the phase the
    session is in, and that phase had no usable cached response or code
    ([not planning_response], [not design_response],
    [not generated_code]).  In particular the collect and finalize
    phases never send a request. *)
Theorem at_most_one_request_per_run (ed : edition) (w : world) (i : input) :
  gateway_requests (shown (run ed w i)) = []
  \/ (gateway_requests (shown (run ed w i)) = [the_phase (sess w)]
      /\ in_api_key i <> []
      /\ needs_request (the_phase (sess w)) (sess w) = true).
Proof.
  unfold run. destruct (in_api_key i) eqn:K; [left; reflexivity|].
  destruct (left_column ed (sess w) i) as [[s1 ev] r] eqn:L.
  pose proof (left_column_quiet _ _ _ L) as Q.
  apply left_column_cases in L.
  destruct L as [[-> ->] | [(-> & -> & P & C) | (-> & -> & P & C)]];
    cbn [shown out]; auto.
  rewrite gateway_requests_app, Q. cbn [app].
  destruct (entering_fields ed (sess w) i) as (E0 & _).
  destruct (right_column_requests ed
              (store_uploads (set_inputs ed (sess w) i) (in_uploaded i))
              (disk w) i) as [H | [H N]]; [left; exact H|].
  right. rewrite needs_request_entering, E0 in *.
  repeat split; [exact H | discriminate | exact N].
Qed.

Lemma quiet_prefix (ev : list event) :
  (forall e, In e ev -> (exists m, e = StMarkdown m) \/ e = StButton ResetProject) ->
  gateway_requests ev = [].
Proof.
  intros H. apply gateway_requests_none. intros e He p0 ->.
  destruct (H _ He) as [[m Hm] | Hm]; discriminate.
Qed.

(** A run in a phase that lacks what it asks the gateway for. *)
Lemma run_requests ed w i :
  in_api_key i <> [] ->
  in_clicked i <> Some ResetProject ->
  needs_request (the_phase (sess w)) (sess w) = true ->
  (the_phase (sess w) = designing ->
   has_get (planning_response (sess w)) = true) ->
  gateway_requests (shown (run ed w i)) = [the_phase (sess w)].
Proof.
  intros K C N G.
  assert (P : the_phase (sess w) <> collect).
  { intros E. rewrite E in N. discriminate N. }
  destruct (run_right_column ed w i K P C) as (ev & -> & Hev).
  cbn [shown]. rewrite gateway_requests_app, (quiet_prefix _ Hev). cbn [app].
  rewrite <- (needs_request_entering ed _ (sess w) i) in N.
  destruct (entering_fields ed (sess w) i) as (E0 & E1 & _).
  rewrite <- E0 in N |- *. rewrite <- E0, <- E1 in G.
  set (s0 := store_uploads (set_inputs ed (sess w) i) (in_uploaded i)) in *.
  clearbody s0. clear E0 E1 Hev P.
  unfold_script. unfold needs_request in N.
  destruct (the_phase s0) eqn:Ph; try discriminate N; cbn [shown].
  - apply negb_true_iff in N. rewrite N. cbn [negb].
    repeat branch; reflexivity.
  - apply negb_true_iff in N. rewrite N, (G eq_refl). cbn [negb].
    repeat branch; reflexivity.
  - rewrite N. repeat branch; reflexivity.
Qed.

(** X7.  A run with an API key, in the planning, designing or generate
    phase, that finds no usable cached response or code sends exactly one
    request, that of the phase, whatever else the user did in the run
    short of resetting the project. *)
Theorem missing_response_is_requested_once (ed : edition) (w : world)
    (i : input) :
  in_api_key i <> [] ->
  in_clicked i <> Some ResetProject ->
  needs_request (the_phase (sess w)) (sess w) = true ->
  (the_phase (sess w) = designing ->
   has_get (planning_response (sess w)) = true) ->
  gateway_requests (shown (run ed w i)) = [the_phase (sess w)].
Proof.
  intros K C N G.
  assert (P : the_phase (sess w) <> collect).
  { intros E. rewrite E in N. discriminate N. }
  destruct (run_right_column ed w i K P C) as (ev & -> & Hev).
  cbn [shown]. rewrite gateway_requests_app, (quiet_prefix _ Hev). cbn [app].
  rewrite <- (needs_request_entering ed _ (sess w) i) in N.
  destruct (entering_fields ed (sess w) i) as (E0 & E1 & _).
  rewrite <- E0 in N |- *. rewrite <- E0, <- E1 in G.
  set (s0 := store_uploads (set_inputs ed (sess w) i) (in_uploaded i)) in *.
  clearbody s0. clear E0 E1 Hev P.
  unfold_script. unfold needs_request in N.
  destruct (the_phase s0) eqn:Ph; try discriminate N; cbn [shown].
  - apply negb_true_iff in N. rewrite N. cbn [negb].
    repeat branch; reflexivity.
  - apply negb_true_iff in N. rewrite N, (G eq_refl). cbn [negb].
    repeat branch; reflexivity.
  - rewrite N. repeat branch; reflexivity.
Qed.

Lemma missing_response_is_requested_once_witness :
  let w := {| sess := set_phase defaults generate; disk := no_files |} in
  let i := {| in_api_key := txt "k"; in_user_text := txt "idea";
              in_line_range := []; in_uploaded := [];
              in_clicked := Some ConfirmPlanning; in_reply := ReplyRaises |} in
  gateway_requests (shown (run Recog4 w i)) = [generate].
Proof.
  intros w i.
  apply (@missing_response_is_requested_once Recog4 w i);
    [discriminate | discriminate | reflexivity | discriminate].
Defined.

(** X8.  When the gateway call raises, or answers with a response whose
    text is [None], the run that made the request shows the error of the
    phase and stops; the session keeps its phase, its cached responses,
    its code and its file set, and nothing is written to disk. *)
Theorem gateway_failure_keeps_session (ed : edition) (w : world) (i : input) :
  in_reply i = ReplyRaises \/ in_reply i = ReplyText None ->
  gateway_requests (shown (run ed w i)) <> [] ->
  let o := run ed w i in
  ctl o = Stopped
  /\ (exists e, In (StError (GatewayError (the_phase (sess w)) e)) (shown o))
  /\ sess (after o) = store_uploads (set_inputs ed (sess w) i) (in_uploaded i)
  /\ the_phase (sess (after o)) = the_phase (sess w)
  /\ planning_response (sess (after o)) = planning_response (sess w)
  /\ design_response (sess (after o)) = design_response (sess w)
  /\ generated_code (sess (after o)) = generated_code (sess w)
  /\ project_files (sess (after o)) = project_files (sess w)
  /\ disk (after o) = disk w.
Proof.
  intros R Q o.
  assert (SR : exists e, stripped_reply i = inr e).
  { unfold stripped_reply. destruct R as [-> | ->]; eauto. }
  destruct SR as (e & SR).
  destruct (entering_fields ed (sess w) i) as (E0 & E1 & E2 & E3 & E4).
  set (s0 := store_uploads (set_inputs ed (sess w) i) (in_uploaded i)) in *.
  assert (H : ctl o = Stopped
              /\ In (StError (GatewayError (the_phase (sess w)) e)) (shown o)
              /\ sess (after o) = s0 /\ disk (after o) = disk w).
  { subst o. revert Q. unfold run.
    destruct (in_api_key i) eqn:K; [intros Q; contradiction Q; reflexivity|].
    destruct (left_column ed (sess w) i) as [[s1 ev] r] eqn:L.
    pose proof (left_column_quiet _ _ _ L) as Qv.
    apply left_column_cases in L. fold s0 in L.
    destruct L as [[-> ->] | [(-> & -> & P & C) | (-> & -> & P & C)]];
      cbn [shown out after ctl sess disk];
      try (intros Q; contradiction Q; exact Qv).
    rewrite gateway_requests_app, Qv. cbn [app]. rewrite <- E0.
    clearbody s0. clear E0 E1 E2 E3 E4 Qv.
    unfold_script. rewrite SR.
    destruct (the_phase s0) eqn:Ph; cbn [shown after ctl sess disk];
      repeat branch; cbn;
      intros Q; try (contradiction Q; reflexivity);
      (split; [reflexivity|]); (split; [|split; reflexivity]);
      apply in_or_app; right; cbn; auto. }
  destruct H as (H1 & H2 & H3 & H4).
  split; [exact H1|]. split; [eauto|]. split; [exact H3|].
  rewrite H3. auto 10.
Qed.

Lemma gateway_failure_keeps_session_witness :
  let plan := JDict [(txt "plan_text", JStr (txt "p"))] in
  let w := {| sess := set_planning_response (set_phase defaults designing) plan;
              disk := no_files |} in
  let i := {| in_api_key := txt "k"; in_user_text := txt "idea";
              in_line_range := []; in_uploaded := []; in_clicked := None;
              in_reply := ReplyText None |} in
  ctl (run Recog5 w i) = Stopped
  /\ the_phase (sess (after (run Recog5 w i))) = designing
  /\ design_response (sess (after (run Recog5 w i))) = JNull.
Proof.
  intros plan w i.
  destruct (@gateway_failure_keeps_session Recog5 w i)
    as (H1 & _ & _ & H2 & _ & H3 & _);
    [right; reflexivity | discriminate |].
  split; [exact H1 | split; [exact H2 | exact H3]].
Defined.

(** *** Replies that are accepted and cannot be used *)

Lemma parse_success_nonempty raw v : parse_gemini_json raw = inl v -> raw <> [].
Proof. intros H ->. discriminate H. Qed.

Lemma response_of_store p s v :
  p = planning \/ p = designing ->
  response_of p ((match p with
                  | designing => set_design_response
                  | _ => set_planning_response
                  end) s v) = v.
Proof. intros [-> | ->]; reflexivity. Qed.

(** The run of a phase that awaits its response, on a reply that
    parses. *)
Lemma parsed_reply_is_cached ed w i p t v :
  in_api_key i <> [] ->
  in_clicked i <> Some ResetProject ->
  awaits_response p (sess w) ->
  in_reply i = ReplyText (Some t) ->
  parse_gemini_json (py_strip t) = inl v ->
  let s0 := store_uploads (set_inputs ed (sess w) i) (in_uploaded i) in
  ctl (run ed w i) = Rerun
  /\ disk (after (run ed w i)) = disk w
  /\ sess (after (run ed w i))
     = (match p with
        | designing => set_design_response
        | _ => set_planning_response
        end) s0 v.
Proof.
  intros K C A R F s0.
  assert (Pne : the_phase (sess w) <> collect).
  { destruct A as [P A]. rewrite P. destruct p; try contradiction; discriminate. }
  pose proof (parse_success_nonempty F) as Hne.
  pose proof (stripped_reply_text i R) as SR.
  destruct (run_right_column ed w i K Pne C) as [ev [-> _]].
  rewrite (right_column_request ed (p := p))
    by (apply awaits_response_entering; exact A).
  unfold request_json. rewrite SR, F.
  destruct (py_strip t) as [|c0 r0] eqn:St; [contradiction Hne; reflexivity|].
  destruct ed; cbn; auto.
Qed.

(** X9.  A reply that parses to a falsy value (null, false, zero, an
    empty string, list or object) is cached and the run ends in a rerun;
    the phase still counts as without a response, so that every following
    run sends the request again until a reply is truthy or the project is
    reset. *)
Theorem falsy_response_is_requested_again (ed : edition) (w : world)
    (i : input) (p : phase) (t : pystr) (v : json) :
  in_api_key i <> [] ->
  in_clicked i <> Some ResetProject ->
  awaits_response p (sess w) ->
  in_reply i = ReplyText (Some t) ->
  parse_gemini_json (py_strip t) = inl v ->
  truthy v = false ->
  let o := run ed w i in
  ctl o = Rerun
  /\ response_of p (sess (after o)) = v
  /\ awaits_response p (sess (after o))
  /\ forall i',
       in_api_key i' <> [] -> in_clicked i' <> Some ResetProject ->
       gateway_requests (shown (run ed (after o) i')) = [p].
Proof.
  intros K C A R F T o.
  destruct (parsed_reply_is_cached ed w i K C A R F) as (H1 & _ & H3).
  pose proof (awaits_response_entering ed i A) as A0.
  set (s0 := store_uploads (set_inputs ed (sess w) i) (in_uploaded i)) in *.
  assert (Hp : p = planning \/ p = designing).
  { destruct A as [_ A]. destruct p; try contradiction; auto. }
  assert (A1 : awaits_response p (sess (after o))).
  { subst o. rewrite H3. destruct A0 as [P0 A0].
    destruct Hp as [-> | ->]; unfold awaits_response; cbn in *; tauto. }
  split; [exact H1|]. split.
  { subst o. rewrite H3. apply response_of_store, Hp. }
  split; [exact A1|].
  intros i' K' C'. destruct A1 as [P1 A1]. rewrite <- P1.
  apply run_requests; auto; rewrite P1.
  - destruct Hp as [-> | ->]; cbn in *; [rewrite A1; reflexivity|].
    destruct A1 as [A1 _]. rewrite A1. reflexivity.
  - intros ->. destruct A1 as [_ G]. exact G.
Qed.

Lemma falsy_response_is_requested_again_witness :
  let w := {| sess := set_phase defaults planning; disk := no_files |} in
  let i := {| in_api_key := txt "k"; in_user_text := txt "idea";
              in_line_range := []; in_uploaded := []; in_clicked := None;
              in_reply := ReplyText (Some (txt "{}")) |} in
  ctl (run Recog4 w i) = Rerun
  /\ planning_response (sess (after (run Recog4 w i))) = JDict []
  /\ gateway_requests (shown (run Recog4 (after (run Recog4 w i)) i))
     = [planning].
Proof.
  intros w i.
  destruct (@falsy_response_is_requested_again Recog4 w i planning (txt "{}")
              (JDict []))
    as (H1 & H2 & _ & H3);
    [discriminate | discriminate | split; reflexivity | reflexivity
    | reflexivity | reflexivity |].
  split; [exact H1 | split; [exact H2|]].
  apply H3; discriminate.
Defined.

(** X10.  A reply that parses to a truthy value the page cannot render
    (a value that is not an object, or an object whose questions are not
    a list of objects with an id and a question) is cached as well; every
    following run of the phase then ends in an exception nobody catches,
    without a request and without leaving the phase, until the project is
    reset. *)
Theorem unusable_response_blocks_the_phase (ed : edition) (w : world)
    (i : input) (p : phase) (t : pystr) (v : json) :
  in_api_key i <> [] ->
  in_clicked i <> Some ResetProject ->
  awaits_response p (sess w) ->
  in_reply i = ReplyText (Some t) ->
  parse_gemini_json (py_strip t) = inl v ->
  truthy v = true ->
  renders v = false ->
  let o := run ed w i in
  ctl o = Rerun
  /\ response_of p (sess (after o)) = v
  /\ forall i',
       in_api_key i' <> [] -> in_clicked i' <> Some ResetProject ->
       let o' := run ed (after o) i' in
       ctl o' = Raised
       /\ gateway_requests (shown o') = []
       /\ the_phase (sess (after o')) = p
       /\ response_of p (sess (after o')) = v.
Proof.
  intros K C A R F T N o.
  destruct (parsed_reply_is_cached ed w i K C A R F) as (H1 & _ & H3).
  pose proof (awaits_response_entering ed i A) as A0.
  set (s0 := store_uploads (set_inputs ed (sess w) i) (in_uploaded i)) in *.
  assert (Hp : p = planning \/ p = designing).
  { destruct A as [_ A]. destruct p; try contradiction; auto. }
  split; [exact H1|]. split.
  { subst o. rewrite H3. apply response_of_store, Hp. }
  intros i' K' C' o'.
  assert (P1 : the_phase (sess (after o)) = p).
  { subst o. rewrite H3. destruct A0 as [P0 _].
    destruct Hp as [-> | ->]; exact P0. }
  assert (V1 : response_of p (sess (after o)) = v).
  { subst o. rewrite H3. apply response_of_store, Hp. }
  assert (Pne : the_phase (sess (after o)) <> collect).
  { rewrite P1. destruct Hp as [-> | ->]; discriminate. }
  destruct (run_right_column ed (after o) i' K' Pne C') as [ev [E Hev]].
  destruct (entering_fields ed (sess (after o)) i') as (E0 & E1 & E2 & _).
  subst o'. rewrite E. cbn [ctl shown after].
  rewrite gateway_requests_app, (quiet_prefix _ Hev). cbn [app].
  set (s1 := store_uploads (set_inputs ed (sess (after o)) i') (in_uploaded i'))
    in *.
  assert (V2 : response_of p s1 = v).
  { rewrite <- V1. destruct Hp as [-> | ->]; cbn; assumption. }
  rewrite <- E0 in P1. clearbody s1.
  unfold right_column. rewrite P1.
  destruct Hp as [-> | ->]; cbn in V2;
    unfold planning_phase, designing_phase, confirm_response;
    rewrite V2, T, N; cbn; auto.
Qed.

Lemma unusable_response_blocks_the_phase_witness :
  let w := {| sess := set_phase defaults planning; disk := no_files |} in
  let i := {| in_api_key := txt "k"; in_user_text := txt "idea";
              in_line_range := []; in_uploaded := []; in_clicked := None;
              in_reply := ReplyText (Some (txt "[1]")) |} in
  ctl (run Recog5 w i) = Rerun
  /\ ctl (run Recog5 (after (run Recog5 w i)) i) = Raised.
Proof.
  intros w i.
  destruct (@unusable_response_blocks_the_phase Recog5 w i planning
              (txt "[1]") (JList [JInt 1]))
    as (H1 & _ & H3);
    [discriminate | discriminate | split; reflexivity | reflexivity
    | reflexivity | reflexivity | reflexivity |].
  split; [exact H1|]. apply H3; discriminate.
Defined.

(** *** An empty code reply *)

(** X11.  An empty code reply (empty once stripped) is an error in
    recog4.py: the run stops and nothing is stored.  recog5.py stores it:
    the code becomes the empty string, the file set is built around it and
    the run ends in a rerun; [not generated_code] still holds, so that
    every following run sends the code request again. *)
Theorem empty_code_reply (w : world) (i : input) (t : pystr) :
  in_api_key i <> [] ->
  in_clicked i <> Some ResetProject ->
  the_phase (sess w) = generate ->
  code_missing (sess w) = true ->
  in_reply i = ReplyText (Some t) ->
  py_strip t = [] ->
  (let o := run Recog4 w i in
   ctl o = Stopped
   /\ In (StError EmptyGatewayResponse) (shown o)
   /\ generated_code (sess (after o)) = generated_code (sess w)
   /\ project_files (sess (after o)) = project_files (sess w))
  /\ (let o := run Recog5 w i in
      ctl o = Rerun
      /\ generated_code (sess (after o)) = Some []
      /\ project_files (sess (after o))
         = assemble_files Recog5 []
             (uploaded_files
                (store_uploads (set_inputs Recog5 (sess w) i) (in_uploaded i)))
      /\ forall i',
           in_api_key i' <> [] -> in_clicked i' <> Some ResetProject ->
           gateway_requests (shown (run Recog5 (after o) i')) = [generate]).
Proof.
  intros K C P M R E.
  assert (Pne : the_phase (sess w) <> collect) by (rewrite P; discriminate).
  pose proof (stripped_reply_text i R) as SR. rewrite E in SR.
  split; intros o; subst o.
  - destruct (run_right_column Recog4 w i K Pne C) as [ev [-> _]].
    destruct (entering_fields Recog4 (sess w) i) as (E0 & _ & _ & E3 & E4).
    set (s0 := store_uploads (set_inputs Recog4 (sess w) i) (in_uploaded i))
      in *.
    assert (M0 : code_missing s0 = true).
    { unfold code_missing in *. rewrite E3. exact M. }
    rewrite P in E0. unfold right_column, generate_phase.
    rewrite E0, M0, SR. cbn.
    split; [reflexivity|]. split; [apply in_or_app; right; cbn; auto|].
    split; assumption.
  - destruct (run_right_column Recog5 w i K Pne C) as [ev [E1 _]].
    destruct (entering_fields Recog5 (sess w) i) as (E0 & _ & _ & E3 & E4).
    set (s0 := store_uploads (set_inputs Recog5 (sess w) i) (in_uploaded i))
      in *.
    assert (M0 : code_missing s0 = true).
    { unfold code_missing in *. rewrite E3. exact M. }
    rewrite P in E0.
    assert (Es : sess (after (run Recog5 w i))
                 = set_generated s0 [] (assemble_files Recog5 []
                                          (uploaded_files s0))
                 /\ ctl (run Recog5 w i) = Rerun).
    { rewrite E1. unfold right_column, generate_phase.
      rewrite E0, M0, SR. cbn. auto. }
    destruct Es as [Es Ec]. split; [exact Ec|]. rewrite Es.
    split; [reflexivity|]. split; [reflexivity|].
    intros i' K' C'.
    replace generate
      with (the_phase (sess (after (run Recog5 w i))))
      by (rewrite Es; exact E0).
    apply run_requests; auto; rewrite Es; cbn; rewrite E0.
    + reflexivity.
    + discriminate.
Qed.

Lemma empty_code_reply_witness :
  let w := {| sess := set_phase defaults generate; disk := no_files |} in
  let i := {| in_api_key := txt "k"; in_user_text := txt "idea";
              in_line_range := []; in_uploaded := []; in_clicked := None;
              in_reply := ReplyText (Some [c_space; c_nl]) |} in
  ctl (run Recog4 w i) = Stopped
  /\ ctl (run Recog5 w i) = Rerun
  /\ gateway_requests (shown (run Recog5 (after (run Recog5 w i)) i))
     = [generate].
Proof.
  intros w i.
  destruct (@empty_code_reply w i [c_space; c_nl])
    as ((H1 & _) & (H2 & _ & _ & H3));
    [discriminate | discriminate | reflexivity | reflexivity | reflexivity
    | reflexivity |].
  split; [exact H1 | split; [exact H2|]]. apply H3; discriminate.
Defined.

(** *** The sessions the wizard can be in *)






(** *** The archive on disk *)






(** X15.  "Reset Project", offered in every phase but collect, discards
    the whole session, the text and the files entered in the same run
    included: the session is that of a new one, the run ends in a rerun
    without a request and without touching the disk. *)
Theorem reset_discards_the_session (ed : edition) (w : world) (i : input) :
  in_api_key i <> [] ->
  the_phase (sess w) <> collect ->
  in_clicked i = Some ResetProject ->
  let o := run ed w i in
  sess (after o) = defaults
  /\ ctl o = Rerun
  /\ In (StButton ResetProject) (shown o)
  /\ gateway_requests (shown o) = []
  /\ disk (after o) = disk w.
Proof.
  intros K P C o. subst o. unfold run.
  destruct (in_api_key i); [contradiction K; reflexivity|].
  unfold left_column. rewrite store_uploads_phase. cbn [the_phase set_inputs].
  apply clicked_eq in C. rewrite C.
  destruct (the_phase (sess w)); [contradiction P; reflexivity|..];
    cbn [out after sess disk ctl shown];
    (split; [reflexivity|]); (split; [reflexivity|]);
    (split; [apply in_or_app; right; left; reflexivity|]);
    (split; [|reflexivity]);
    rewrite gateway_requests_app; destruct (uploaded_files _); reflexivity.
Qed.

Lemma reset_discards_the_session_witness :
  let f := {| name := txt "b.md"; type := txt "text/markdown";
              read := [Byte.x62] |} in
  let w := {| sess := set_phase defaults finalize; disk := no_files |} in
  let i := {| in_api_key := txt "k"; in_user_text := txt "new idea";
              in_line_range := []; in_uploaded := [f];
              in_clicked := Some ResetProject; in_reply := ReplyRaises |} in
  sess (after (run Recog5 w i)) = defaults /\ ctl (run Recog5 w i) = Rerun.
Proof.
  intros f w i.
  destruct (@reset_discards_the_session Recog5 w i) as (H1 & H2 & _);
    [discriminate | discriminate | reflexivity |].
  split; [exact H1 | exact H2].
Defined.

End WizardMore.

(* ================================================================== *)
(** * Further properties of the recognizers *)
(* ================================================================== *)

Module RecognizerMore.
Import PyStr Packager Recognizer Attachments PyStrFacts RecognizerFacts.

Section Recog3More.

Variable image : Type.
Variable convert_from_bytes : bytes -> option (list image).
Variable image_to_bytes : image -> bytes.
Variable displays : bytes -> bool.

Abbreviation run3' := (run3 convert_from_bytes image_to_bytes displays).

Lemma page_parts_events (pages : list image) (n : nat) :
  fst (page_parts image_to_bytes n pages)
  = List.map StPage (seq (n + 1) (List.length pages)).
Proof.
  revert n. induction pages as [|pg r IH]; intros n; [reflexivity|].
  cbn [page_parts List.length seq List.map].
  specialize (IH (S n)).
  destruct (page_parts image_to_bytes (S n) r) as [ev parts].
  cbn [fst] in *. rewrite IH. reflexivity.
Qed.

Lemma requests_pages (l : list nat) (rest : list event) :
  requests (List.map StPage l ++ rest) = requests rest.
Proof. induction l as [|n l IH]; [reflexivity | exact IH]. Qed.

(** The request of a run that attaches [parts], after the events [ev]
    of the attachments. *)
Lemma requests_of_ask (contents : list part) (a : reply) :
  requests (ask contents a []) = [contents].
Proof. apply requests_ask. intros c []. Qed.

Ltac one_request :=
  cbn [fst app requests]; rewrite ?requests_pages; cbn [app requests];
  apply requests_of_ask.

(** X18.  recog3.py sends at most one request per run, and only after a
    click with an API key; the request starts with the prompt, and
    whatever follows it are parts made of bytes. *)
Theorem recog3_request_shape (i : input3) :
  requests (fst (run3' i)) = []
  \/ exists parts,
       requests (fst (run3' i)) = [TextPart (prompt3 i) :: parts]
       /\ (forall p, In p parts -> exists data mime, p = BytesPart data mime)
       /\ api_key3 i <> [] /\ button3 i = true.
Proof.
  unfold run3, attach. destruct (api_key3 i) eqn:K; [left; reflexivity|].
  destruct (button3 i) eqn:B; [|left; reflexivity].
  assert (Kn : c :: p <> []) by discriminate.
  destruct (uploaded_file i) as [f|] eqn:U.
  - destruct (is_image_type (up_type f)) eqn:T.
    { destruct (displays (up_read f)); [|left; reflexivity].
      right. exists [BytesPart (up_read f) (up_type f)].
      split; [one_request|]. split; [|auto]. intros q [<- | []]. eauto. }
    destruct (str_eqb (up_type f) (txt "application/pdf")) eqn:Pd.
    + unfold pdf_to_images.
      destruct (convert_from_bytes (up_read f)) as [pages|];
        [|left; reflexivity].
      pose proof (page_parts_events pages 0) as Ev.
      pose proof (page_parts_map image_to_bytes pages 0) as [Pm _].
      destruct (page_parts image_to_bytes 0 pages) as [ev parts].
      cbn [fst snd] in *. subst ev parts. right. eexists.
      split; [one_request|]. split; [|auto].
      intros q H. apply in_map_iff in H as (pg & <- & _). eauto.
    + right. exists []. split; [one_request|]. split; [intros q []|auto].
  - destruct (url_input3 i) eqn:L.
    { right. exists []. split; [one_request|]. split; [intros q []|auto]. }
    destruct (url_fetch3 i) as [|b] eqn:F.
    + right. exists []. split; [one_request|]. split; [intros q []|auto].
    + destruct (displays b).
      * right. exists [BytesPart b jpeg].
        split; [one_request|]. split; [|auto]. intros q [<- | []]. eauto.
      * right. exists []. split; [one_request|]. split; [intros q []|auto].
Qed.

(** X19.  In recog3.py an uploaded PDF of any number of pages sends one
    request: the prompt, then one JPEG part per page, in page order; the
    pages are shown numbered from 1 and the text-only notice is not.  A PDF
    that cannot be converted ends the run in an uncaught exception, with
    no request. *)
Theorem pdf_pages_become_parts (i : input3) (f : upload) :
  api_key3 i <> [] -> button3 i = true ->
  uploaded_file i = Some f ->
  up_type f = txt "application/pdf" ->
  (forall pages,
      convert_from_bytes (up_read f) = Some pages ->
      requests (fst (run3' i))
      = [TextPart (prompt3 i)
           :: List.map (fun page =>
                          BytesPart (image_to_bytes page) (txt "image/jpeg"))
                pages]
      /\ (exists rest,
            fst (run3' i)
            = StInfo ProcessingPdf
                :: List.map StPage (seq 1 (List.length pages)) ++ rest
            /\ ~ In (StInfo TextOnlyMode) rest)
      /\ snd (run3' i) = Finished)
  /\ (convert_from_bytes (up_read f) = None ->
      requests (fst (run3' i)) = [] /\ snd (run3' i) = Raised).
Proof.
  intros K B U T. unfold run3, attach, pdf_to_images. rewrite B, U, T.
  destruct (api_key3 i); [contradiction K; reflexivity|].
  change (is_image_type (txt "application/pdf")) with false.
  change (str_eqb (txt "application/pdf") (txt "application/pdf")) with true.
  cbn iota. split.
  - intros pages ->.
    pose proof (page_parts_events pages 0) as Ev.
    pose proof (page_parts_map image_to_bytes pages 0) as [Pm _].
    destruct (page_parts image_to_bytes 0 pages) as [ev parts].
    cbn [fst snd] in *. subst ev parts.
    split; [one_request|]. split; [|reflexivity].
    eexists. split; [reflexivity|].
    cbn [app]. unfold ask. intros [H | H]; [discriminate|].
    destruct (answer3 i); cbn in H; intuition discriminate.
  - intros ->. split; reflexivity.
Qed.

End Recog3More.

Lemma pdf_pages_become_parts_witness :
  let f := {| up_type := txt "application/pdf"; up_read := [Byte.x25] |} in
  let i := {| api_key3 := txt "k"; uploaded_file := Some f; url_input3 := [];
              url_fetch3 := FetchRaises; prompt3 := txt "sum"; button3 := true;
              answer3 := Response None |} in
  let pages (_ : bytes) := Some [Byte.x01; Byte.x02] in
  let encode (b : Byte.byte) : bytes := [b] in
  requests (fst (run3 pages encode (fun _ : bytes => false) i))
  = [[ TextPart (txt "sum"); BytesPart [Byte.x01] (txt "image/jpeg");
       BytesPart [Byte.x02] (txt "image/jpeg") ]].
Proof.
  intros f i pages encode.
  destruct (@pdf_pages_become_parts Byte.byte pages encode
              (fun _ : bytes => false) i f) as [H _];
    [discriminate | reflexivity | reflexivity | reflexivity |].
  apply (H [Byte.x01; Byte.x02]). reflexivity.
Defined.

Section Recog3Attach.

Variable image : Type.
Variable convert_from_bytes : bytes -> option (list image).
Variable image_to_bytes : image -> bytes.
Variable displays : bytes -> bool.

Lemma requests_of_asked (contents : list part) (a : reply) :
  requests (ask contents a []) = [contents].
Proof. apply requests_ask. intros c []. Qed.

Lemma ask_is_not_a_notice (contents : list part) (a : reply) (m : message) :
  ~ In (StInfo m) (ask contents a []).
Proof.
  unfold ask. intros [H | H]; [discriminate|].
  destruct a; cbn in H; intuition discriminate.
Qed.

(** X20.  In recog3.py an uploaded image whose bytes [st.image] can show
    goes into the request with the bytes read from it and the type the
    upload declares, so that a PNG stays [image/png]; the URL field is not
    looked at when a file is uploaded, whatever it holds.  An uploaded
    image that [st.image] cannot show ends the run in the exception of
    [st.image]: nothing is shown and no request is sent. *)
Theorem upload_goes_before_the_url (i : input3) (f : upload) :
  api_key3 i <> [] -> button3 i = true ->
  uploaded_file i = Some f -> is_image_type (up_type f) = true ->
  (displays (up_read f) = true ->
   requests (fst (run3 convert_from_bytes image_to_bytes displays i))
   = [[TextPart (prompt3 i); BytesPart (up_read f) (up_type f)]]
   /\ ~ In (StError UrlFailed)
          (fst (run3 convert_from_bytes image_to_bytes displays i))
   /\ ~ In (StImage (txt "Image from URL"))
          (fst (run3 convert_from_bytes image_to_bytes displays i)))
  /\ (displays (up_read f) = false ->
      run3 convert_from_bytes image_to_bytes displays i = ([], Raised)).
Proof.
  intros K B U T. unfold run3, attach. rewrite B, U, T.
  destruct (api_key3 i); [contradiction K; reflexivity|].
  split; intros ->; [|reflexivity].
  cbn [fst app]. split; [cbn [requests]; apply requests_of_asked|].
  unfold ask.
  split; intros [H | [H | H]]; try discriminate;
    destruct (answer3 i); cbn in H; intuition discriminate.
Qed.

(** X21.  In recog3.py a file or a URL that yields no attachment still
    counts as attached: after an upload whose declared type is neither
    JPEG, PNG nor PDF, and after a URL that cannot be fetched, the request
    is sent with the prompt alone and the text-only notice is not
    shown. *)
Theorem unusable_attachment_still_asks (i : input3) :
  api_key3 i <> [] -> button3 i = true ->
  (exists f, uploaded_file i = Some f
             /\ is_image_type (up_type f) = false
             /\ up_type f <> txt "application/pdf")
  \/ (uploaded_file i = None /\ url_input3 i <> []
      /\ url_fetch3 i = FetchRaises) ->
  requests (fst (run3 convert_from_bytes image_to_bytes displays i))
  = [[TextPart (prompt3 i)]]
  /\ ~ In (StInfo TextOnlyMode)
         (fst (run3 convert_from_bytes image_to_bytes displays i))
  /\ snd (run3 convert_from_bytes image_to_bytes displays i) = Finished.
Proof.
  intros K B H. unfold run3, attach. rewrite B.
  destruct (api_key3 i); [contradiction K; reflexivity|].
  destruct H as [(f & -> & T & P) | (-> & L & ->)].
  - rewrite T. apply str_eqb_neq in P. rewrite P. cbn [fst snd app].
    split; [apply requests_of_asked|]. split; [|reflexivity].
    apply ask_is_not_a_notice.
  - destruct (url_input3 i); [contradiction L; reflexivity|].
    cbn [fst snd app]. split; [apply requests_of_asked|].
    split; [|reflexivity].
    intros [H | H]; [discriminate|]. revert H. apply ask_is_not_a_notice.
Qed.

End Recog3Attach.

Lemma upload_goes_before_the_url_witness :
  let f := {| up_type := txt "image/png"; up_read := png_1x1 |} in
  let i := {| api_key3 := txt "k"; uploaded_file := Some f;
              url_input3 := txt "http://x/y.jpg";
              url_fetch3 := Content [Byte.xff]; prompt3 := txt "what";
              button3 := true; answer3 := Response None |} in
  requests (fst (run3 (fun _ : bytes => Some ([] : list unit))
                      (fun _ : unit => []) (bytes_eqb png_1x1) i))
  = [[TextPart (txt "what"); BytesPart png_1x1 (txt "image/png")]].
Proof.
  intros f i.
  destruct (@upload_goes_before_the_url unit
              (fun _ : bytes => Some ([] : list unit)) (fun _ : unit => [])
              (bytes_eqb png_1x1) i f) as [H _];
    [discriminate | reflexivity | reflexivity | reflexivity |].
  apply H. reflexivity.
Defined.

Lemma unusable_attachment_still_asks_witness :
  let i := {| api_key3 := txt "k"; uploaded_file := None;
              url_input3 := txt "http://x/y.jpg";
              url_fetch3 := FetchRaises; prompt3 := txt "what";
              button3 := true; answer3 := Response None |} in
  fst (run3 (fun _ : bytes => Some ([] : list unit)) (fun _ : unit => [])
            (fun _ : bytes => false) i)
  = [StError UrlFailed; GenerateContent [TextPart (txt "what")]; StWrite None]
  /\ requests (fst (run3 (fun _ : bytes => Some ([] : list unit))
                         (fun _ : unit => []) (fun _ : bytes => false) i))
     = [[TextPart (txt "what")]].
Proof.
  intros i. split; [reflexivity|].
  apply (@unusable_attachment_still_asks unit
           (fun _ : bytes => Some ([] : list unit)) (fun _ : unit => [])
           (fun _ : bytes => false) i);
    [discriminate | reflexivity |].
  right. repeat split. discriminate.
Defined.

End RecognizerMore.

(* ================================================================== *)
(** * The session state *)
(* ================================================================== *)

Module SessionStateFacts.
Import PyStr PyDict Json Packager Wizard SessionState.
Import PyStrFacts PyDictFacts.

Lemma setdefault_get (k0 : pystr) (v0 : value) (st : state) (k : pystr) :
  dict_get k (setdefault k0 v0 st)
  = match dict_get k st with
    | Some v => Some v
    | None => if str_eqb k0 k then Some v0 else None
    end.
Proof.
  unfold setdefault. destruct (dict_get k0 st) as [v1|] eqn:E0.
  - destruct (dict_get k st) eqn:E; [reflexivity|].
    destruct (str_eqb k0 k) eqn:Ek; [|reflexivity].
    apply str_eqb_eq in Ek. subst. congruence.
  - destruct (str_eqb k0 k) eqn:Ek.
    + apply str_eqb_eq in Ek. subst k. rewrite dict_get_set_same, E0.
      reflexivity.
    + apply str_eqb_neq in Ek. rewrite (dict_get_set_other v0 st Ek).
      destruct (dict_get k st); reflexivity.
Qed.

Lemma fold_setdefault_get (pairs : list (pystr * value)) (st : state)
    (k : pystr) :
  dict_get k (fold_left (fun st kv => setdefault (fst kv) (snd kv) st) pairs st)
  = match dict_get k st with
    | Some v => Some v
    | None => dict_get k pairs
    end.
Proof.
  revert st. induction pairs as [|[k0 v0] r IH]; intros st.
  - cbn. destruct (dict_get k st); reflexivity.
  - cbn [fold_left fst snd]. rewrite IH, setdefault_get. cbn [dict_get].
    destruct (dict_get k st); [reflexivity|].
    destruct (str_eqb k0 k); reflexivity.
Qed.

Lemma fold_setdefault_present (pairs : list (pystr * value)) (st : state) :
  (forall k v, In (k, v) pairs -> dict_get k st <> None) ->
  fold_left (fun st kv => setdefault (fst kv) (snd kv) st) pairs st = st.
Proof.
  revert st. induction pairs as [|[k0 v0] r IH]; intros st H; [reflexivity|].
  cbn [fold_left fst snd].
  assert (E : setdefault k0 v0 st = st).
  { unfold setdefault. destruct (dict_get k0 st) eqn:E0; [reflexivity|].
    exfalso. apply (H k0 v0 (or_introl eq_refl) E0). }
  rewrite E. apply IH. intros k v Hin. apply (H k v). right. exact Hin.
Qed.

Lemma In_dict_get_some (V : Type) (k : pystr) (v : V) (d : dict V) :
  In (k, v) d -> dict_get k d <> None.
Proof.
  induction d as [|[k' v'] r IH]; intros H; [destruct H|].
  cbn [dict_get]. destruct (str_eqb k' k) eqn:E; [discriminate|].
  destruct H as [H | H]; [|exact (IH H)].
  injection H as -> _. rewrite str_eqb_refl in E. discriminate.
Qed.

(** X22.  [init_state], which runs at the start of every run, never
    changes what the session holds: a key that is set keeps its value, and
    each missing key of the defaults gets its default value.  Running it
    again changes nothing. *)
Theorem init_state_only_fills_gaps (ed : edition) (st : state) :
  (forall k,
      dict_get k (init_state ed st)
      = match dict_get k st with
        | Some v => Some v
        | None => dict_get k (defaults_of ed)
        end)
  /\ init_state ed (init_state ed st) = init_state ed st.
Proof.
  split; [intros k; apply fold_setdefault_get|].
  unfold init_state at 1. apply fold_setdefault_present.
  intros k v H. unfold init_state. rewrite fold_setdefault_get.
  destruct (dict_get k st); [discriminate|].
  apply (@In_dict_get_some value k v (defaults_of ed) H).
Qed.

Lemma del_keys_all (st : state) : del_keys (keys st) st = Some [].
Proof.
  induction st as [|[k v] r IH]; [reflexivity|].
  cbn [keys List.map fst del_keys dict_del]. rewrite str_eqb_refl. exact IH.
Qed.

(** X23.  The reset of "Reset Project" and "Start New Project" deletes
    every key without a [KeyError], those of the widgets included, and
    leaves exactly the defaults of [init_state], whatever the session held;
    read as a session, that state is the one of a new project. *)
Theorem reset_state_gives_the_defaults (ed : edition) (st : state) :
  reset_state ed st = Some (defaults_of ed)
  /\ session_of ed (defaults_of ed) = Some defaults.
Proof.
  split; [|destruct ed; reflexivity].
  unfold reset_state. rewrite del_keys_all. destruct ed; reflexivity.
Qed.

End SessionStateFacts.

(* ================================================================== *)
(** * The objects [json.loads] builds *)
(* ================================================================== *)

Module ParsedFacts.
Import PyStr PyDict Json Normalizer Parsed.
Import PyStrFacts PyDictFacts JsonFacts.
Local Open Scope N_scope.

Lemma keys_distinct_list (l : list json) :
  keys_distinct (JList l) <-> Forall keys_distinct l.
Proof.
  induction l as [|x r IH]; cbn [keys_distinct]; [split; auto|].
  split.
  - intros [H1 H2]. constructor; [exact H1 | apply IH, H2].
  - intros H. inversion H; subst. split; [assumption | apply IH; assumption].
Qed.

Lemma keys_distinct_dict (d : list (pystr * json)) :
  keys_distinct (JDict d)
  <-> NoDup (keys d) /\ Forall (fun kv => keys_distinct (snd kv)) d.
Proof.
  cbn [keys_distinct]. apply and_iff_compat_l.
  induction d as [|[k x] r IH]; [split; auto|].
  split.
  - intros [H1 H2]. constructor; [exact H1 | apply IH, H2].
  - intros H. inversion H; subst. split; [assumption | apply IH; assumption].
Qed.

(** The object made of the members of a text. *)
Lemma keys_distinct_of_pairs (pairs : list (pystr * json)) :
  Forall (fun kv => keys_distinct (snd kv)) pairs ->
  keys_distinct (JDict (dict_of_pairs pairs)).
Proof.
  intros H. apply keys_distinct_dict. split.
  - unfold dict_of_pairs. apply keys_dict_update_NoDup. constructor.
  - apply Forall_forall. intros [k v] Hin.
    apply In_dict_of_pairs, last_assigned_In in Hin.
    rewrite Forall_forall in H. apply (H _ Hin).
Qed.

Lemma match_number_plain (s : pystr) (v : json) (r : pystr) :
  match_number s = Some (v, r) -> keys_distinct v.
Proof.
  unfold match_number. destruct (match_sign s) as [neg s1].
  destruct (match_int s1) as [[ds r1]|]; [|discriminate].
  destruct (match_frac r1) as [fs r2]. destruct (match_exp r2) as [ex r3].
  intros H. injection H as <- _. unfold number_value.
  destruct fs, ex; exact I.
Qed.

Section Members.

Variable b : bool.
Variable scan : pystr -> option (json * pystr).
Hypothesis Hscan : forall s v r, scan s = Some (v, r) -> keys_distinct v.

Lemma array_items_distinct :
  forall n vals s v r,
    array_items b scan n vals s = Some (v, r) ->
    Forall keys_distinct vals -> keys_distinct v.
Proof.
  induction n as [|n IH]; intros vals s v r H Hv; [discriminate|].
  cbn [array_items] in H.
  destruct (scan s) as [[value r1]|] eqn:Es; [|discriminate].
  assert (Hv' : Forall keys_distinct (vals ++ [value])).
  { apply Forall_app. split; [exact Hv|]. constructor; [|constructor].
    apply (Hscan Es). }
  destruct (skip_ws r1) as [|c r2]; [discriminate|].
  destruct (c =? 93).
  { injection H as <- _. apply keys_distinct_list, Hv'. }
  destruct (c =? c_comma); [|discriminate].
  destruct (skip_ws r2) as [|c2 r3]; [discriminate|].
  destruct (b && (c2 =? 93)).
  - injection H as <- _. apply keys_distinct_list, Hv'.
  - apply (IH _ _ _ _ H Hv').
Qed.

Lemma object_items_distinct :
  forall n pairs s v r,
    object_items b scan n pairs s = Some (v, r) ->
    Forall (fun kv => keys_distinct (snd kv)) pairs -> keys_distinct v.
Proof.
  induction n as [|n IH]; intros pairs s v r H Hp; [discriminate|].
  cbn [object_items] in H.
  destruct (scanstring s) as [[key r0]|]; [|discriminate].
  destruct (skip_ws r0) as [|c r1]; [discriminate|].
  destruct (c =? 58); [|discriminate].
  destruct (scan (skip_ws r1)) as [[value r2]|] eqn:Es; [|discriminate].
  assert (Hp' : Forall (fun kv => keys_distinct (snd kv))
                  (pairs ++ [(key, value)])).
  { apply Forall_app. split; [exact Hp|]. constructor; [|constructor].
    apply (Hscan Es). }
  destruct (skip_ws r2) as [|c2 r3]; [discriminate|].
  destruct (c2 =? 125).
  { injection H as <- _. apply keys_distinct_of_pairs, Hp'. }
  destruct (c2 =? c_comma); [|discriminate].
  destruct (skip_ws r3) as [|c3 r4]; [discriminate|].
  destruct (c3 =? c_dquote); [apply (IH _ _ _ _ H Hp')|].
  destruct (b && (c3 =? 125)); [|discriminate].
  injection H as <- _. apply keys_distinct_of_pairs, Hp'.
Qed.

End Members.

Lemma scan_once_distinct (b : bool) :
  forall n s v r, scan_once b n s = Some (v, r) -> keys_distinct v.
Proof.
  induction n as [|n IH]; intros s v r H; [discriminate|].
  destruct s as [|c s0]; [discriminate|]. cbn [scan_once] in H.
  destruct (c =? c_dquote).
  { destruct (scanstring s0) as [[body r0]|]; [|discriminate].
    injection H as <- _. exact I. }
  destruct (c =? 123).
  { unfold JSONObject in H. destruct (skip_ws s0) as [|c1 r1]; [discriminate|].
    destruct (c1 =? 125).
    { injection H as <- _. cbn. split; [constructor | exact I]. }
    destruct (c1 =? c_dquote); [|discriminate].
    apply (@object_items_distinct b _ IH _ _ _ _ _ H). constructor. }
  destruct (c =? 91).
  { unfold JSONArray in H. destruct (skip_ws s0) as [|c1 r1]; [discriminate|].
    destruct (c1 =? 93).
    { injection H as <- _. exact I. }
    apply (@array_items_distinct b _ IH _ _ _ _ _ H). constructor. }
  repeat match type of H with
         | match keyword ?w ?t with _ => _ end = _ =>
             destruct (keyword w t); [injection H as <- _; exact I|]
         | match match_number ?t with _ => _ end = _ =>
             let K := fresh "Nm" in
             destruct (match_number t) as [[v0 r0]|] eqn:K;
             [injection H as <- _; apply (@match_number_plain _ _ _ K)|]
         end.
  discriminate.
Qed.

Lemma json_loads_distinct (s : pystr) (v : json) :
  json_loads s = Some v -> keys_distinct v.
Proof.
  unfold json_loads, decode. intros H.
  destruct (scan_once false (S (List.length s)) (skip_ws s)) as [[v0 r]|] eqn:E;
    [|discriminate].
  destruct (skip_ws r); [|discriminate]. injection H as <-.
  apply (@scan_once_distinct false _ _ _ _ E).
Qed.

(** X24.  No object that [parse_gemini_json] returns holds a key twice,
    at any depth, whatever the reply repeats: [json.loads] keeps one entry
    per key.  What the wizard reads with [data.get] is therefore the one
    entry of that key. *)
Theorem parsed_objects_have_distinct_keys (raw : pystr) (v : json) :
  parse_gemini_json raw = inl v ->
  keys_distinct v
  /\ forall d k x,
       v = JDict d -> (In (k, x) d <-> dict_get k d = Some x).
Proof.
  intros H.
  assert (K : keys_distinct v).
  { unfold parse_gemini_json in H.
    destruct (py_strip raw) as [|c r]; [discriminate|].
    destruct (json_loads (c :: r)) as [v1|] eqn:E1.
    - injection H as <-. apply (@json_loads_distinct _ _ E1).
    - destruct (json_loads (clean_json_text (c :: r))) as [v2|] eqn:E2;
        [|discriminate].
      injection H as <-. apply (@json_loads_distinct _ _ E2). }
  split; [exact K|]. intros d k x ->.
  apply In_dict_get. apply keys_distinct_dict in K. apply K.
Qed.

Lemma parsed_objects_have_distinct_keys_witness :
  parse_gemini_json (quoted "{'a': 1, 'b': 2, 'a': 3}")
  = inl (JDict [(txt "a", JInt 3); (txt "b", JInt 2)])
  /\ keys_distinct (JDict [(txt "a", JInt 3); (txt "b", JInt 2)]).
Proof.
  split; [reflexivity|].
  apply (@parsed_objects_have_distinct_keys
           (quoted "{'a': 1, 'b': 2, 'a': 3}")).
  reflexivity.
Defined.

End ParsedFacts.
